(** * A2C-GNN: the graph parser, the critic, the action sampler and the trainer

    A shallow embedding of [src/algos/a2c_gnn.py].

    Conventions of the embedding.
    - Tensor entries and Python floats are exact rationals ([Q]); rounding,
      [nan] and [inf] are not represented.  Results that the source only
      fixes up to rounding are compared with [==] ([Qeq]).
    - A one-dimensional tensor is a list of entries, a two-dimensional tensor
      a list of rows.  Device placement ([.to(...)]) is not represented.
    - Transcendental functions, the library's graph convolution [GCNConv],
      the aggregation of [MessagePassing], the random draws, the density of
      the Dirichlet distribution and the optimiser step are parameters of
      the development.  [EdgeConv], which the source defines itself, is
      embedded.
    - [torch.distributions] validates its arguments, as it does by default
      (validation is off only when Python runs with [-O] or when it is
      switched off by hand, which the source does not do).
    - An operation that can raise returns [Res]; the methods of [A2C] run in
      a state-and-exception monad in which the agent's fields keep the
      mutations made before an exception was raised, as in Python. *)

From Stdlib Require Import List ZArith QArith Qabs Qpower Lia Bool Arith Lqa.
Import ListNotations.

Set Implicit Arguments.

(** ** Exceptions and fallible computations *)

Inductive exn : Type :=
| RuntimeError | ValueError | IndexError | AttributeError | UnboundLocalError
| ZeroDivisionError | TypeError.

Inductive Res (A : Type) : Type :=
| Ok (a : A)
| Raise (e : exn).
Arguments Ok {A} a.
Arguments Raise {A} e.

Definition res_bind {A B} (m : Res A) (k : A -> Res B) : Res B :=
  match m with
  | Ok a => k a
  | Raise e => Raise e
  end.

Declare Scope res_scope.
Delimit Scope res_scope with res.
Notation "x <- m ;; k" := (res_bind m (fun x => k))
  (at level 61, m at next level, right associativity) : res_scope.
Notation "' p <- m ;; k" := (res_bind m (fun x => let p := x in k))
  (at level 61, p pattern, m at next level, right associativity) : res_scope.

Fixpoint mapM {A B} (f : A -> Res B) (l : list A) : Res (list B) :=
  match l with
  | [] => Ok []
  | a :: l' =>
      match f a with
      | Ok b =>
          match mapM f l' with
          | Ok bs => Ok (b :: bs)
          | Raise e => Raise e
          end
      | Raise e => Raise e
      end
  end.

(** ** Tensors *)

Definition Tensor1 := list Q.
Definition Tensor2 := list (list Q).

Definition Qsum (l : list Q) : Q := fold_left Qplus l 0%Q.

(** [tensor.numel()] of a two-dimensional tensor. *)
Definition numel (t : Tensor2) : nat := length (concat t).

(** [tensor.item()]: defined only for a tensor with exactly one element. *)
Definition item (t : Tensor2) : Res Q :=
  match concat t with
  | [v] => Ok v
  | _ => Raise RuntimeError
  end.

(** [m.T] of a matrix with [cols] columns. *)
Definition transpose (cols : nat) (m : Tensor2) : Tensor2 :=
  map (fun i => map (fun row => nth i row 0%Q) m) (seq 0 cols).

(** [.view(rows, cols)] of the entries [flat] (row-major): the number of
    entries must be [rows * cols]. *)
Definition view (rows cols : nat) (flat : list Q) : Res Tensor2 :=
  if Nat.eqb (length flat) (rows * cols)
  then Ok (map (fun i => firstn cols (skipn (i * cols) flat)) (seq 0 rows))
  else Raise RuntimeError.

(** [torch.cat([a, b], dim=1)]: the row counts must agree. *)
Definition cat_dim1 (a b : Tensor2) : Res Tensor2 :=
  if Nat.eqb (length a) (length b)
  then Ok (map (fun ab => fst ab ++ snd ab) (combine a b))
  else Raise RuntimeError.

(** [x.index_select(0, index)]: the rows of [x] at the positions [index];
    a position outside [x] raises. *)
Definition index_select (x : Tensor2) (index : list nat) : Res Tensor2 :=
  mapM (fun i => match nth_error x i with
                 | Some row => Ok row
                 | None => Raise IndexError
                 end) index.

(** ** The simulator as the parser sees it *)

(** A node is a (region, charge level) pair. *)
Definition Node := (Z * Z)%type.

Definition node_eqb (a b : Node) : bool :=
  Z.eqb (fst a) (fst b) && Z.eqb (snd a) (snd b).

(** Column [(i, j)] of a [2 x E] edge-index tensor. *)
Definition EdgeIndex := list (nat * nat).

(** The simulator's dictionaries are indexed both by region pairs
    ([price[o[0], j]]) and by node pairs ([demand[i, j]] with [i, j] an
    edge's end points). *)
Inductive Key : Type :=
| RegionKey (o j : Z)
| NodeKey (i j : Node).

Record Scenario : Type := {
  number_charge_levels : Z;
  charge_levels_per_charge_step : Z;
  energy_distance : Key -> Q;
  charging_stations : Z -> bool
}.

(** Dictionary and array reads of the simulator are total here. *)
Record Env : Type := {
  nodes : list Node;
  number_nodes : nat;
  edges : list (Node * Node);
  gcn_edge_idx : EdgeIndex;
  region : list Z;
  time : nat;
  acc : Node -> nat -> Q;
  dacc : Node -> nat -> Q;
  price : Key -> nat -> Q;
  demand : Key -> nat -> Q;
  scenario : Scenario
}.

(** [Data(x, edge_index, edge_attr=e)]; [edge_attr] is absent without MPNN. *)
Module Data.
Record t : Type := {
  x : Tensor2;
  edge_index : EdgeIndex;
  edge_attr : option Tensor2
}.
End Data.

(** ** GNNParser *)

Module GNNParser.

Local Open Scope res_scope.

(** [list.index]: position of the first equal element, [ValueError] if none. *)
Fixpoint index (l : list Node) (n : Node) : Res nat :=
  match l with
  | [] => Raise ValueError
  | m :: l' =>
      if node_eqb m n then Ok O
      else match index l' n with
           | Ok k => Ok (S k)
           | Raise e => Raise e
           end
  end.

(** The double loop [for o in nodes: for d in nodes:] with one
    [if rule: edges.append([o, d])] per rule, in the order of the source. *)
Definition scan (rules : list (Node -> Node -> bool)) (ns : list Node)
  : list (Node * Node) :=
  flat_map (fun o =>
    flat_map (fun d =>
      flat_map (fun rule : Node -> Node -> bool =>
                  if rule o d then [(o, d)] else []) rules) ns) ns.

(** The loop [for e in edges:] that looks both end points up in
    [env.nodes] and appends the column to [edge_idx]. *)
Definition to_edge_idx (ns : list Node) (es : list (Node * Node))
  : Res EdgeIndex :=
  mapM (fun e => i <- index ns (fst e) ;;
                 j <- index ns (snd e) ;;
                 Ok (i, j)) es.

Definition self_loop (o d : Node) : bool :=
  Z.eqb (fst o) (fst d) && Z.eqb (snd o) (snd d).

Definition grid (o d : Node) : bool :=
  (Z.eqb (snd o) (snd d) && negb (Z.eqb (fst o) (fst d)))
  || (Z.eqb (snd o) (snd d - 1) && Z.eqb (fst o) (fst d))
  || (Z.eqb (snd o) (snd d + 1) && Z.eqb (fst o) (fst d)).

Definition grid_or_self (o d : Node) : bool :=
  (Z.eqb (snd o) (snd d) && Z.eqb (fst o) (fst d))
  || (Z.eqb (snd o) (snd d) && negb (Z.eqb (fst o) (fst d)))
  || (Z.eqb (snd o) (snd d - 1) && Z.eqb (fst o) (fst d))
  || (Z.eqb (snd o) (snd d + 1) && Z.eqb (fst o) (fst d)).

Definition artificial (charge_delta max_charge : Z) (o d : Node) : bool :=
  negb (Z.eqb (fst o) (fst d))
  && Z.eqb (snd o + (charge_delta - 1)) (snd d)
  && negb (Z.eqb (snd d) max_charge).

Definition infeasible (charge_delta : Z) (o d : Node) : bool :=
  Z.eqb (fst o) (fst d) && Z.eqb (snd o + (charge_delta + 1)) (snd d).

Definition unintuitive (o d : Node) : bool :=
  Z.eqb (fst o) (fst d) && Z.eqb (snd o - 1) (snd d).

(** The [edge_index] that [parse_obs] builds for [version]; a version
    outside 0..6 leaves the variable unbound. *)
Definition build_edge_index (env : Env) (version charge_delta max_charge : Z)
  : Res EdgeIndex :=
  if Z.eqb version 0 then Ok (gcn_edge_idx env)
  else if Z.eqb version 1 then
    to_edge_idx (nodes env) (scan [self_loop] (nodes env))
  else if Z.eqb version 2 then
    edge_idx <- to_edge_idx (nodes env) (scan [self_loop] (nodes env)) ;;
    Ok (edge_idx ++ gcn_edge_idx env)
  else if Z.eqb version 3 then
    to_edge_idx (nodes env) (scan [grid] (nodes env))
  else if Z.eqb version 4 then
    to_edge_idx (nodes env) (scan [grid_or_self] (nodes env))
  else if Z.eqb version 5 then
    edge_idx <- to_edge_idx (nodes env)
                  (scan [artificial charge_delta max_charge;
                         infeasible charge_delta; unintuitive; self_loop]
                        (nodes env)) ;;
    Ok (edge_idx ++ gcn_edge_idx env)
  else if Z.eqb version 6 then
    edge_idx <- to_edge_idx (nodes env)
                  (scan [artificial charge_delta max_charge;
                         infeasible charge_delta; unintuitive]
                        (nodes env)) ;;
    Ok (edge_idx ++ gcn_edge_idx env)
  else Raise UnboundLocalError.

(** The parser object: [self.env], [self.T], [self.scale_factor],
    [self.price_scale_factor]. *)
Record t : Type := {
  env : Env;
  T : nat;
  scale_factor : Q;
  price_scale_factor : Q
}.

Definition input_size (p : t) : nat := 2 + 2 * T p.

(** [range(self.env.time+1, self.env.time+self.T+1)] *)
Definition horizon (p : t) : list nat := seq (time (env p) + 1) (T p).

(** The revenue feature of node [o] at time [tm] (line 73): the sum over
    the regions [j] of price * scale * price scale * demand * feasibility. *)
Definition revenue (p : t) (o : Node) (tm : nat) : Q :=
  let e := env p in
  Qsum (map (fun j =>
          price e (RegionKey (fst o) j) tm * scale_factor p
          * price_scale_factor p * demand e (RegionKey (fst o) j) tm
          * (if Qle_bool
                  (if charging_stations (scenario e) j then 0 else 1)
                  (inject_Z (snd o)
                   - energy_distance (scenario e) (RegionKey (fst o) j))
             then 1 else 0))%Q
        (region e)).

(** The node-feature matrix [x] (lines 66-75), one row per node. *)
Definition node_features (p : t) : Res Tensor2 :=
  let e := env p in
  let n := number_nodes e in
  charge <-
    (if Z.eqb (number_charge_levels (scenario e)) 0
     then match nodes e with [] => Ok [] | _ :: _ => Raise ZeroDivisionError end
     else Ok (map (fun nd => inject_Z (snd nd)
                             / inject_Z (number_charge_levels (scenario e)))%Q
                  (nodes e))) ;;
  f1 <- view 1 n charge ;;
  f2 <- view 1 n (map (fun nd => acc e nd (time e + 1) * scale_factor p)%Q
                      (nodes e)) ;;
  f3 <- view (T p) n
          (concat (map (fun tm =>
             map (fun nd => (acc e nd (time e + 1) + dacc e nd tm)
                            * scale_factor p)%Q (nodes e)) (horizon p))) ;;
  f4 <- view (T p) n
          (concat (map (fun tm => map (fun o => revenue p o tm) (nodes e))
                       (horizon p))) ;;
  rows <- view (input_size p) n (concat (f1 ++ f2 ++ f3 ++ f4)) ;;
  Ok (transpose n rows).

Definition edge_eqb (a b : Node * Node) : bool :=
  node_eqb (fst a) (fst b) && node_eqb (snd a) (snd b).

(** [self.env.nodes[i]] *)
Definition node_at (e : Env) (i : nat) : Res Node :=
  match nth_error (nodes e) i with
  | Some nd => Ok nd
  | None => Raise IndexError
  end.

(** The row [q] of one edge (lines 214-234): demand, price and energy
    distance over the horizon for an edge of the simulator, zeros
    otherwise.  Each series already has [T] entries, so the padding loop
    adds nothing. *)
Definition edge_row (p : t) (c : nat * nat) : Res (list Q) :=
  let e := env p in
  o <- node_at e (fst c) ;;
  d <- node_at e (snd c) ;;
  if existsb (edge_eqb (o, d)) (edges e)
  then Ok (map (demand e (NodeKey o d)) (horizon p)
           ++ map (price e (NodeKey o d)) (horizon p)
           ++ repeat (energy_distance (scenario e) (NodeKey o d)) (T p))
  else Ok (repeat 0%Q (T p) ++ repeat 0%Q (T p) ++ repeat 0%Q (T p)).

(** The edge-feature matrix (lines 211-239): the rows are flattened, viewed
    as [3T x E] and transposed. *)
Definition edge_features (p : t) (ei : EdgeIndex) : Res Tensor2 :=
  rows <- mapM (edge_row p) ei ;;
  m <- view (T p * 3) (length ei) (concat rows) ;;
  Ok (transpose (length ei) m).

Definition parse_obs (p : t) (version charge_delta max_charge : Z)
  (MPNN : bool) : Res Data.t :=
  feats <- node_features p ;;
  ei <- build_edge_index (env p) version charge_delta max_charge ;;
  if negb MPNN
  then Ok {| Data.x := feats; Data.edge_index := ei; Data.edge_attr := None |}
  else
    e <- edge_features p ei ;;
    Ok {| Data.x := feats; Data.edge_index := ei;
          Data.edge_attr := Some e |}.

(** The fields of the simulator that only [parse_obs_spatial] reads. *)
Record Spatial : Type := {
  nodes_spatial : list Z;
  number_nodes_spatial : nat;
  acc_spatial : Z -> nat -> Q;
  dacc_spatial : Z -> nat -> Q;
  gcn_edge_idx_spatial : EdgeIndex
}.

(** The revenue feature of region [o] at time [tm] (line 253). *)
Definition revenue_spatial (p : t) (o : Z) (tm : nat) : Q :=
  let e := env p in
  Qsum (map (fun j =>
          price e (RegionKey o j) tm * scale_factor p
          * price_scale_factor p * demand e (RegionKey o j) tm)%Q
        (region e)).

(** [parse_obs_spatial]: three blocks of 1, T and T feature rows are
    concatenated and viewed as [input_size] rows. *)
Definition parse_obs_spatial (p : t) (sp : Spatial) : Res Data.t :=
  let e := env p in
  let n := number_nodes_spatial sp in
  f1 <- view 1 n (map (fun nd => acc_spatial sp nd (time e + 1)
                                 * scale_factor p)%Q (nodes_spatial sp)) ;;
  f2 <- view (T p) n
          (concat (map (fun tm =>
             map (fun nd => (acc_spatial sp nd (time e + 1)
                             + dacc_spatial sp nd tm) * scale_factor p)%Q
                 (nodes_spatial sp)) (horizon p))) ;;
  f3 <- view (T p) n
          (concat (map (fun tm =>
             map (fun o => revenue_spatial p o tm) (region e)) (horizon p))) ;;
  rows <- view (input_size p) n (concat (f1 ++ f2 ++ f3)) ;;
  Ok {| Data.x := transpose n rows;
        Data.edge_index := gcn_edge_idx_spatial sp;
        Data.edge_attr := None |}.

End GNNParser.

(** ** Feed-forward layers *)

(** [nn.Linear(in_features, out_features)]; the weight is read as
    [weight k j] for output [k] and input [j]. *)
Record Linear : Type := {
  in_features : nat;
  out_features : nat;
  weight : nat -> nat -> Q;
  bias : nat -> Q
}.

Definition linear_row (l : Linear) (row : list Q) : Res (list Q) :=
  if Nat.eqb (length row) (in_features l)
  then Ok (map (fun k =>
                  Qsum (map (fun j => nth j row 0 * weight l k j)
                            (seq 0 (in_features l))) + bias l k)%Q
               (seq 0 (out_features l)))
  else Raise RuntimeError.

(** A layer applied to a matrix acts on every row.  A list of rows does
    not record the width of a matrix that has no row, so such a matrix
    passes here; where the source can reach a layer with no row
    ([EdgeConv.forward] below) the width is checked beside it. *)
Definition linear (l : Linear) (m : Tensor2) : Res Tensor2 :=
  mapM (linear_row l) m.

(** The learnable numbers of one [nn.Linear]. *)
Record Weights : Type := {
  w_weight : nat -> nat -> Q;
  w_bias : nat -> Q
}.

Definition nn_Linear (i o : nat) (w : Weights) : Linear :=
  {| in_features := i; out_features := o; weight := w_weight w;
     bias := w_bias w |}.

(** ** EdgeConv *)

(** [F.relu] / [ReLU()] *)
Definition relu (v : Q) : Q := if Qle_bool 0 v then v else 0%Q.

Module EdgeConv.

(** [EdgeConv(in_channels, out_channels)]: the two layers of [self.mlp]. *)
Record t : Type := {
  in_channels : nat;
  out_channels : nat;
  mlp0 : Weights;
  mlp2 : Weights
}.

Local Open Scope res_scope.

(** [self.mlp]: [Linear(in, out)], [ReLU()], [Linear(out, out)]. *)
Definition mlp (ec : t) (m : Tensor2) : Res Tensor2 :=
  h <- linear (nn_Linear (in_channels ec) (out_channels ec) (mlp0 ec)) m ;;
  linear (nn_Linear (out_channels ec) (out_channels ec) (mlp2 ec))
         (map (map relu) h).

(** [message]: the features of both end points and of the edge are
    concatenated row by row and sent through the perceptron (the three
    [print] calls write to the console only). *)
Definition message (ec : t) (x_i x_j edge_attr : Tensor2) : Res Tensor2 :=
  xs <- cat_dim1 x_i x_j ;;
  tmp <- cat_dim1 xs edge_attr ;;
  mlp ec tmp.

(** [forward], that is [self.propagate(edge_index, x=x, edge_attr=edge_attr)]
    of [MessagePassing] with [aggr='max']: the rows of [x] are gathered at
    the target ([x_i]) and at the source ([x_j]) of every edge, [message] is
    called on them, and [aggregate], the library's maximum, reduces the
    messages per target node.  Without edge features [message] is handed
    [None], on which [torch.cat] raises.

    [message] works row by row, so it never meets the width of a tensor
    that has no row; the library checks it all the same.  [x_width] and
    [attr_width] are [x.shape[1]] and [edge_attr.shape[1]], and the test
    after [message] is the width check of the perceptron's first layer on
    the shape [E x (2 * x_width + attr_width)] of [tmp]. *)
Definition forward (aggregate : Tensor2 -> list nat -> nat -> Tensor2)
  (ec : t) (x_width attr_width : nat) (x : Tensor2) (edge_index : EdgeIndex)
  (edge_attr : option Tensor2) : Res Tensor2 :=
  x_i <- index_select x (map snd edge_index) ;;
  x_j <- index_select x (map fst edge_index) ;;
  match edge_attr with
  | None => Raise TypeError
  | Some ea =>
      out <- message ec x_i x_j ea ;;
      if Nat.eqb (x_width + x_width + attr_width) (in_channels ec)
      then Ok (aggregate out (map snd edge_index) (length x))
      else Raise RuntimeError
  end.

End EdgeConv.

(** The weights of one [GCNConv] layer, as the library stores them. *)
Definition ConvParams := list Q.

(** The learnable numbers of a network: its three graph convolutions, the
    two layers of the perceptron of [econv1], its four linear layers. *)
Record Params : Type := {
  conv1 : ConvParams;
  econv1_mlp0 : Weights;
  econv1_mlp2 : Weights;
  conv2 : ConvParams;
  conv3 : ConvParams;
  lin1 : Weights;
  lin2 : Weights;
  lin3 : Weights;
  lin4 : Weights
}.

(** [GNNActor(in_channels, hidden_channels, T)], resp. [GNNCritic(...)]:
    the arguments of [__init__], which fix the shapes of the layers, and
    the parameters. *)
Record Network : Type := {
  in_channels : nat;
  hidden_channels : nat;
  net_T : nat;
  params : Params
}.

(** [self.econv1 = EdgeConv(T * 3, hidden_channels)] (lines 304 and 359) *)
Definition econv1 (net : Network) : EdgeConv.t :=
  {| EdgeConv.in_channels := net_T net * 3;
     EdgeConv.out_channels := hidden_channels net;
     EdgeConv.mlp0 := econv1_mlp0 (params net);
     EdgeConv.mlp2 := econv1_mlp2 (params net) |}.

(** The network after an optimiser step: new parameters, same shapes. *)
Definition with_params (p : Params) (net : Network) : Network :=
  {| in_channels := in_channels net;
     hidden_channels := hidden_channels net;
     net_T := net_T net;
     params := p |}.

(** A value that is either a plain Python number or a zero-dimensional
    tensor: [log_prob_for_zeros] starts as the integer [0] and becomes a
    tensor with the first [+= torch.log(...)]. *)
Inductive Scalar : Type :=
| PyInt (z : Z)
| Tensor0 (q : Q).

Definition scalar_value (s : Scalar) : Q :=
  match s with
  | PyInt z => inject_Z z
  | Tensor0 q => q
  end.

Definition scalar_add (a c : Scalar) : Scalar :=
  match a, c with
  | PyInt y, PyInt z => PyInt (y + z)
  | _, _ => Tensor0 (scalar_value a + scalar_value c)
  end.

(** [.item()] exists on tensors only. *)
Definition scalar_item (s : Scalar) : Res Q :=
  match s with
  | PyInt _ => Raise AttributeError
  | Tensor0 q => Ok q
  end.

(** [np.mean]; the mean of no number is [nan] in the source and [0] here. *)
Definition np_mean (l : list Q) : Q :=
  (Qsum l / inject_Z (Z.of_nat (length l)))%Q.

(** [torch.clamp(v, lo, hi)] *)
Definition clamp (v lo hi : Q) : Q :=
  if Qle_bool v lo then lo else if Qle_bool hi v then hi else v.

(** One term of [F.smooth_l1_loss] (beta = 1). *)
Definition huber (d : Q) : Q :=
  if Qle_bool 1 (Qabs d) then (Qabs d - (1 # 2))%Q
  else ((1 # 2) * d * d)%Q.

(** [F.smooth_l1_loss(value, torch.tensor([R]))]: the target is broadcast
    over the entries of [value] and the terms are averaged. *)
Definition smooth_l1_loss (value : Tensor2) (R : Q) : Q :=
  np_mean (map (fun v => huber (v - R)) (concat value)).

(** [torch.stack(l).sum()]: stacking no tensor raises. *)
Definition stack_sum (l : list Q) : Res Q :=
  match l with
  | [] => Raise RuntimeError
  | _ :: _ => Ok (Qsum l)
  end.

(** [args.gamma] *)
Definition gamma : Q := 97 # 100.

(** The first loop of [training_step]:
    [for r in self.rewards[::-1]: R = r + args.gamma * R; returns.insert(0, R)]
    starting from [R = 0] and [returns = []]. *)
Definition discounted_returns (rewards : list Q) : list Q :=
  snd (fold_left (fun (st : Q * list Q) (r : Q) =>
                    let R := (r + gamma * fst st)%Q in (R, R :: snd st))
                 (rev rewards) (0%Q, [])).

(** The discounted sum of a reward sequence: reward number k weighs
    gamma^k (a reference quantity for [discounted_returns]). *)
Definition discounted_sum (rs : list Q) : Q :=
  Qsum (map (fun kr => gamma ^ Z.of_nat (fst kr) * snd kr)%Q
            (combine (seq 0 (length rs)) rs)).

(** ** The agent: state, library parameters and the monad of its methods *)

Module A2C.

(** [SavedAction = namedtuple('SavedAction', ['log_prob', 'value'])] *)
Record SavedAction : Type := {
  log_prob : Scalar;
  value : Tensor2
}.

(** An Adam optimiser: its learning rate and its running moments. *)
Record Adam : Type := {
  lr : Q;
  moments : list Q
}.

Record Optimizers : Type := {
  a_optimizer : Adam;
  c_optimizer : Adam
}.

(** The fields [A2C.__init__] sets. *)
Record t : Type := {
  env : Env;
  eps : Q;
  T : nat;
  lr_a : Q;
  lr_c : Q;
  adapted_lr_a : Q;
  adapted_lr_c : Q;
  grad_norm_clip_a : Q;
  grad_norm_clip_c : Q;
  scale_factor : Q;
  scale_price : Q;
  input_size : nat;
  actor : Network;
  critic : Network;
  obs_parser : GNNParser.t;
  optimizers : Optimizers;
  saved_actions : list SavedAction;
  rewards : list Q;
  means_concentration : list Q;
  std_concentration : list Q
}.

Definition with_env (v : Env) (p : GNNParser.t) (s : t) : t :=
  {| env := v; eps := eps s; T := T s; lr_a := lr_a s; lr_c := lr_c s;
     adapted_lr_a := adapted_lr_a s; adapted_lr_c := adapted_lr_c s;
     grad_norm_clip_a := grad_norm_clip_a s;
     grad_norm_clip_c := grad_norm_clip_c s;
     scale_factor := scale_factor s; scale_price := scale_price s;
     input_size := input_size s; actor := actor s; critic := critic s;
     obs_parser := p; optimizers := optimizers s;
     saved_actions := saved_actions s; rewards := rewards s;
     means_concentration := means_concentration s;
     std_concentration := std_concentration s |}.

Definition with_learning_rates (a c : Q) (o : Optimizers) (s : t) : t :=
  {| env := env s; eps := eps s; T := T s; lr_a := lr_a s; lr_c := lr_c s;
     adapted_lr_a := a; adapted_lr_c := c;
     grad_norm_clip_a := grad_norm_clip_a s;
     grad_norm_clip_c := grad_norm_clip_c s;
     scale_factor := scale_factor s; scale_price := scale_price s;
     input_size := input_size s; actor := actor s; critic := critic s;
     obs_parser := obs_parser s; optimizers := o;
     saved_actions := saved_actions s; rewards := rewards s;
     means_concentration := means_concentration s;
     std_concentration := std_concentration s |}.

Definition with_networks (a c : Network) (o : Optimizers) (s : t) : t :=
  {| env := env s; eps := eps s; T := T s; lr_a := lr_a s; lr_c := lr_c s;
     adapted_lr_a := adapted_lr_a s; adapted_lr_c := adapted_lr_c s;
     grad_norm_clip_a := grad_norm_clip_a s;
     grad_norm_clip_c := grad_norm_clip_c s;
     scale_factor := scale_factor s; scale_price := scale_price s;
     input_size := input_size s; actor := a; critic := c;
     obs_parser := obs_parser s; optimizers := o;
     saved_actions := saved_actions s; rewards := rewards s;
     means_concentration := means_concentration s;
     std_concentration := std_concentration s |}.

Definition with_buffers (sa : list SavedAction) (rw mc sc : list Q) (s : t)
  : t :=
  {| env := env s; eps := eps s; T := T s; lr_a := lr_a s; lr_c := lr_c s;
     adapted_lr_a := adapted_lr_a s; adapted_lr_c := adapted_lr_c s;
     grad_norm_clip_a := grad_norm_clip_a s;
     grad_norm_clip_c := grad_norm_clip_c s;
     scale_factor := scale_factor s; scale_price := scale_price s;
     input_size := input_size s; actor := actor s; critic := critic s;
     obs_parser := obs_parser s; optimizers := optimizers s;
     saved_actions := sa; rewards := rw;
     means_concentration := mc; std_concentration := sc |}.

(** What the development takes from PyTorch and PyTorch Geometric. *)
Record Torch : Type := {
  (** [F.softplus], [torch.sigmoid], [torch.log], the square root *)
  softplus : Q -> Q;
  sigmoid : Q -> Q;
  log : Q -> Q;
  sqrt : Q -> Q;
  (** [GCNConv(in_channels, out_channels)] with its weights, applied to
      [x] and [edge_index] (it may raise) *)
  GCNConv : nat -> nat -> ConvParams -> Tensor2 -> EdgeIndex -> Res Tensor2;
  (** the [max] aggregation of [MessagePassing]: the messages, the target
      node of each, the number of nodes *)
  aggregate_max : Tensor2 -> list nat -> nat -> Tensor2;
  (** the value of [Dirichlet(concentration).log_prob(point)] for
      arguments that pass the validation *)
  Dirichlet_log_density : Tensor1 -> Tensor1 -> Q;
  (** [zero_grad(); loss.backward(); clip_grad_norm_(...); step()] on the
      actor, resp. the critic, for a loss that is a number or not
      ([None]): the parameters and the optimiser change *)
  actor_step : t -> option Q -> Params * Adam;
  critic_step : t -> option Q -> Params * Adam
}.

(** The random draws of one [select_action] call: [bernoulli node] tells
    whether [torch.bernoulli(non_zero[node]) > 0]; [rsample] is the point
    [m.rsample()] returns for the concentration it is given. *)
Record Draws : Type := {
  bernoulli : nat -> bool;
  rsample : Tensor1 -> Tensor1
}.

(** A method: it reads and writes the agent, and returns or raises. *)
Definition M (A : Type) : Type := t -> Res A * t.

Definition ret {A} (a : A) : M A := fun s => (Ok a, s).

Definition bind {A B} (m : M A) (k : A -> M B) : M B :=
  fun s => match m s with
           | (Ok a, s') => k a s'
           | (Raise e, s') => (Raise e, s')
           end.

Definition get : M t := fun s => (Ok s, s).

Definition modify (f : t -> t) : M unit := fun s => (Ok tt, f s).

Definition lift {A} (r : Res A) : M A := fun s => (r, s).

Declare Scope method_scope.
Delimit Scope method_scope with method.
Notation "v <- m ;; k" := (bind m (fun v => k))
  (at level 61, m at next level, right associativity) : method_scope.
Notation "m ;;; k" := (bind m (fun _ => k))
  (at level 61, right associativity) : method_scope.

(** *** The networks *)

Section Methods.

Variable lib : Torch.

Local Open Scope res_scope.

(** Lines 321-327 of [GNNActor.forward], the same as lines 372-378 of
    [GNNCritic.forward]: from [data] to [out_3].  [x_width] and
    [attr_width] are the widths of [data.x] and of [data.edge_attr]. *)
Definition message_passing (net : Network) (x_width attr_width : nat)
  (data : Data.t) : Res Tensor2 :=
  let p := params net in
  out_1 <- GCNConv lib (in_channels net) (hidden_channels net) (conv1 p)
             (Data.x data) (Data.edge_index data) ;;
  out_e1 <- EdgeConv.forward (aggregate_max lib) (econv1 net)
              x_width attr_width (Data.x data) (Data.edge_index data)
              (Data.edge_attr data) ;;
  out_1c <- cat_dim1 (map (map relu) out_1) (map (map relu) out_e1) ;;
  out_2 <- GCNConv lib (hidden_channels net * 2) (hidden_channels net)
             (conv2 p) out_1c (Data.edge_index data) ;;
  out_3 <- GCNConv lib (hidden_channels net) (in_channels net) (conv3 p)
             (map (map relu) out_2) (Data.edge_index data) ;;
  Ok (map (map relu) out_3).

(** Lines 329-335 of [GNNActor.forward]: the concatenation with the raw
    features, four layers down to two numbers per node; the two output
    columns are returned. *)
Definition GNNActor_head (net : Network) (x out_3 : Tensor2)
  : Res (Tensor1 * Tensor1) :=
  let p := params net in
  out_3c <- cat_dim1 x out_3 ;;
  h <- linear (nn_Linear (in_channels net * 2) (in_channels net) (lin1 p))
         out_3c ;;
  h <- linear (nn_Linear (in_channels net) 128 (lin2 p))
         (map (map (softplus lib)) h) ;;
  h <- linear (nn_Linear 128 32 (lin3 p)) (map (map (softplus lib)) h) ;;
  h <- linear (nn_Linear 32 2 (lin4 p)) (map (map (softplus lib)) h) ;;
  Ok (map (fun row => nth 0 row 0%Q) h, map (fun row => nth 1 row 0%Q) h).

(** Lines 380-386 of [GNNCritic.forward]: the same layers with a last one
    of one output, whose result is returned as it is. *)
Definition GNNCritic_head (net : Network) (x out_3 : Tensor2) : Res Tensor2 :=
  let p := params net in
  out_3c <- cat_dim1 x out_3 ;;
  h <- linear (nn_Linear (in_channels net * 2) (in_channels net) (lin1 p))
         out_3c ;;
  h <- linear (nn_Linear (in_channels net) 128 (lin2 p))
         (map (map (softplus lib)) h) ;;
  h <- linear (nn_Linear 128 32 (lin3 p)) (map (map (softplus lib)) h) ;;
  h <- linear (nn_Linear 32 1 (lin4 p)) (map (map (softplus lib)) h) ;;
  Ok h.

Definition GNNActor_forward (net : Network) (x_width attr_width : nat)
  (data : Data.t) : Res (Tensor1 * Tensor1) :=
  out_3 <- message_passing net x_width attr_width data ;;
  GNNActor_head net (Data.x data) out_3.

Definition GNNCritic_forward (net : Network) (x_width attr_width : nat)
  (data : Data.t) : Res Tensor2 :=
  out_3 <- message_passing net x_width attr_width data ;;
  GNNCritic_head net (Data.x data) out_3.

(** *** [A2C.forward] *)

Definition parse_obs (s : t) (version charge_delta max_charge : Z)
  (MPNN : bool) : Res Data.t :=
  GNNParser.parse_obs (obs_parser s) version charge_delta max_charge MPNN.

(** The default of [forward]'s [jitter] argument, [1e-20]. *)
Definition jitter : Q := 1 # 100000000000000000000.

(** [forward]: the parser gives [data.x] the width [input_size] and
    [data.edge_attr] the width [T * 3]. *)
Definition forward (jit : Q) (s : t) : Res (Tensor1 * Tensor1 * Tensor2) :=
  data <- parse_obs s 0
            (charge_levels_per_charge_step (scenario (env s)))
            (number_charge_levels (scenario (env s))) true ;;
  let x_width := GNNParser.input_size (obs_parser s) in
  let attr_width := (GNNParser.T (obs_parser s) * 3)%nat in
  out <- GNNActor_forward (actor s) x_width attr_width data ;;
  let concentration := map (fun v => softplus lib v + jit)%Q (fst out) in
  let non_zero := map (sigmoid lib) (snd out) in
  v <- GNNCritic_forward (critic s) x_width attr_width data ;;
  Ok (concentration, non_zero, v).

(** *** [torch.distributions.Dirichlet], with its argument validation *)

(** The constraint on [concentration]: every entry is greater than 0. *)
Definition positive (concentration : Tensor1) : bool :=
  forallb (fun v => negb (Qle_bool v 0)) concentration.

(** The support of the distribution, [constraints.simplex]: no entry is
    negative and the entries add up to 1 within 1e-6. *)
Definition simplex (point : Tensor1) : bool :=
  forallb (Qle_bool 0) point
  && negb (Qle_bool (1 # 1000000) (Qabs (Qsum point - 1))).

(** [Dirichlet(concentration)] *)
Definition Dirichlet (concentration : Tensor1) : Res unit :=
  if positive concentration then Ok tt else Raise ValueError.

(** [m.log_prob(point)] of [m = Dirichlet(concentration)]: the point must
    have the shape of the concentration and lie in the support. *)
Definition Dirichlet_log_prob (concentration point : Tensor1) : Res Q :=
  if Nat.eqb (length point) (length concentration) && simplex point
  then Ok (Dirichlet_log_density lib concentration point)
  else Raise ValueError.

(** *** [A2C.select_action] *)

(** The three accumulators of the first loop. *)
Record Gates : Type := {
  concentration_without_zeros : Tensor1;
  sampled_zero_bool_arr : list bool;
  log_prob_for_zeros : Scalar
}.

Definition no_gate : Gates :=
  {| concentration_without_zeros := [];
     sampled_zero_bool_arr := [];
     log_prob_for_zeros := PyInt 0 |}.

(** The first loop, from node [node] on; [rest] holds the entries of
    [non_zero] still to visit. *)
Fixpoint gate_loop (d : Draws) (concentration : Tensor1) (node : nat)
  (rest : Tensor1) (g : Gates) : Res Gates :=
  match rest with
  | [] => Ok g
  | p :: rest' =>
      if bernoulli d node then
        match nth_error concentration node with
        | Some c =>
            gate_loop d concentration (S node) rest'
              {| concentration_without_zeros :=
                   concentration_without_zeros g ++ [c];
                 sampled_zero_bool_arr := sampled_zero_bool_arr g ++ [false];
                 log_prob_for_zeros :=
                   scalar_add (log_prob_for_zeros g) (Tensor0 (log lib p)) |}
        | None => Raise IndexError
        end
      else
        gate_loop d concentration (S node) rest'
          {| concentration_without_zeros := concentration_without_zeros g;
             sampled_zero_bool_arr := sampled_zero_bool_arr g ++ [true];
             log_prob_for_zeros :=
               scalar_add (log_prob_for_zeros g)
                          (Tensor0 (log lib (1 - p))) |}
  end.

(** [np.std] *)
Definition np_std (l : list Q) : Q :=
  sqrt lib (np_mean (map (fun v => (v - np_mean l) * (v - np_mean l))%Q l)).

(** The evaluation-mode action:
    [concentration_without_zeros / (concentration_without_zeros.sum() + 1e-16)] *)
Definition normalized (c : Tensor1) : Tensor1 :=
  map (fun v => v / (Qsum c + (1 # 10000000000000000)))%Q c.

(** The second loop, from position [dirichlet_idx] of
    [dirichlet_action_np]; the list is unbound ([None]) when no node
    participated. *)
Fixpoint assemble (arr : list bool) (dirichlet_action_np : option (list Q))
  (dirichlet_idx : nat) : Res (list Q) :=
  match arr with
  | [] => Ok []
  | true :: arr' =>
      a <- assemble arr' dirichlet_action_np dirichlet_idx ;;
      Ok (0%Q :: a)
  | false :: arr' =>
      match dirichlet_action_np with
      | None => Raise UnboundLocalError
      | Some l =>
          match nth_error l dirichlet_idx with
          | Some v =>
              a <- assemble arr' dirichlet_action_np (S dirichlet_idx) ;;
              Ok (v :: a)
          | None => Raise IndexError
          end
      end
  end.

Definition append_concentration_stats (m sd : Q) (s : t) : t :=
  with_buffers (saved_actions s) (rewards s)
    (means_concentration s ++ [m]) (std_concentration s ++ [sd]) s.

Definition append_saved_action (sa : SavedAction) (s : t) : t :=
  with_buffers (saved_actions s ++ [sa]) (rewards s)
    (means_concentration s) (std_concentration s) s.

Local Open Scope method_scope.

(** The branch on [concentration_without_zeros.shape[0] != 0]: it yields
    [dirichlet_action_np] (if bound) and [log_prob_dirichlet]. *)
Definition dirichlet_part (d : Draws) (eval_mode : bool) (c : Tensor1)
  : M (option (list Q) * Scalar) :=
  match c with
  | [] => ret (None, PyInt 0)
  | _ :: _ =>
      modify (append_concentration_stats (np_mean c) (np_std c)) ;;;
      lift (Dirichlet c) ;;;
      (let dirichlet_action :=
         if eval_mode then normalized c else rsample d c in
       lp <- lift (Dirichlet_log_prob c dirichlet_action) ;;
       ret (Some dirichlet_action, Tensor0 lp))
  end.

(** The body of [select_action] after the call of [self.forward()], whose
    three results it is given: the gates, the Dirichlet part, the record of
    the saved action and the assembly of the action. *)
Definition sample_from (d : Draws) (eval_mode : bool)
  (concentration non_zero : Tensor1) (v : Tensor2) : M (list Q) :=
  g <- lift (gate_loop d concentration 0 non_zero no_gate) ;;
  dl <- dirichlet_part d eval_mode (concentration_without_zeros g) ;;
  modify (append_saved_action
            {| log_prob := scalar_add (snd dl) (log_prob_for_zeros g);
               value := v |}) ;;;
  lift (assemble (sampled_zero_bool_arr g) (fst dl) 0).

(** [select_action]; [select_action_MPNN] and [select_action_GAT] have the
    same body. *)
Definition select_action (d : Draws) (eval_mode : bool) : M (list Q) :=
  s <- get ;;
  out <- lift (forward jitter s) ;;
  sample_from d eval_mode (fst (fst out)) (snd (fst out)) (snd out).

(** *** Reference quantities for the sampler's properties

    These follow the words of the properties, not the loops of the source;
    the theorems relate them to what the loops compute. *)

(** The nodes among the first [n] whose draw participates, in node order. *)
Definition participants (d : Draws) (n : nat) : list nat :=
  filter (bernoulli d) (seq 0 n).

(** Their concentrations. *)
Definition participating (d : Draws) (concentration : Tensor1) (n : nat)
  : Tensor1 :=
  map (fun i => nth i concentration 0%Q) (participants d n).

(** The log-probability of the gate of node [i], whose participation
    probability is [p]. *)
Definition gate_term (d : Draws) (i : nat) (p : Q) : Q :=
  if bernoulli d i then log lib p else log lib (1 - p).

(** The sum of the gates' log-probabilities over all nodes. *)
Definition gate_log_prob (d : Draws) (non_zero : Tensor1) : Q :=
  Qsum (map (fun ip => gate_term d (fst ip) (snd ip))
            (combine (seq 0 (length non_zero)) non_zero)).

(** The mean of the Dirichlet distribution of concentration [c]. *)
Definition dirichlet_mean (c : Tensor1) : Tensor1 :=
  map (fun v => v / Qsum c)%Q c.

(** [select_equal_action]: [np.ones(n) / n] *)
Definition select_equal_action : M (list Q) :=
  s <- get ;;
  ret (repeat (1 / inject_Z (Z.of_nat (length (nodes (env s)))))%Q
              (length (nodes (env s)))).

(** *** [A2C.training_step] *)

(** What [training_step] returns.  A loss is [None] when the source
    computes it from [nan] or [inf], which the embedding does not
    represent (see [normalizable]). *)
Record Diagnostics : Type := {
  a_loss : option Q;
  v_loss : option Q;
  mean_value : Q;
  mean_concentration : Q;
  mean_std : Q;
  mean_log_prob : Q;
  std_log_prob : Q
}.

(** [returns.std()]: the unbiased estimator, for two entries or more (for
    fewer it is [nan] in the source; [training_step] does not use the value
    then, see [normalizable]). *)
Definition tensor_std (l : list Q) : Q :=
  sqrt lib (Qsum (map (fun v => (v - np_mean l) * (v - np_mean l))%Q l)
            / inject_Z (Z.of_nat (length l) - 1))%Q.

(** [(returns - returns.mean()) / (returns.std() + self.eps)] *)
Definition normalize (epsilon : Q) (returns : list Q) : list Q :=
  map (fun R => (R - np_mean returns) / (tensor_std returns + epsilon))%Q
      returns.

(** Whether the normalisation stays within the numbers: with fewer than
    two returns [returns.std()] is [nan], and a divisor [std + eps] of zero
    gives [nan] or [inf]. *)
Definition normalizable (epsilon : Q) (returns : list Q) : bool :=
  Nat.leb 2 (length returns)
  && negb (Qeq_bool (tensor_std returns + epsilon) 0).

Local Open Scope res_scope.

(** The loop that fills [log_probs] and [values] with [.item()]. *)
Definition items (sas : list SavedAction) : Res (list (Q * Q)) :=
  mapM (fun sa => lp <- scalar_item (log_prob sa) ;;
                  v <- item (value sa) ;;
                  Ok (lp, v)) sas.

(** The loop over [zip(saved_actions, returns)]: the policy loss and the
    value loss of each step. *)
Definition losses (sas : list SavedAction) (returns : list Q)
  : Res (list (Q * Q)) :=
  mapM (fun p : SavedAction * Q =>
          v <- item (value (fst p)) ;;
          (let advantage := (snd p - v)%Q in
           Ok ((- scalar_value (log_prob (fst p)) * advantage)%Q,
               smooth_l1_loss (value (fst p)) (snd p))))
       (combine sas returns).

Definition apply_actor_step (loss : option Q) (s : t) : t :=
  let r := actor_step lib s loss in
  with_networks (with_params (fst r) (actor s)) (critic s)
    {| a_optimizer := snd r; c_optimizer := c_optimizer (optimizers s) |} s.

Definition apply_critic_step (loss : option Q) (s : t) : t :=
  let r := critic_step lib s loss in
  with_networks (actor s) (with_params (fst r) (critic s))
    {| a_optimizer := a_optimizer (optimizers s); c_optimizer := snd r |} s.

(** [del self.rewards[:]; del self.saved_actions[:]] *)
Definition reset_buffers (s : t) : t :=
  with_buffers [] [] (means_concentration s) (std_concentration s) s.

Local Open Scope method_scope.

(** [training_step].  When the returns are not [normalizable] their
    normalised entries are [nan] or [inf] in the source: the calls of
    [.item()] and of [torch.stack] raise or not as for numbers, and the two
    losses are reported as [None]. *)
Definition training_step : M Diagnostics :=
  s <- get ;;
  (let returns := normalize (eps s) (discounted_returns (rewards s)) in
   let known := normalizable (eps s) (discounted_returns (rewards s)) in
   it <- lift (items (saved_actions s)) ;;
   ls <- lift (losses (saved_actions s) returns) ;;
   al <- lift (stack_sum (map fst ls)) ;;
   (let a_loss :=
      if known then Some (clamp al (- (1000)) 1000) else None in
    modify (apply_actor_step a_loss) ;;;
    vl <- lift (stack_sum (map snd ls)) ;;
    (let v_loss := if known then Some vl else None in
     modify (apply_critic_step v_loss) ;;;
     modify reset_buffers ;;;
     ret {| a_loss := a_loss;
            v_loss := v_loss;
            mean_value := np_mean (map snd it);
            mean_concentration := np_mean (means_concentration s);
            mean_std := np_mean (std_concentration s);
            mean_log_prob := np_mean (map fst it);
            std_log_prob := np_std (map fst it) |}))).

End Methods.

(** *** The methods that use no library parameter *)

Local Open Scope res_scope.

(** [torch.optim.Adam(params, lr=lr)]: the constructor rejects a negative
    learning rate. *)
Definition new_Adam (rate : Q) : Res Adam :=
  if Qle_bool 0 rate then Ok {| lr := rate; moments := [] |}
  else Raise ValueError.

(** [configure_optimizers], for the adapted rates [a] and [c]. *)
Definition configure_optimizers (a c : Q) : Res Optimizers :=
  oa <- new_Adam a ;;
  oc <- new_Adam c ;;
  Ok {| a_optimizer := oa; c_optimizer := oc |}.

(** [A2C.__init__] (lines 398-428); [pa] and [pc] are the parameters the
    library draws for the actor and the critic. *)
Definition init (e : Env) (epsilon : Q) (horizon : nat)
  (rate_a rate_c clip_a clip_c factor price_factor : Q) (pa pc : Params)
  : Res t :=
  let size := (2 + 2 * horizon)%nat in
  o <- configure_optimizers rate_a rate_c ;;
  Ok {| env := e; eps := epsilon; T := horizon;
        lr_a := rate_a; lr_c := rate_c;
        adapted_lr_a := rate_a; adapted_lr_c := rate_c;
        grad_norm_clip_a := clip_a; grad_norm_clip_c := clip_c;
        scale_factor := factor; scale_price := price_factor;
        input_size := size;
        actor := {| in_channels := size; hidden_channels := size * 2;
                    net_T := horizon; params := pa |};
        critic := {| in_channels := size; hidden_channels := size * 2;
                     net_T := horizon; params := pc |};
        obs_parser := {| GNNParser.env := e; GNNParser.T := horizon;
                         GNNParser.scale_factor := factor;
                         GNNParser.price_scale_factor := price_factor |};
        optimizers := o;
        saved_actions := []; rewards := [];
        means_concentration := []; std_concentration := [] |}.

(** The horizon that [__init__] hands to the actor, to the critic and to
    the parser is the agent's [T]; [set_env] builds the new parser with it,
    and no method changes the shape of a network. *)
Definition wired (s : t) : Prop :=
  net_T (actor s) = T s /\ net_T (critic s) = T s
  /\ GNNParser.T (obs_parser s) = T s.

Local Open Scope method_scope.

(** [set_env]: a new environment, a new parser, and empty concentration
    statistics. *)
Definition set_env (e : Env) : M unit :=
  modify (fun s =>
    with_buffers (saved_actions s) (rewards s) [] []
      (with_env e
         {| GNNParser.env := e; GNNParser.T := T s;
            GNNParser.scale_factor := scale_factor s;
            GNNParser.price_scale_factor := scale_price s |} s)).

(** [decay_learning_rate]: both rates are multiplied first, then the
    optimisers are built anew. *)
Definition decay_learning_rate (scaler_a scaler_c : Q) : M unit :=
  modify (fun s =>
    with_learning_rates (adapted_lr_a s * scaler_a)%Q
      (adapted_lr_c s * scaler_c)%Q (optimizers s) s) ;;;
  s <- get ;;
  o <- lift (configure_optimizers (adapted_lr_a s) (adapted_lr_c s)) ;;
  modify (with_learning_rates (adapted_lr_a s) (adapted_lr_c s) o).

(** Modelled from the spec: the training script that calls the agent is not
    among the sources; per the spec's Trainer it appends the step's reward
    to the reward list ([model.rewards.append(r)]) once per step. *)
Definition append_reward (r : Q) : M unit :=
  modify (fun s =>
    with_buffers (saved_actions s) (rewards s ++ [r])
      (means_concentration s) (std_concentration s) s).

(** The operations that act on an agent between its construction and any
    later moment. *)
Inductive Op : Type :=
| OpSelectAction (d : Draws) (eval_mode : bool)
| OpSelectEqualAction
| OpAppendReward (r : Q)
| OpTrainingStep
| OpSetEnv (e : Env)
| OpDecayLearningRate (scaler_a scaler_c : Q).

Definition not_set_env (o : Op) : Prop :=
  match o with
  | OpSetEnv _ => False
  | _ => True
  end.

(** The agent after the operation, whether it returned or raised. *)
Definition run (lib : Torch) (o : Op) (s : t) : t :=
  match o with
  | OpSelectAction d eval_mode => snd (select_action lib d eval_mode s)
  | OpSelectEqualAction => snd (select_equal_action s)
  | OpAppendReward r => snd (append_reward r s)
  | OpTrainingStep => snd (training_step lib s)
  | OpSetEnv e => snd (set_env e s)
  | OpDecayLearningRate a c => snd (decay_learning_rate a c s)
  end.

End A2C.

(** ** The baseline script: from the action to vehicle counts

    [main_baselines.py], the body of the control loop from the call of
    [select_equal_action] to the two assertions (lines 126-138).  The
    solvers and the simulator steps around it are not modelled. *)

Module Baseline.

Local Open Scope res_scope.

(** Python's [int(v)]: truncation towards zero. *)
Definition py_int (v : Q) : Z := Z.quot (Qnum v) (Zpos (Qden v)).

(** The dictionary [desiredAcc]; its keys are nodes, and a key that was
    never written reads 0 here (the script reads written keys only). *)
Definition Dict := Node -> Q.

Definition dict_set (m : Dict) (k : Node) (v : Q) : Dict :=
  fun n => if node_eqb k n then v else m n.

(** [{env.nodes[i]: int(action_rl[i] * dictsum) for i in range(len(env.nodes))}],
    from index [i] on; [ns] holds the nodes still to visit. *)
Fixpoint comprehension (ns : list Node) (i : nat) (action_rl : list Q)
  (dictsum : Q) (m : Dict) : Res Dict :=
  match ns with
  | [] => Ok m
  | n :: ns' =>
      match nth_error action_rl i with
      | Some a =>
          comprehension ns' (S i) action_rl dictsum
            (dict_set m n (inject_Z (py_int (a * dictsum))))
      | None => Raise IndexError
      end
  end.

(** [np.argmax] from position [i] on: the first position of the largest
    entry, [best] at [best_i] being the largest so far. *)
Fixpoint argmax_from (l : list Q) (i best_i : nat) (best : Q) : nat :=
  match l with
  | [] => best_i
  | v :: l' =>
      if Qle_bool v best then argmax_from l' (S i) best_i best
      else argmax_from l' (S i) i v
  end.

(** [np.argmax]; it raises on an empty sequence. *)
Definition argmax (l : list Q) : Res nat :=
  match l with
  | [] => Raise ValueError
  | v :: l' => Ok (argmax_from l' 1 0 v)
  end.

(** [sum(env.acc[n][env.time+1] for n in env.nodes)] *)
Definition total_acc (e : Env) : Q :=
  Qsum (map (fun n => acc e n (time e + 1)) (nodes e)).

(** [sum(desiredAcc[n] for n in env.nodes)] *)
Definition total_desired (e : Env) (m : Dict) : Q := Qsum (map m (nodes e)).

(** Lines 128-135: the counts, the missing cars and their assignment to
    the node of largest weight.  [dictsum] is the value of
    [dictsum(env.acc, env.time+1)], a helper of [src/misc/utils.py], which
    is not among the sources.  The result is [desiredAcc] with
    [total_desiredAcc]. *)
Definition desired_acc (e : Env) (action_rl : list Q) (dictsum : Q)
  : Res (Dict * Q) :=
  desiredAcc <- comprehension (nodes e) 0 action_rl dictsum (fun _ => 0%Q) ;;
  (let total_desiredAcc := total_desired e desiredAcc in
   let missing_cars := (total_acc e - total_desiredAcc)%Q in
   most_likely_node <- argmax action_rl ;;
   if negb (Qeq_bool missing_cars 0) then
     k <- GNNParser.node_at e most_likely_node ;;
     (let desiredAcc' :=
        dict_set desiredAcc k (desiredAcc k + missing_cars)%Q in
      Ok (desiredAcc', total_desired e desiredAcc'))
   else Ok (desiredAcc, total_desiredAcc)).

(** Lines 136-138: [assert total_desiredAcc == total_acc] and
    [assert desiredAcc[n] >= 0] for every node. *)
Definition assertions_hold (e : Env) (r : Dict * Q) : Prop :=
  (snd r == total_acc e)%Q
  /\ Forall (fun n => (0 <= fst r n)%Q) (nodes e).

End Baseline.

(** ** Example inputs *)

Module Examples.

(** Three nodes: regions 0 and 1, charge levels 0 and 1. *)
Definition three_nodes : list Node := [(0, 0); (0, 1); (1, 0)]%Z.

Definition scenario3 : Scenario :=
  {| number_charge_levels := 1;
     charge_levels_per_charge_step := 1;
     energy_distance := fun _ => 1%Q;
     charging_stations := fun _ => true |}.

(** A simulator over [three_nodes] that defines four directed edges. *)
Definition env3 : Env :=
  {| nodes := three_nodes;
     number_nodes := 3;
     edges := [((0, 0), (0, 1)); ((0, 1), (0, 0));
               ((0, 0), (1, 0)); ((1, 0), (0, 0))]%Z;
     gcn_edge_idx := [(0, 1); (1, 0); (0, 2); (2, 0)]%nat;
     region := [0; 1]%Z;
     time := 0;
     acc := fun _ _ => 1%Q;
     dacc := fun _ _ => 0%Q;
     price := fun _ _ => 1%Q;
     demand := fun _ _ => 1%Q;
     scenario := scenario3 |}.

(** A stand-in for the library, used only to run the model on concrete
    inputs: every property below is proved for an arbitrary library.  Its
    graph convolution returns one row of ones per node, of the width the
    layer was built for. *)
Definition lib0 : A2C.Torch :=
  {| A2C.softplus := fun v => if Qle_bool 0 v then v else 0%Q;
     A2C.sigmoid := fun _ => 1 # 2;
     A2C.log := fun v => (v - 1)%Q;
     A2C.sqrt := fun v => v;
     A2C.GCNConv := fun _ o _ x _ => Ok (map (fun _ => repeat 1%Q o) x);
     A2C.aggregate_max := fun out _ n => firstn n (out ++ repeat [] n);
     A2C.Dirichlet_log_density := fun c _ => Qsum c;
     A2C.actor_step :=
       fun s _ => (params (A2C.actor s), A2C.a_optimizer (A2C.optimizers s));
     A2C.critic_step :=
       fun s _ =>
         (params (A2C.critic s), A2C.c_optimizer (A2C.optimizers s)) |}.

Definition flat_weights : Weights :=
  {| w_weight := fun _ _ => 1%Q; w_bias := fun _ => 0%Q |}.

Definition flat_params : Params :=
  {| conv1 := []; econv1_mlp0 := flat_weights; econv1_mlp2 := flat_weights;
     conv2 := []; conv3 := [];
     lin1 := flat_weights; lin2 := flat_weights;
     lin3 := flat_weights; lin4 := flat_weights |}.

(** The network that [A2C(env, T=1)] builds: 4 input channels, 8 hidden
    channels. *)
Definition net4 : Network :=
  {| in_channels := 4; hidden_channels := 8; net_T := 1;
     params := flat_params |}.

(** A simulator with the single node (0, 0). *)
Definition env1 : Env :=
  {| nodes := [(0, 0)%Z];
     number_nodes := 1;
     edges := [];
     gcn_edge_idx := [(0, 0)%nat];
     region := [0%Z];
     time := 0;
     acc := fun _ _ => 1%Q;
     dacc := fun _ _ => 0%Q;
     price := fun _ _ => 1%Q;
     demand := fun _ _ => 1%Q;
     scenario := scenario3 |}.

(** A simulator with the two nodes (0, 0) and (1, 0). *)
Definition env2 : Env :=
  {| nodes := [(0, 0); (1, 0)]%Z;
     number_nodes := 2;
     edges := [((0, 0), (1, 0))%Z];
     gcn_edge_idx := [(0, 1)%nat];
     region := [0; 1]%Z;
     time := 0;
     acc := fun _ _ => 1%Q;
     dacc := fun _ _ => 0%Q;
     price := fun _ _ => 1%Q;
     demand := fun _ _ => 1%Q;
     scenario := scenario3 |}.

(** The agent [A2C(env, T=1)] as constructed: empty buffers. *)
Definition agent (e : Env) : A2C.t :=
  {| A2C.env := e;
     A2C.eps := 1 # 8388608;
     A2C.T := 1;
     A2C.lr_a := 1 # 1000;
     A2C.lr_c := 1 # 1000;
     A2C.adapted_lr_a := 1 # 1000;
     A2C.adapted_lr_c := 1 # 1000;
     A2C.grad_norm_clip_a := 1 # 2;
     A2C.grad_norm_clip_c := 1 # 2;
     A2C.scale_factor := 1;
     A2C.scale_price := 1;
     A2C.input_size := 4;
     A2C.actor := net4;
     A2C.critic := net4;
     A2C.obs_parser :=
       {| GNNParser.env := e; GNNParser.T := 1;
          GNNParser.scale_factor := 1;
          GNNParser.price_scale_factor := 1 |};
     A2C.optimizers :=
       {| A2C.a_optimizer := {| A2C.lr := 1 # 1000; A2C.moments := [] |};
          A2C.c_optimizer := {| A2C.lr := 1 # 1000; A2C.moments := [] |} |};
     A2C.saved_actions := [];
     A2C.rewards := [];
     A2C.means_concentration := [];
     A2C.std_concentration := [] |}.

(** Draws in which every node participates, resp. abstains; the sampled
    point is the uniform one. *)
Definition uniform_point (c : Tensor1) : Tensor1 :=
  map (fun _ => 1 / inject_Z (Z.of_nat (length c)))%Q c.

Definition all_in : A2C.Draws :=
  {| A2C.bernoulli := fun _ => true; A2C.rsample := uniform_point |}.

Definition all_out : A2C.Draws :=
  {| A2C.bernoulli := fun _ => false; A2C.rsample := uniform_point |}.

(** Draws in which every node participates and the sampled point is the
    first vertex of the simplex. *)
Definition vertex_point (c : Tensor1) : Tensor1 :=
  match c with
  | [] => []
  | _ :: c' => 1%Q :: map (fun _ => 0%Q) c'
  end.

Definition all_in' : A2C.Draws :=
  {| A2C.bernoulli := fun _ => true; A2C.rsample := vertex_point |}.

(** Two small concentrations, 1e-18 and 2e-10, as [softplus(x) + 1e-20]
    yields them for x near -41.4 and -22.3. *)
Definition tiny : Q := 1 # 1000000000000000000.

Definition small : Q := 2 # 10000000000.

(** The spatial fields of a simulator with one region. *)
Definition spatial1 : GNNParser.Spatial :=
  {| GNNParser.nodes_spatial := [0%Z];
     GNNParser.number_nodes_spatial := 1;
     GNNParser.acc_spatial := fun _ _ => 1%Q;
     GNNParser.dacc_spatial := fun _ _ => 0%Q;
     GNNParser.gcn_edge_idx_spatial := [(0, 0)%nat] |}.

(** [EdgeConv(3, 1)], as a network with horizon 1 builds it. *)
Definition edge_conv3 : EdgeConv.t :=
  {| EdgeConv.in_channels := 3; EdgeConv.out_channels := 1;
     EdgeConv.mlp0 := flat_weights; EdgeConv.mlp2 := flat_weights |}.

(** The two-node simulator with both directed edges in its edge index,
    of which only the first is among [env.edges]. *)
Definition env2_two_edges : Env :=
  {| nodes := [(0, 0); (1, 0)]%Z;
     number_nodes := 2;
     edges := [((0, 0), (1, 0))%Z];
     gcn_edge_idx := [(0, 1); (1, 0)]%nat;
     region := [0; 1]%Z;
     time := 0;
     acc := fun _ _ => 1%Q;
     dacc := fun _ _ => 0%Q;
     price := fun _ _ => 1%Q;
     demand := fun _ _ => 1%Q;
     scenario := scenario3 |}.

(** One recorded step: the body of [select_action] on two participating
    nodes of concentrations 1 and 3 in evaluation mode, with a value of one
    entry, followed by the caller's reward. *)
Definition recorded_step (st : A2C.t) : A2C.t :=
  snd (A2C.append_reward 1
         (snd (A2C.sample_from lib0 all_in true [1; 3]%Q [1 # 2; 1 # 2]
                 [[0%Q]] st))).

(** Two recorded steps, an update, and two more recorded steps. *)
Definition second_episode : A2C.t :=
  recorded_step
    (recorded_step
       (snd (A2C.training_step lib0
               (recorded_step (recorded_step (agent env1)))))).

(** The step recorded with the value [v], and two rewards. *)
Definition recorded_with (v : Tensor2) : A2C.t :=
  snd (A2C.append_reward 1
         (snd (A2C.append_reward 1
                 (snd (A2C.sample_from lib0 all_in true [1; 3]%Q
                         [1 # 2; 1 # 2] v (agent env2)))))).

(** Draws in which every node but the second participates; the sampled
    point is the first vertex of the simplex. *)
Definition second_out : A2C.Draws :=
  {| A2C.bernoulli := fun i => negb (Nat.eqb i 1);
     A2C.rsample := vertex_point |}.



End Examples.

(** * Properties *)

Unset Implicit Arguments.

(** ** Fallible computations *)

Lemma mapM_Ok_In A B (f : A -> Res B) (l : list A) (r : list B) :
  mapM f l = Ok r ->
  forall y, In y r <-> exists a, In a l /\ f a = Ok y.
Proof.
  revert r. induction l as [|a l IH]; simpl; intros r H y.
  - inversion H; subst. simpl. split; [tauto | intros (a & [] & _)].
  - destruct (f a) as [v|e] eqn:Ha; [|discriminate].
    destruct (mapM f l) as [vs|e] eqn:Hl; [|discriminate].
    inversion H; subst. simpl. rewrite (IH vs eq_refl y). split.
    + intros [<- | (a' & Hin & Hf)]; eauto.
    + intros (a' & [<- | Hin] & Hf).
      * left. congruence.
      * right. eauto.
Qed.

Lemma mapM_total A B (f : A -> Res B) (l : list A) :
  (forall a, In a l -> exists v, f a = Ok v) ->
  exists r, mapM f l = Ok r.
Proof.
  induction l as [|a l IH]; simpl; intros H; [eauto|].
  destruct (H a (or_introl eq_refl)) as (v & ->).
  destruct IH as (r & ->); eauto.
Qed.

Lemma mapM_length A B (f : A -> Res B) (l : list A) (r : list B) :
  mapM f l = Ok r -> length r = length l.
Proof.
  revert r. induction l as [|a l IH]; simpl; intros r H.
  - inversion H; reflexivity.
  - destruct (f a); [|discriminate].
    destruct (mapM f l) eqn:E; [|discriminate].
    inversion H; subst. simpl. f_equal. auto.
Qed.

(** ** The parser *)

Lemma node_eqb_eq (a c : Node) : node_eqb a c = true <-> a = c.
Proof.
  destruct a as [a1 a2], c as [c1 c2]. unfold node_eqb. simpl.
  rewrite andb_true_iff, !Z.eqb_eq. split.
  - intros [-> ->]; reflexivity.
  - intros H; inversion H; auto.
Qed.

Lemma node_eqb_refl (a : Node) : node_eqb a a = true.
Proof. apply node_eqb_eq. reflexivity. Qed.

Lemma index_total (l : list Node) (n : Node) :
  In n l -> exists k, GNNParser.index l n = Ok k.
Proof.
  induction l as [|m l IH]; simpl; [tauto|]. intros H.
  destruct (node_eqb m n) eqn:E; [eauto|].
  destruct H as [-> | H]; [rewrite node_eqb_refl in E; discriminate|].
  destruct (IH H) as (k & ->). eauto.
Qed.

Lemma index_app_fresh (pre suf : list Node) (n : Node) :
  ~ In n pre ->
  GNNParser.index (pre ++ n :: suf) n = Ok (length pre).
Proof.
  induction pre as [|m pre IH]; simpl; intros H.
  - rewrite node_eqb_refl. reflexivity.
  - destruct (node_eqb m n) eqn:E.
    + apply node_eqb_eq in E. tauto.
    + rewrite IH by tauto. reflexivity.
Qed.

Lemma scan_In (rules : list (Node -> Node -> bool)) (ns : list Node)
  (o d : Node) :
  In (o, d) (GNNParser.scan rules ns) <->
  In o ns /\ In d ns /\ exists rule, In rule rules /\ rule o d = true.
Proof.
  unfold GNNParser.scan. rewrite in_flat_map. split.
  - intros (o' & Ho & H). apply in_flat_map in H. destruct H as (d' & Hd & H).
    apply in_flat_map in H. destruct H as (rule & Hr & H).
    destruct (rule o' d') eqn:E; simpl in H; [|tauto].
    destruct H as [H|[]]. inversion H; subst. eauto 6.
  - intros (Ho & Hd & rule & Hr & E). exists o. split; [assumption|].
    apply in_flat_map. exists d. split; [assumption|].
    apply in_flat_map. exists rule. split; [assumption|].
    rewrite E. simpl. auto.
Qed.

Lemma to_edge_idx_total (ns : list Node) (es : list (Node * Node)) :
  (forall e, In e es -> In (fst e) ns /\ In (snd e) ns) ->
  exists r, GNNParser.to_edge_idx ns es = Ok r.
Proof.
  intros H. apply mapM_total. intros e He.
  destruct (H e He) as [H1 H2].
  destruct (index_total _ _ H1) as (i & ->).
  destruct (index_total _ _ H2) as (j & ->). simpl. eauto.
Qed.

Lemma scan_edge_idx_total (rules : list (Node -> Node -> bool))
  (ns : list Node) :
  exists r, GNNParser.to_edge_idx ns (GNNParser.scan rules ns) = Ok r.
Proof.
  apply to_edge_idx_total. intros [o d] H. apply scan_In in H. simpl. tauto.
Qed.

Lemma to_edge_idx_incl (ns : list Node) (es es' : list (Node * Node))
  (r r' : EdgeIndex) :
  incl es es' ->
  GNNParser.to_edge_idx ns es = Ok r ->
  GNNParser.to_edge_idx ns es' = Ok r' ->
  incl r r'.
Proof.
  intros Hi H H' c Hc.
  apply (mapM_Ok_In _ _ _ _ _ H) in Hc. destruct Hc as (e & He & Hf).
  apply (mapM_Ok_In _ _ _ _ _ H'). exists e. auto.
Qed.

Lemma grid_grid_or_self (o d : Node) :
  GNNParser.grid o d = true -> GNNParser.grid_or_self o d = true.
Proof.
  unfold GNNParser.grid, GNNParser.grid_or_self.
  rewrite !orb_true_iff. tauto.
Qed.

(** What [parse_obs] puts in [Data.edge_index] is [build_edge_index]. *)
Lemma parse_obs_edge_index (p : GNNParser.t) (v cd mc : Z) (MPNN : bool)
  (data : Data.t) :
  GNNParser.parse_obs p v cd mc MPNN = Ok data ->
  GNNParser.build_edge_index (GNNParser.env p) v cd mc
  = Ok (Data.edge_index data).
Proof.
  unfold GNNParser.parse_obs. intros H.
  destruct (GNNParser.node_features p); simpl in H; [|discriminate].
  destruct (GNNParser.build_edge_index _ _ _ _) as [ei|]; simpl in H;
    [|discriminate].
  destruct MPNN; simpl in H.
  - destruct (GNNParser.edge_features p ei); simpl in H; [|discriminate].
    inversion H; reflexivity.
  - inversion H; reflexivity.
Qed.

(** C6: the edge index of topology policy 1 is contained in that of policy
    2, and the edge index of policy 3 in that of policy 4, for every node
    list (all four policies do produce an edge index). *)
Theorem C6_policy_subsets (e : Env) (charge_delta max_charge : Z) :
  exists e1 e2 e3 e4,
    GNNParser.build_edge_index e 1 charge_delta max_charge = Ok e1
    /\ GNNParser.build_edge_index e 2 charge_delta max_charge = Ok e2
    /\ GNNParser.build_edge_index e 3 charge_delta max_charge = Ok e3
    /\ GNNParser.build_edge_index e 4 charge_delta max_charge = Ok e4
    /\ incl e1 e2 /\ incl e3 e4.
Proof.
  unfold GNNParser.build_edge_index. simpl.
  destruct (scan_edge_idx_total [GNNParser.self_loop] (nodes e)) as (r1 & H1).
  destruct (scan_edge_idx_total [GNNParser.grid] (nodes e)) as (r3 & H3).
  destruct (scan_edge_idx_total [GNNParser.grid_or_self] (nodes e))
    as (r4 & H4).
  exists r1, (r1 ++ gcn_edge_idx e), r3, r4.
  rewrite H1, H3, H4. simpl. repeat split; try reflexivity.
  - apply incl_appl, incl_refl.
  - eapply to_edge_idx_incl; [|exact H3|exact H4].
    intros [o d] H. apply scan_In in H. apply scan_In.
    destruct H as (Ho & Hd & rule & [<-|[]] & E).
    repeat split; try assumption.
    exists GNNParser.grid_or_self. split; [left; reflexivity|].
    apply grid_grid_or_self. assumption.
Qed.

Lemma self_loop_eq (o d : Node) : GNNParser.self_loop o d = true <-> o = d.
Proof. exact (node_eqb_eq o d). Qed.

(** The inner loop of policy 1 over a duplicate-free list finds [o] once if
    it is there and never otherwise. *)
Lemma self_scan_inner (o : Node) (l : list Node) :
  NoDup l ->
  flat_map (fun d =>
    flat_map (fun rule : Node -> Node -> bool =>
                if rule o d then [(o, d)] else []) [GNNParser.self_loop]) l
  = if existsb (node_eqb o) l then [(o, o)] else [].
Proof.
  set (F := fun d : Node =>
    flat_map (fun rule : Node -> Node -> bool =>
                if rule o d then [(o, d)] else []) [GNNParser.self_loop]).
  induction 1 as [|d l Hd Hl IH]; [reflexivity|].
  change (flat_map F (d :: l)) with (F d ++ flat_map F l).
  rewrite IH. unfold F. cbn [flat_map existsb app].
  change (GNNParser.self_loop o d) with (node_eqb o d).
  destruct (node_eqb o d) eqn:E; simpl; [|reflexivity].
  apply node_eqb_eq in E. subst d.
  destruct (existsb (node_eqb o) l) eqn:Ex; [|reflexivity].
  apply existsb_exists in Ex. destruct Ex as (d & Hin & Hd').
  apply node_eqb_eq in Hd'. subst d. contradiction.
Qed.

Lemma self_scan (ns : list Node) :
  NoDup ns ->
  GNNParser.scan [GNNParser.self_loop] ns = map (fun o => (o, o)) ns.
Proof.
  intros H. unfold GNNParser.scan.
  assert (G : forall l, incl l ns ->
    flat_map (fun o => flat_map (fun d =>
      flat_map (fun rule : Node -> Node -> bool =>
                  if rule o d then [(o, d)] else []) [GNNParser.self_loop]) ns) l
    = map (fun o => (o, o)) l).
  { induction l as [|o l IH]; intros Hi; [reflexivity|].
    match goal with |- flat_map ?F _ = _ =>
      change (flat_map F (o :: l)) with (F o ++ flat_map F l) end.
    rewrite IH by (intros y Hy; apply Hi; right; exact Hy).
    rewrite (self_scan_inner o _ H).
    assert (Ex : existsb (node_eqb o) ns = true).
    { apply existsb_exists. exists o. split; [apply Hi; left; reflexivity|].
      apply node_eqb_refl. }
    rewrite Ex. reflexivity. }
  apply G, incl_refl.
Qed.

Lemma self_edge_idx (pre suf : list Node) :
  NoDup (pre ++ suf) ->
  GNNParser.to_edge_idx (pre ++ suf) (map (fun o => (o, o)) suf)
  = Ok (map (fun i => (i, i)) (seq (length pre) (length suf))).
Proof.
  revert pre. induction suf as [|n suf IH]; intros pre H; [reflexivity|].
  unfold GNNParser.to_edge_idx in *. cbn [map mapM fst snd length seq].
  assert (Hn : ~ In n pre).
  { intros Hin. apply NoDup_remove_2 in H. apply H.
    apply in_or_app. left. exact Hin. }
  rewrite (index_app_fresh pre suf n Hn). simpl res_bind.
  specialize (IH (pre ++ [n])). rewrite <- app_assoc in IH. simpl in IH.
  rewrite IH by exact H. rewrite length_app. simpl.
  rewrite Nat.add_1_r. reflexivity.
Qed.

(** C7: over a node set (a duplicate-free node list) of size N, topology
    policy 1 produces exactly the N columns (i, i), one self-loop per node
    in node order and nothing else; policy 0 produces exactly the
    simulator's own edge index. *)
Theorem C7_self_loops_and_native (e : Env) (charge_delta max_charge : Z) :
  NoDup (nodes e) ->
  GNNParser.build_edge_index e 1 charge_delta max_charge
  = Ok (map (fun i => (i, i)) (seq 0 (length (nodes e))))
  /\ (forall r, GNNParser.build_edge_index e 1 charge_delta max_charge = Ok r ->
                length r = length (nodes e))
  /\ GNNParser.build_edge_index e 0 charge_delta max_charge
     = Ok (gcn_edge_idx e).
Proof.
  intros H.
  assert (E1 : GNNParser.build_edge_index e 1 charge_delta max_charge
               = Ok (map (fun i => (i, i)) (seq 0 (length (nodes e))))).
  { unfold GNNParser.build_edge_index. simpl.
    rewrite (self_scan _ H). exact (self_edge_idx [] (nodes e) H). }
  split; [exact E1|]. split; [|reflexivity].
  intros r Hr. rewrite E1 in Hr. inversion Hr; subst.
  rewrite length_map, length_seq. reflexivity.
Qed.

(** The three-node scenario: policy 1 gives the three self-loops, policy 0
    the simulator's four edges. *)
Lemma C7_three_nodes_witness :
  NoDup (nodes Examples.env3)
  /\ GNNParser.build_edge_index Examples.env3 1 1 1
     = Ok [(0, 0); (1, 1); (2, 2)]%nat
  /\ GNNParser.build_edge_index Examples.env3 0 1 1
     = Ok [(0, 1); (1, 0); (0, 2); (2, 0)]%nat.
Proof.
  assert (H : NoDup (nodes Examples.env3)).
  { simpl. unfold Examples.three_nodes.
    repeat constructor; simpl; intuition discriminate. }
  split; [exact H|].
  destruct (C7_self_loops_and_native Examples.env3 1 1 H) as (H1 & _ & H0).
  split; [exact H1 | exact H0].
Defined.

(** ** Discounted returns *)

Lemma discounted_returns_cons (r : Q) (rs : list Q) :
  discounted_returns (r :: rs)
  = (r + gamma * hd 0 (discounted_returns rs))%Q :: discounted_returns rs.
Proof.
  unfold discounted_returns. simpl rev. rewrite fold_left_app. simpl.
  set (st := fold_left _ (rev rs) (0%Q, [])).
  assert (H : fst st = hd 0%Q (snd st)).
  { subst st. induction (rev rs) as [|a l IH] using rev_ind; [reflexivity|].
    rewrite fold_left_app. reflexivity. }
  rewrite H. reflexivity.
Qed.

Lemma discounted_returns_length (rs : list Q) :
  length (discounted_returns rs) = length rs.
Proof.
  induction rs as [|r rs IH]; [reflexivity|].
  rewrite discounted_returns_cons. simpl. f_equal. exact IH.
Qed.

Lemma discounted_returns_nth (rs : list Q) (k : nat) :
  (nth k (discounted_returns rs) 0
   == nth k rs 0 + gamma * nth (S k) (discounted_returns rs) 0)%Q.
Proof.
  revert k. induction rs as [|r rs IH]; intros k.
  - destruct k; simpl; reflexivity.
  - rewrite discounted_returns_cons. destruct k as [|k].
    + simpl. destruct (discounted_returns rs); reflexivity.
    + simpl nth at 1 2. rewrite (IH k). reflexivity.
Qed.

(** C4 (as amended): the returns [training_step] computes before
    normalising them obey the backward recurrence: they are as many as the
    rewards, in forward time order; the return of a step is its reward plus
    gamma times the return of the next step; the return of the last step is
    its reward; and the rewards [1, 1, 1] give
    [1 + 0.97 + 0.97^2, 1 + 0.97, 1], that is [2.9109, 1.97, 1], with
    gamma = 0.97. *)
Theorem C4_discounted_returns :
  gamma = (97 # 100)%Q
  /\ (forall rs, length (discounted_returns rs) = length rs)
  /\ (forall r rs,
        discounted_returns (r :: rs)
        = (r + gamma * hd 0 (discounted_returns rs))%Q
            :: discounted_returns rs)
  /\ (forall rs k,
        nth k (discounted_returns rs) 0
        == nth k rs 0 + gamma * nth (S k) (discounted_returns rs) 0)%Q
  /\ (forall rs r,
        nth (length rs) (discounted_returns (rs ++ [r])) 0 == r)%Q
  /\ Forall2 Qeq (discounted_returns [1; 1; 1]%Q)
       [1 + gamma + gamma * gamma; 1 + gamma; 1]%Q
  /\ Forall2 Qeq (discounted_returns [1; 1; 1]%Q)
       [29109 # 10000; 197 # 100; 1]%Q.
Proof.
  split; [reflexivity|].
  split; [exact discounted_returns_length|].
  split; [exact discounted_returns_cons|].
  split; [exact discounted_returns_nth|].
  split.
  - intros rs r. rewrite discounted_returns_nth.
    rewrite (nth_overflow (discounted_returns (rs ++ [r]))).
    + rewrite app_nth2, Nat.sub_diag by lia. simpl. ring.
    + rewrite discounted_returns_length, length_app. simpl. lia.
  - rewrite !discounted_returns_cons.
    change (discounted_returns []) with (@nil Q).
    split; repeat (apply Forall2_cons; [vm_compute; reflexivity|]);
      apply Forall2_nil.
Qed.

(** C4, the figure of the claim: for the rewards [1, 1, 1] the first return
    is 1 + 0.97 + 0.97^2 = 2.9109, which is not 2.9409. *)
Lemma C4_first_return_is_not_2_9409 :
  (nth 0 (discounted_returns [1; 1; 1]) 0 == 1 + gamma + gamma * gamma)%Q
  /\ (nth 0 (discounted_returns [1; 1; 1]) 0 == 29109 # 10000)%Q
  /\ ~ (nth 0 (discounted_returns [1; 1; 1]) 0 == 29409 # 10000)%Q.
Proof.
  repeat split; try (vm_compute; reflexivity).
  vm_compute. discriminate.
Qed.

(** ** Sums *)

Lemma fold_left_Qplus (l : list Q) (a : Q) :
  (fold_left Qplus l a == a + Qsum l)%Q.
Proof.
  unfold Qsum. revert a. induction l as [|v l IH]; intros a; simpl.
  - ring.
  - rewrite (IH (a + v)%Q), (IH (0 + v)%Q). ring.
Qed.

Lemma Qsum_cons (a : Q) (l : list Q) : (Qsum (a :: l) == a + Qsum l)%Q.
Proof.
  unfold Qsum at 1. simpl. rewrite fold_left_Qplus. ring.
Qed.

Lemma Qsum_app (l l' : list Q) : (Qsum (l ++ l') == Qsum l + Qsum l')%Q.
Proof.
  induction l as [|a l IH]; simpl.
  - unfold Qsum at 2. simpl. ring.
  - rewrite !Qsum_cons, IH. ring.
Qed.

Lemma Qsum_map_scale (k : Q) (l : list Q) :
  (Qsum (map (fun v => v / k) l) == Qsum l / k)%Q.
Proof.
  induction l as [|a l IH]; simpl.
  - unfold Qsum. simpl. unfold Qdiv. ring.
  - rewrite !Qsum_cons, IH. unfold Qdiv. ring.
Qed.

Lemma Qsum_repeat_zero (n : nat) : (Qsum (repeat 0 n) == 0)%Q.
Proof.
  induction n as [|n IH]; simpl; [reflexivity|].
  rewrite Qsum_cons, IH. ring.
Qed.

(** ** Shapes *)

Lemma mapM_Forall A B (f : A -> Res B) (P : B -> Prop) (l : list A)
  (r : list B) :
  (forall a v, f a = Ok v -> P v) -> mapM f l = Ok r -> Forall P r.
Proof.
  intros Hf. revert r. induction l as [|a l IH]; simpl; intros r H.
  - inversion H. constructor.
  - destruct (f a) as [v|] eqn:E; [|discriminate].
    destruct (mapM f l) as [vs|]; [|discriminate].
    inversion H; subst. constructor; eauto.
Qed.

Lemma mapM_Raise A B (f : A -> Res B) (l : list A) (a : A) (e : exn) :
  In a l -> f a = Raise e -> exists e', mapM f l = Raise e'.
Proof.
  induction l as [|c l IH]; simpl; [tauto|]. intros [->|Hin] Hf.
  - rewrite Hf. eauto.
  - destruct (f c); [|eauto].
    destruct (IH Hin Hf) as (e' & ->). eauto.
Qed.

Lemma cat_dim1_length (a c r : Tensor2) :
  cat_dim1 a c = Ok r -> length r = length a.
Proof.
  unfold cat_dim1. destruct (Nat.eqb (length a) (length c)) eqn:E;
    [|discriminate].
  intros H. inversion H. apply Nat.eqb_eq in E.
  rewrite length_map, length_combine. lia.
Qed.

Lemma linear_length (l : Linear) (m r : Tensor2) :
  linear l m = Ok r -> length r = length m.
Proof. apply mapM_length. Qed.

Lemma linear_width (l : Linear) (m r : Tensor2) :
  linear l m = Ok r -> Forall (fun row => length row = out_features l) r.
Proof.
  apply mapM_Forall. intros row v. unfold linear_row.
  destruct (Nat.eqb (length row) (in_features l)); [|discriminate].
  intros H. inversion H. rewrite length_map, length_seq. reflexivity.
Qed.

Lemma numel_rows_of_one (v : Tensor2) :
  Forall (fun row => length row = 1%nat) v -> numel v = length v.
Proof.
  unfold numel. induction 1 as [|row v Hr Hv IH]; simpl; [reflexivity|].
  rewrite length_app, Hr, IH. reflexivity.
Qed.

Lemma item_Ok_numel (t : Tensor2) (v : Q) : item t = Ok v -> numel t = 1%nat.
Proof.
  unfold item, numel. destruct (concat t) as [|a [|c l]]; try discriminate.
  reflexivity.
Qed.

Lemma item_Raise_numel (t : Tensor2) :
  numel t <> 1%nat -> item t = Raise RuntimeError.
Proof.
  unfold item, numel. destruct (concat t) as [|a [|c l]]; simpl; try reflexivity.
  intros H. contradiction H. reflexivity.
Qed.

Lemma view_Ok (rows cols : nat) (flat : list Q) (m : Tensor2) :
  view rows cols flat = Ok m ->
  length flat = (rows * cols)%nat /\ length m = rows.
Proof.
  unfold view. destruct (Nat.eqb (length flat) (rows * cols)) eqn:E;
    [|discriminate].
  intros H. inversion H. apply Nat.eqb_eq in E.
  rewrite length_map, length_seq. auto.
Qed.

(** The feature matrix has one row per node, and it exists only when
    [env.number_nodes] is the length of [env.nodes]. *)
Lemma node_features_rows (p : GNNParser.t) (f : Tensor2) :
  GNNParser.node_features p = Ok f ->
  length f = length (nodes (GNNParser.env p))
  /\ number_nodes (GNNParser.env p) = length (nodes (GNNParser.env p)).
Proof.
  unfold GNNParser.node_features. intros H.
  destruct (if Z.eqb _ 0 then _ else _) as [charge|]; simpl in H;
    [|discriminate].
  destruct (view 1 _ charge) as [f1|]; simpl in H; [|discriminate].
  destruct (view 1 _ (map _ _)) as [f2|] eqn:E2; simpl in H; [|discriminate].
  destruct (view (GNNParser.T p) _ _) as [f3|]; simpl in H; [|discriminate].
  destruct (view (GNNParser.T p) _ _) as [f4|]; simpl in H; [|discriminate].
  destruct (view (GNNParser.input_size p) _ _) as [rows|]; simpl in H;
    [|discriminate].
  inversion H. apply view_Ok in E2. destruct E2 as [E2 _].
  rewrite length_map in E2. unfold transpose.
  rewrite length_map, length_seq. lia.
Qed.

Lemma parse_obs_rows (p : GNNParser.t) (v cd mc : Z) (MPNN : bool)
  (data : Data.t) :
  GNNParser.parse_obs p v cd mc MPNN = Ok data ->
  length (Data.x data) = length (nodes (GNNParser.env p)).
Proof.
  unfold GNNParser.parse_obs. intros H.
  destruct (GNNParser.node_features p) as [f|] eqn:Ef; simpl in H;
    [|discriminate].
  apply node_features_rows in Ef. destruct Ef as [Ef _].
  destruct (GNNParser.build_edge_index _ _ _ _) as [ei|]; simpl in H;
    [|discriminate].
  destruct MPNN; simpl in H.
  - destruct (GNNParser.edge_features p ei); simpl in H; [|discriminate].
    inversion H; exact Ef.
  - inversion H; exact Ef.
Qed.

(** The last lines of the critic return the output of the last layer: one
    row per row of [x], each of one entry. *)
Lemma GNNCritic_head_shape (lib : A2C.Torch) (net : Network)
  (x out_3 v : Tensor2) :
  A2C.GNNCritic_head lib net x out_3 = Ok v ->
  length v = length x /\ Forall (fun row => length row = 1%nat) v.
Proof.
  unfold A2C.GNNCritic_head. cbv zeta. intros H.
  destruct (cat_dim1 x out_3) as [o3c|] eqn:Ec; simpl in H; [|discriminate].
  destruct (linear _ o3c) as [h1|] eqn:E1; simpl in H; [|discriminate].
  destruct (linear _ (map _ h1)) as [h2|] eqn:E2; simpl in H; [|discriminate].
  destruct (linear _ (map _ h2)) as [h3|] eqn:E3; simpl in H; [|discriminate].
  destruct (linear _ (map _ h3)) as [h4|] eqn:E4; simpl in H; [|discriminate].
  inversion H; subst v. split.
  - apply linear_length in E1, E2, E3, E4. apply cat_dim1_length in Ec.
    rewrite length_map in E2, E3, E4. congruence.
  - exact (linear_width _ _ _ E4).
Qed.

(** The last lines of the actor return two columns, each with one entry
    per row of [x]. *)
Lemma GNNActor_head_shape (lib : A2C.Torch) (net : Network)
  (x out_3 : Tensor2) (out : Tensor1 * Tensor1) :
  A2C.GNNActor_head lib net x out_3 = Ok out ->
  length (fst out) = length x /\ length (snd out) = length x.
Proof.
  unfold A2C.GNNActor_head. cbv zeta. intros H.
  destruct (cat_dim1 x out_3) as [o3c|] eqn:Ec; simpl in H; [|discriminate].
  destruct (linear _ o3c) as [h1|] eqn:E1; simpl in H; [|discriminate].
  destruct (linear _ (map _ h1)) as [h2|] eqn:E2; simpl in H; [|discriminate].
  destruct (linear _ (map _ h2)) as [h3|] eqn:E3; simpl in H; [|discriminate].
  destruct (linear _ (map _ h3)) as [h4|] eqn:E4; simpl in H; [|discriminate].
  inversion H; subst out. simpl. rewrite !length_map.
  apply linear_length in E1, E2, E3, E4. apply cat_dim1_length in Ec.
  rewrite length_map in E2, E3, E4. split; congruence.
Qed.

(** ** The two loops of the sampler *)

Section Sampler.

Variable lib : A2C.Torch.
Variable d : A2C.Draws.

Lemma scalar_add_tensor (a : Scalar) (q : Q) :
  scalar_value (scalar_add a (Tensor0 q)) = (scalar_value a + q)%Q.
Proof. destruct a; reflexivity. Qed.

Lemma scalar_add_value (a c : Scalar) :
  (scalar_value (scalar_add a c) == scalar_value a + scalar_value c)%Q.
Proof.
  destruct a, c; simpl; try reflexivity.
  unfold inject_Z, Qeq, Qplus. simpl. lia.
Qed.

(** What the first loop adds to its accumulators from node [node] on. *)
Lemma gate_loop_spec (c rest : Tensor1) :
  forall (node : nat) (g g' : A2C.Gates),
    A2C.gate_loop lib d c node rest g = Ok g' ->
    A2C.sampled_zero_bool_arr g'
    = A2C.sampled_zero_bool_arr g
      ++ map (fun i => negb (A2C.bernoulli d i)) (seq node (length rest))
    /\ A2C.concentration_without_zeros g'
       = A2C.concentration_without_zeros g
         ++ map (fun i => nth i c 0%Q)
                (filter (A2C.bernoulli d) (seq node (length rest)))
    /\ (scalar_value (A2C.log_prob_for_zeros g')
        == scalar_value (A2C.log_prob_for_zeros g)
           + Qsum (map (fun ip => A2C.gate_term lib d (fst ip) (snd ip))
                       (combine (seq node (length rest)) rest)))%Q.
Proof.
  induction rest as [|p rest IH]; intros node g g' H.
  - simpl in H. inversion H; subst. simpl. rewrite !app_nil_r.
    repeat split. unfold Qsum. simpl. ring.
  - cbn [A2C.gate_loop] in H. cbn [length seq map filter combine fst snd].
    unfold A2C.gate_term at 1. cbn [fst snd].
    destruct (A2C.bernoulli d node) eqn:Eb.
    + destruct (nth_error c node) as [cv|] eqn:En; [|discriminate].
      apply IH in H. cbn [A2C.sampled_zero_bool_arr
        A2C.concentration_without_zeros A2C.log_prob_for_zeros] in H.
      destruct H as (Ha & Hc & Hl). rewrite Ha, Hc, <- !app_assoc.
      cbn [map app negb]. rewrite (nth_error_nth c node 0%Q En).
      repeat split. rewrite Hl, scalar_add_tensor, Qsum_cons. ring.
    + apply IH in H. cbn [A2C.sampled_zero_bool_arr
        A2C.concentration_without_zeros A2C.log_prob_for_zeros] in H.
      destruct H as (Ha & Hc & Hl). rewrite Ha, Hc, <- !app_assoc.
      cbn [map app negb].
      repeat split. rewrite Hl, scalar_add_tensor, Qsum_cons. ring.
Qed.

Lemma gate_loop_total (c rest : Tensor1) :
  forall (node : nat) (g : A2C.Gates),
    (node + length rest <= length c)%nat ->
    exists g', A2C.gate_loop lib d c node rest g = Ok g'.
Proof.
  induction rest as [|p rest IH]; intros node g H; simpl; [eauto|].
  simpl in H. destruct (A2C.bernoulli d node).
  - destruct (nth_error c node) as [cv|] eqn:En.
    + apply IH. lia.
    + apply nth_error_None in En. lia.
  - apply IH. lia.
Qed.

(** The first loop as a whole. *)
Lemma gate_loop_all (c nz : Tensor1) (g : A2C.Gates) :
  A2C.gate_loop lib d c 0 nz A2C.no_gate = Ok g ->
  A2C.sampled_zero_bool_arr g
  = map (fun i => negb (A2C.bernoulli d i)) (seq 0 (length nz))
  /\ A2C.concentration_without_zeros g = A2C.participating d c (length nz)
  /\ (scalar_value (A2C.log_prob_for_zeros g) == A2C.gate_log_prob lib d nz)%Q.
Proof.
  intros H. apply gate_loop_spec in H. simpl in H.
  destruct H as (Ha & Hc & Hl). repeat split; try assumption.
  rewrite Hl. unfold A2C.gate_log_prob. ring.
Qed.

(** The second loop keeps the length of the gate array. *)
Lemma assemble_length (arr : list bool) (p : option (list Q)) :
  forall (idx : nat) (a : list Q),
    A2C.assemble arr p idx = Ok a -> length a = length arr.
Proof.
  induction arr as [|z arr IH]; intros idx a H; simpl in H.
  - inversion H; reflexivity.
  - destruct z.
    + destruct (A2C.assemble arr p idx) as [a0|] eqn:E; simpl in H;
        [|discriminate].
      inversion H; subst. simpl. f_equal. eauto.
    + destruct p as [l|]; [|discriminate].
      destruct (nth_error l idx); [|discriminate].
      destruct (A2C.assemble arr (Some l) (S idx)) as [a0|] eqn:E;
        simpl in H; [|discriminate].
      inversion H; subst. simpl. f_equal. eauto.
Qed.

(** It writes the literal [0] at every abstaining position. *)
Lemma assemble_zero (arr : list bool) (p : option (list Q)) :
  forall (idx : nat) (a : list Q) (i : nat),
    A2C.assemble arr p idx = Ok a ->
    nth_error arr i = Some true -> nth_error a i = Some 0%Q.
Proof.
  induction arr as [|z arr IH]; intros idx a i H Hi; simpl in H.
  - destruct i; discriminate.
  - destruct z.
    + destruct (A2C.assemble arr p idx) as [a0|] eqn:E; simpl in H;
        [|discriminate].
      inversion H; subst. destruct i; [reflexivity|]. simpl in *. eauto.
    + destruct p as [l|]; [|discriminate].
      destruct (nth_error l idx); [|discriminate].
      destruct (A2C.assemble arr (Some l) (S idx)) as [a0|] eqn:E;
        simpl in H; [|discriminate].
      inversion H; subst. destruct i; [discriminate|]. simpl in *. eauto.
Qed.

(** Its entries add up to those of the point it consumed: the first
    entries of [p] from [idx] on, one per participating position. *)
Lemma assemble_sum (arr : list bool) (p : list Q) :
  forall (idx : nat) (a : list Q),
    A2C.assemble arr (Some p) idx = Ok a ->
    (Qsum a == Qsum (firstn (length (filter negb arr)) (skipn idx p)))%Q.
Proof.
  induction arr as [|z arr IH]; intros idx a H; simpl in H.
  - inversion H; subst. reflexivity.
  - destruct z.
    + destruct (A2C.assemble arr (Some p) idx) as [a0|] eqn:E; simpl in H;
        [|discriminate].
      inversion H; subst. simpl. rewrite Qsum_cons, (IH _ _ E). ring.
    + destruct (nth_error p idx) as [v|] eqn:En; [|discriminate].
      destruct (A2C.assemble arr (Some p) (S idx)) as [a0|] eqn:E;
        simpl in H; [|discriminate].
      inversion H; subst. cbn [filter negb length].
      assert (Hs : skipn idx p = v :: skipn (S idx) p).
      { clear - En. revert idx En. induction p as [|w p IHp]; intros idx En.
        - destruct idx; discriminate.
        - destruct idx as [|idx]; simpl in *.
          + inversion En; reflexivity.
          + apply IHp. exact En. }
      rewrite Hs. cbn [firstn]. rewrite !Qsum_cons, (IH _ _ E). reflexivity.
Qed.

(** When every position abstains the point is not read, bound or not. *)
Lemma assemble_all_abstain (arr : list bool) (p : option (list Q))
  (idx : nat) :
  filter negb arr = [] ->
  A2C.assemble arr p idx = Ok (repeat 0%Q (length arr)).
Proof.
  induction arr as [|z arr IH]; intros H; [reflexivity|].
  destruct z; simpl in H; [|discriminate].
  simpl. rewrite (IH H). reflexivity.
Qed.

(** Over the gate array of the draws, a point given node by node is put
    back at the participating nodes. *)
Lemma assemble_map (f : nat -> Q) (l : list nat) :
  forall (pre post : list Q),
    A2C.assemble (map (fun i => negb (A2C.bernoulli d i)) l)
      (Some (pre ++ map f (filter (A2C.bernoulli d) l) ++ post)) (length pre)
    = Ok (map (fun i => if A2C.bernoulli d i then f i else 0%Q) l).
Proof.
  induction l as [|i l IH]; intros pre post; [reflexivity|].
  cbn [map filter A2C.assemble]. destruct (A2C.bernoulli d i) eqn:Eb.
  - cbn [negb map app].
    rewrite nth_error_app2, Nat.sub_diag by lia. cbn [nth_error].
    specialize (IH (pre ++ [f i]) post).
    rewrite <- app_assoc, length_app, Nat.add_1_r in IH. simpl in IH.
    rewrite IH. reflexivity.
  - cbn [negb]. rewrite IH. reflexivity.
Qed.

Lemma filter_negb_gates (n : nat) :
  length (filter negb (map (fun i => negb (A2C.bernoulli d i)) (seq 0 n)))
  = length (A2C.participants d n).
Proof.
  unfold A2C.participants. induction (seq 0 n) as [|i l IH]; [reflexivity|].
  simpl. destruct (A2C.bernoulli d i); simpl; congruence.
Qed.

Lemma gates_all_abstain (n : nat) :
  A2C.participants d n = [] ->
  filter negb (map (fun i => negb (A2C.bernoulli d i)) (seq 0 n)) = [].
Proof.
  intros H. apply length_zero_iff_nil. rewrite filter_negb_gates, H.
  reflexivity.
Qed.

Lemma participating_length (c : Tensor1) (n : nat) :
  length (A2C.participating d c n) = length (A2C.participants d n).
Proof. unfold A2C.participating. apply length_map. Qed.

Lemma participating_nil (c : Tensor1) (n : nat) :
  A2C.participating d c n = [] <-> A2C.participants d n = [].
Proof.
  unfold A2C.participating.
  destruct (A2C.participants d n); simpl; split; congruence.
Qed.

(** [sample_from], stage by stage. *)
Lemma sample_from_eq (eval_mode : bool) (c nz : Tensor1) (v : Tensor2)
  (s : A2C.t) :
  A2C.sample_from lib d eval_mode c nz v s =
  match A2C.gate_loop lib d c 0 nz A2C.no_gate with
  | Raise e => (Raise e, s)
  | Ok g =>
      match A2C.concentration_without_zeros g with
      | [] =>
          (A2C.assemble (A2C.sampled_zero_bool_arr g) None 0,
           A2C.append_saved_action
             {| A2C.log_prob :=
                  scalar_add (PyInt 0) (A2C.log_prob_for_zeros g);
                A2C.value := v |} s)
      | _ :: _ =>
          let cwz := A2C.concentration_without_zeros g in
          let s1 :=
            A2C.append_concentration_stats (np_mean cwz) (A2C.np_std lib cwz) s
          in
          let point :=
            if eval_mode then A2C.normalized cwz else A2C.rsample d cwz in
          match A2C.Dirichlet cwz with
          | Raise e => (Raise e, s1)
          | Ok _ =>
              match A2C.Dirichlet_log_prob lib cwz point with
              | Raise e => (Raise e, s1)
              | Ok lp =>
                  (A2C.assemble (A2C.sampled_zero_bool_arr g) (Some point) 0,
                   A2C.append_saved_action
                     {| A2C.log_prob :=
                          scalar_add (Tensor0 lp) (A2C.log_prob_for_zeros g);
                        A2C.value := v |} s1)
              end
          end
      end
  end.
Proof.
  unfold A2C.sample_from, A2C.bind, A2C.lift, A2C.modify, A2C.ret.
  destruct (A2C.gate_loop lib d c 0 nz A2C.no_gate) as [g|e]; [|reflexivity].
  unfold A2C.dirichlet_part, A2C.bind, A2C.lift, A2C.modify, A2C.ret.
  destruct (A2C.concentration_without_zeros g) as [|c0 cs]; [reflexivity|].
  cbv zeta. destruct (A2C.Dirichlet (c0 :: cs)); [|reflexivity].
  destruct (A2C.Dirichlet_log_prob lib (c0 :: cs) _); reflexivity.
Qed.

Lemma select_action_eq (eval_mode : bool) (s : A2C.t) :
  A2C.select_action lib d eval_mode s =
  match A2C.forward lib A2C.jitter s with
  | Raise e => (Raise e, s)
  | Ok out =>
      A2C.sample_from lib d eval_mode (fst (fst out)) (snd (fst out))
        (snd out) s
  end.
Proof.
  unfold A2C.select_action, A2C.bind, A2C.get, A2C.lift.
  destruct (A2C.forward lib A2C.jitter s); reflexivity.
Qed.

(** The second loop returns when the point is long enough. *)
Lemma assemble_total (arr : list bool) (p : list Q) :
  forall idx : nat,
    (idx + length (filter negb arr) <= length p)%nat ->
    exists a, A2C.assemble arr (Some p) idx = Ok a.
Proof.
  induction arr as [|z arr IH]; intros idx H; simpl; [eauto|].
  destruct z; simpl in H.
  - destruct (IH idx H) as (a & ->). simpl. eauto.
  - destruct (nth_error p idx) as [w|] eqn:En.
    + destruct (IH (S idx)) as (a & ->); [lia|]. simpl. eauto.
    + apply nth_error_None in En. lia.
Qed.

End Sampler.

(** The first loop reads the draws at the positions of [non_zero] only. *)
Lemma gate_loop_ext (lib : A2C.Torch) (d1 d2 : A2C.Draws) (c rest : Tensor1) :
  forall (node : nat) (g : A2C.Gates),
    (forall i, (node <= i < node + length rest)%nat ->
               A2C.bernoulli d1 i = A2C.bernoulli d2 i) ->
    A2C.gate_loop lib d1 c node rest g = A2C.gate_loop lib d2 c node rest g.
Proof.
  induction rest as [|p rest IH]; intros node g H; [reflexivity|].
  cbn [A2C.gate_loop]. rewrite <- (H node) by (simpl; lia).
  destruct (A2C.bernoulli d1 node).
  - destruct (nth_error c node); [|reflexivity].
    apply IH. intros i Hi. apply H. simpl. lia.
  - apply IH. intros i Hi. apply H. simpl. lia.
Qed.

(** ** The validation of the Dirichlet distribution *)

Lemma Dirichlet_Ok (c : Tensor1) :
  A2C.Dirichlet c = Ok tt <-> A2C.positive c = true.
Proof.
  unfold A2C.Dirichlet. destruct (A2C.positive c); split; congruence.
Qed.

Lemma Dirichlet_log_prob_Ok (lib : A2C.Torch) (c p : Tensor1) (lp : Q) :
  A2C.Dirichlet_log_prob lib c p = Ok lp <->
  length p = length c /\ A2C.simplex p = true
  /\ lp = A2C.Dirichlet_log_density lib c p.
Proof.
  unfold A2C.Dirichlet_log_prob.
  destruct (Nat.eqb (length p) (length c)) eqn:El; simpl.
  - apply Nat.eqb_eq in El. destruct (A2C.simplex p); split.
    + intros H. inversion H. auto.
    + intros (_ & _ & ->). reflexivity.
    + discriminate.
    + intros (_ & H & _). discriminate.
  - apply Nat.eqb_neq in El. split; [discriminate|].
    intros (H & _). contradiction.
Qed.

Lemma Dirichlet_log_prob_returns (lib : A2C.Torch) (c p : Tensor1) :
  length p = length c -> A2C.simplex p = true ->
  A2C.Dirichlet_log_prob lib c p = Ok (A2C.Dirichlet_log_density lib c p).
Proof. intros Hl Hs. apply Dirichlet_log_prob_Ok. auto. Qed.

(** A point of the support adds up to 1 within 1e-6. *)
Lemma simplex_sum (p : Tensor1) :
  A2C.simplex p = true -> (Qabs (Qsum p - 1) < 1 # 1000000)%Q.
Proof.
  unfold A2C.simplex. intros H. apply andb_true_iff in H.
  destruct H as (_ & H). apply negb_true_iff in H.
  apply Qnot_le_lt. intros Hle. apply Qle_bool_iff in Hle. congruence.
Qed.

(** ** The sampler *)

(** The gate array of the draws over [n] nodes. *)
Local Abbreviation gates d n :=
  (map (fun i => negb (A2C.bernoulli d i)) (seq 0 n)).

(** A call of [sample_from] that returns, read off stage by stage. *)
Lemma sample_from_Ok (lib : A2C.Torch) (d : A2C.Draws) (eval_mode : bool)
  (s s' : A2C.t) (c nz : Tensor1) (v : Tensor2) (a : list Q) :
  A2C.sample_from lib d eval_mode c nz v s = (Ok a, s') ->
  exists lpz : Scalar,
    (scalar_value lpz == A2C.gate_log_prob lib d nz)%Q
    /\ ((A2C.participants d (length nz) = []
         /\ a = repeat 0%Q (length nz)
         /\ s' = A2C.append_saved_action
                   {| A2C.log_prob := scalar_add (PyInt 0) lpz;
                      A2C.value := v |} s)
        \/ (A2C.participants d (length nz) <> []
            /\ exists lp : Q,
                 let cwz := A2C.participating d c (length nz) in
                 let point :=
                   if eval_mode then A2C.normalized cwz
                   else A2C.rsample d cwz in
                 A2C.Dirichlet_log_prob lib cwz point = Ok lp
                 /\ A2C.assemble (gates d (length nz)) (Some point) 0 = Ok a
                 /\ s' = A2C.append_saved_action
                           {| A2C.log_prob := scalar_add (Tensor0 lp) lpz;
                              A2C.value := v |}
                           (A2C.append_concentration_stats (np_mean cwz)
                              (A2C.np_std lib cwz) s)
                 /\ A2C.Dirichlet cwz = Ok tt)).
Proof.
  intros H. rewrite sample_from_eq in H.
  destruct (A2C.gate_loop lib d c 0 nz A2C.no_gate) as [g|] eqn:Eg;
    [|discriminate].
  apply gate_loop_all in Eg. destruct Eg as (Ha & Hc & Hl).
  exists (A2C.log_prob_for_zeros g). split; [exact Hl|].
  rewrite Ha, Hc in H.
  destruct (A2C.participating d c (length nz)) as [|c0 cs] eqn:Ep.
  - left. apply participating_nil in Ep.
    rewrite (assemble_all_abstain _ None 0 (gates_all_abstain d _ Ep)) in H.
    rewrite length_map, length_seq in H. inversion H; subst. auto.
  - right. split.
    { intros Hn. apply (participating_nil d c) in Hn. congruence. }
    cbv zeta in H.
    destruct (A2C.Dirichlet (c0 :: cs)) as [[]|] eqn:Ed; [|discriminate].
    destruct (A2C.Dirichlet_log_prob lib (c0 :: cs) _) as [lp|] eqn:El;
      [|discriminate].
    exists lp. cbv zeta. inversion H; subst. auto.
Qed.

(** A call of [select_action] that returns, read off stage by stage. *)
Lemma select_action_Ok (lib : A2C.Torch) (d : A2C.Draws) (eval_mode : bool)
  (s s' : A2C.t) (c nz : Tensor1) (v : Tensor2) (a : list Q) :
  A2C.forward lib A2C.jitter s = Ok (c, nz, v) ->
  A2C.select_action lib d eval_mode s = (Ok a, s') ->
  A2C.sample_from lib d eval_mode c nz v s = (Ok a, s').
Proof.
  intros Hf H. rewrite select_action_eq, Hf in H. exact H.
Qed.

(** When [sample_from] returns: always when no node participates, and
    otherwise when the library accepts the concentration and the point. *)
Lemma sample_from_returns (lib : A2C.Torch) (d : A2C.Draws)
  (eval_mode : bool) (c nz : Tensor1) (v : Tensor2) (s : A2C.t) :
  (length nz <= length c)%nat ->
  let cwz := A2C.participating d c (length nz) in
  let point := if eval_mode then A2C.normalized cwz else A2C.rsample d cwz in
  exists lpz : Scalar,
    (scalar_value lpz == A2C.gate_log_prob lib d nz)%Q
    /\ (A2C.participants d (length nz) = [] ->
        A2C.sample_from lib d eval_mode c nz v s
        = (Ok (repeat 0%Q (length nz)),
           A2C.append_saved_action
             {| A2C.log_prob := scalar_add (PyInt 0) lpz;
                A2C.value := v |} s))
    /\ (A2C.participants d (length nz) <> [] ->
        A2C.positive cwz = true -> length point = length cwz ->
        A2C.simplex point = true ->
        exists a,
          A2C.assemble (gates d (length nz)) (Some point) 0 = Ok a
          /\ A2C.sample_from lib d eval_mode c nz v s
             = (Ok a,
                A2C.append_saved_action
                  {| A2C.log_prob :=
                       scalar_add
                         (Tensor0 (A2C.Dirichlet_log_density lib cwz point))
                         lpz;
                     A2C.value := v |}
                  (A2C.append_concentration_stats (np_mean cwz)
                     (A2C.np_std lib cwz) s))).
Proof.
  intros Hlen. cbv zeta.
  destruct (gate_loop_total lib d c nz 0 A2C.no_gate) as (g & Eg);
    [simpl; lia|].
  pose proof (gate_loop_all _ _ _ _ _ Eg) as (Ha & Hc & Hl).
  exists (A2C.log_prob_for_zeros g). split; [exact Hl|]. split.
  - intros Hp. rewrite sample_from_eq, Eg, Hc, Ha.
    apply (participating_nil d c) in Hp as Hp'. rewrite Hp'.
    rewrite (assemble_all_abstain _ None 0 (gates_all_abstain d _ Hp)).
    rewrite length_map, length_seq. reflexivity.
  - intros Hp Hpos Hpl Hsx.
    destruct (assemble_total (gates d (length nz))
                (if eval_mode
                 then A2C.normalized (A2C.participating d c (length nz))
                 else A2C.rsample d (A2C.participating d c (length nz))) 0)
      as (a & Easm).
    { rewrite filter_negb_gates, <- (participating_length d c). simpl.
      apply Nat.eq_le_incl. symmetry. exact Hpl. }
    exists a. split; [exact Easm|].
    rewrite sample_from_eq, Eg, Hc, Ha.
    destruct (A2C.participating d c (length nz)) as [|c0 cs] eqn:Ep.
    { apply participating_nil in Ep. contradiction. }
    cbv zeta. rewrite (proj2 (Dirichlet_Ok (c0 :: cs)) Hpos).
    rewrite (Dirichlet_log_prob_returns lib _ _ Hpl Hsx).
    exact (f_equal2 pair Easm eq_refl).
Qed.

(** In evaluation mode the action is a function of the concentrations and
    of the draws. *)
Lemma eval_action (d : A2C.Draws) (c : Tensor1) (n : nat) :
  A2C.assemble (gates d n)
    (Some (A2C.normalized (A2C.participating d c n))) 0
  = Ok (map (fun i =>
               if A2C.bernoulli d i
               then (nth i c 0
                     / (Qsum (A2C.participating d c n)
                        + (1 # 10000000000000000)))%Q
               else 0%Q) (seq 0 n)).
Proof.
  unfold A2C.normalized. unfold A2C.participating at 2. rewrite map_map.
  unfold A2C.participants.
  rewrite <- (assemble_map d
    (fun i => (nth i c 0 / (Qsum (A2C.participating d c n)
                            + (1 # 10000000000000000)))%Q) (seq 0 n) [] []).
  rewrite app_nil_r. reflexivity.
Qed.

(** Runs [t] and records its value as the hypothesis [H]. *)
Ltac run_as H t :=
  let r := eval vm_compute in t in
  assert (H : t = r) by (vm_compute; reflexivity).

Lemma saved_after_select (sa : A2C.SavedAction) (m sd : Q) (s : A2C.t) :
  A2C.saved_actions
    (A2C.append_saved_action sa (A2C.append_concentration_stats m sd s))
  = A2C.saved_actions s ++ [sa].
Proof. reflexivity. Qed.

(** C2: the body of [select_action] after [self.forward()], on any
    concentrations, participation probabilities and value.  When it
    returns, the action has one entry per entry of [non_zero], that is one
    per node; every abstaining node gets exactly 0; if no node
    participates the action is all-zero; if at least one does, the entries
    of the action are those of the point that [log_prob] has validated, so
    they add up to 1 within 1e-6, hence within 1e-5.  It does return when
    no node participates, and otherwise exactly when the library accepts
    the concentrations and the point.  The last part is the link to the
    nodes: the parser's features have one row per node, and the actor's
    last lines give one concentration and one probability per row. *)
Theorem C2_action_vector (lib : A2C.Torch) (d : A2C.Draws)
  (eval_mode : bool) (c nz : Tensor1) (v : Tensor2) (s : A2C.t) :
  (length nz <= length c)%nat ->
  let N := length nz in
  let cwz := A2C.participating d c N in
  let point := if eval_mode then A2C.normalized cwz else A2C.rsample d cwz in
  (forall a s',
      A2C.sample_from lib d eval_mode c nz v s = (Ok a, s') ->
      length a = N
      /\ (forall i, (i < N)%nat -> A2C.bernoulli d i = false ->
                    nth_error a i = Some 0%Q)
      /\ (A2C.participants d N = [] -> a = repeat 0%Q N)
      /\ (A2C.participants d N <> [] ->
          (Qsum a == Qsum point)%Q
          /\ (Qabs (Qsum a - 1) < 1 # 1000000)%Q
          /\ (Qabs (Qsum a - 1) <= 1 # 100000)%Q))
  /\ (A2C.participants d N = [] ->
      exists s', A2C.sample_from lib d eval_mode c nz v s
                 = (Ok (repeat 0%Q N), s'))
  /\ (A2C.participants d N <> [] ->
      ((exists a s', A2C.sample_from lib d eval_mode c nz v s = (Ok a, s'))
       <-> (A2C.positive cwz = true /\ length point = length cwz
            /\ A2C.simplex point = true)))
  /\ (forall p version cd mc data net out_3 out,
         GNNParser.parse_obs p version cd mc true = Ok data ->
         A2C.GNNActor_head lib net (Data.x data) out_3 = Ok out ->
         length (fst out) = length (nodes (GNNParser.env p))
         /\ length (snd out) = length (nodes (GNNParser.env p))).
Proof.
  intros Hlen. cbv zeta. split; [|split; [|split]].
  - intros a s' H.
    destruct (sample_from_Ok _ _ _ _ _ _ _ _ _ H) as (lpz & _ & Hcase).
    assert (Hl : length a = length nz).
    { destruct Hcase as [(_ & -> & _)|(_ & lp & _ & Ha & _)].
      - apply repeat_length.
      - apply assemble_length in Ha. rewrite Ha, length_map, length_seq.
        reflexivity. }
    split; [exact Hl|]. split; [|split].
    + intros i Hi Hb. destruct Hcase as [(_ & -> & _)|(_ & lp & _ & Ha & _)].
      * rewrite nth_error_repeat by exact Hi. reflexivity.
      * eapply assemble_zero; [exact Ha|].
        rewrite nth_error_map, nth_error_seq.
        apply Nat.ltb_lt in Hi. rewrite Hi. simpl. rewrite Hb. reflexivity.
    + intros Hp. destruct Hcase as [(_ & -> & _)|(Hp' & _)];
        [reflexivity|contradiction].
    + intros Hp. destruct Hcase as [(Hp' & _)|(_ & lp & Hlp & Ha & _)];
        [contradiction|].
      cbv zeta in Hlp, Ha. apply Dirichlet_log_prob_Ok in Hlp.
      destruct Hlp as (Hpl & Hsx & _).
      assert (Hsum : (Qsum a == Qsum
        (if eval_mode
         then A2C.normalized (A2C.participating d c (length nz))
         else A2C.rsample d (A2C.participating d c (length nz))))%Q).
      { apply assemble_sum in Ha. rewrite filter_negb_gates in Ha.
        simpl skipn in Ha. rewrite Ha, firstn_all2; [reflexivity|].
        apply Nat.eq_le_incl. rewrite <- (participating_length d c).
        exact Hpl. }
      split; [exact Hsum|]. pose proof (simplex_sum _ Hsx) as Hs.
      rewrite <- Hsum in Hs. split; [exact Hs|].
      apply Qlt_le_weak. eapply Qlt_trans; [exact Hs|]. reflexivity.
  - intros Hp.
    destruct (sample_from_returns lib d eval_mode c nz v s Hlen)
      as (lpz & _ & H0 & _).
    eexists. exact (H0 Hp).
  - intros Hp. split.
    + intros (a & s' & H).
      destruct (sample_from_Ok _ _ _ _ _ _ _ _ _ H)
        as (lpz & _ & [(Hp' & _)|(_ & lp & Hlp & _ & _ & Hd)]);
        [contradiction|].
      cbv zeta in Hlp, Hd. apply Dirichlet_log_prob_Ok in Hlp.
      destruct Hlp as (Hpl & Hsx & _). apply Dirichlet_Ok in Hd. auto.
    + intros (Hpos & Hpl & Hsx).
      destruct (sample_from_returns lib d eval_mode c nz v s Hlen)
        as (lpz & _ & _ & H1).
      destruct (H1 Hp Hpos Hpl Hsx) as (a & _ & Ha). eauto.
  - intros p version cd mc data net out_3 out Hd Ho.
    apply parse_obs_rows in Hd. apply GNNActor_head_shape in Ho.
    rewrite <- Hd. exact Ho.
Qed.

(** Two nodes of concentrations 1 and 3, both participating, in
    evaluation mode: the call returns, and the action adds up to 1 within
    1e-5. *)
Lemma C2_action_vector_witness :
  exists a s',
    A2C.sample_from Examples.lib0 Examples.all_in true [1; 3]%Q
      [1 # 2; 1 # 2] [[0%Q]] (Examples.agent Examples.env2) = (Ok a, s')
    /\ length a = 2%nat
    /\ (Qabs (Qsum a - 1) <= 1 # 100000)%Q.
Proof.
  run_as Hs (A2C.sample_from Examples.lib0 Examples.all_in true [1; 3]%Q
               [1 # 2; 1 # 2] [[0%Q]] (Examples.agent Examples.env2)).
  do 2 eexists. split; [exact Hs|].
  destruct (C2_action_vector Examples.lib0 Examples.all_in true [1; 3]%Q
              [1 # 2; 1 # 2] [[0%Q]] (Examples.agent Examples.env2)
              (le_n 2)) as (P & _).
  destruct (P _ _ Hs) as (Hl & _ & _ & Hsum).
  split; [exact Hl|].
  exact (proj2 (proj2 (Hsum ltac:(discriminate)))).
Defined.

(** C3: the log-probability that the body of [select_action] records is
    the sum over all nodes of the gates' log-probabilities (log p for a
    participating node, log (1 - p) otherwise) plus a Dirichlet term: the
    library's log-density of the point used, over the participating nodes'
    concentrations, or exactly zero when no node participates.  In that
    case the call returns, with the all-zero action; with participating
    nodes it returns when the library accepts the concentrations and the
    point. *)
Theorem C3_recorded_log_prob (lib : A2C.Torch) (d : A2C.Draws)
  (eval_mode : bool) (c nz : Tensor1) (v : Tensor2) (s : A2C.t) :
  (length nz <= length c)%nat ->
  let N := length nz in
  let cwz := A2C.participating d c N in
  let point := if eval_mode then A2C.normalized cwz else A2C.rsample d cwz in
  (forall (a : list Q) (s' : A2C.t),
      A2C.sample_from lib d eval_mode c nz v s = (Ok a, s') ->
      exists (sa : A2C.SavedAction) (dirichlet_term : Q),
        A2C.saved_actions s' = A2C.saved_actions s ++ [sa]
        /\ A2C.value sa = v
        /\ (scalar_value (A2C.log_prob sa)
            == A2C.gate_log_prob lib d nz + dirichlet_term)%Q
        /\ (A2C.participants d N = [] -> dirichlet_term = 0%Q)
        /\ (A2C.participants d N <> [] ->
            dirichlet_term = A2C.Dirichlet_log_density lib cwz point))
  /\ (A2C.participants d N = [] ->
      exists s', A2C.sample_from lib d eval_mode c nz v s
                 = (Ok (repeat 0%Q N), s'))
  /\ (A2C.participants d N <> [] ->
      A2C.positive cwz = true -> length point = length cwz ->
      A2C.simplex point = true ->
      exists a s', A2C.sample_from lib d eval_mode c nz v s = (Ok a, s')).
Proof.
  intros Hlen. cbv zeta. split; [|split].
  - intros a s' H.
    destruct (sample_from_Ok _ _ _ _ _ _ _ _ _ H)
      as (lpz & Hl & [(Hp & _ & ->)|(Hp & lp & Hlp & _ & -> & _)]).
    + eexists. exists 0%Q. split; [reflexivity|]. split; [reflexivity|].
      cbn [A2C.log_prob]. rewrite scalar_add_value, Hl. simpl scalar_value.
      split; [ring|]. split; [reflexivity|contradiction].
    + eexists. exists lp. split; [apply saved_after_select|].
      split; [reflexivity|]. cbn [A2C.log_prob].
      rewrite scalar_add_value, Hl. simpl scalar_value.
      split; [ring|]. split; [contradiction|]. intros _.
      cbv zeta in Hlp. apply Dirichlet_log_prob_Ok in Hlp.
      exact (proj2 (proj2 Hlp)).
  - intros Hp.
    destruct (sample_from_returns lib d eval_mode c nz v s Hlen)
      as (lpz & _ & H0 & _).
    eexists. exact (H0 Hp).
  - intros Hp Hpos Hpl Hsx.
    destruct (sample_from_returns lib d eval_mode c nz v s Hlen)
      as (lpz & _ & _ & H1).
    destruct (H1 Hp Hpos Hpl Hsx) as (a & _ & Ha). eauto.
Qed.

(** Two nodes of concentrations 1 and 3, both participating, in sampling
    mode with the uniform point: the call returns and records the two
    gates' terms, log (1/2) twice (-1/2 each with the stand-in logarithm),
    plus the density's value, 4 with the stand-in density.  With both nodes
    abstaining the call returns the all-zero action. *)
Lemma C3_recorded_log_prob_witness :
  exists a s' sa s0,
    A2C.sample_from Examples.lib0 Examples.all_in false [1; 3]%Q
      [1 # 2; 1 # 2] [[0%Q]] (Examples.agent Examples.env2) = (Ok a, s')
    /\ A2C.saved_actions s' = [sa]
    /\ (A2C.gate_log_prob Examples.lib0 Examples.all_in [1 # 2; 1 # 2]
        == - (1))%Q
    /\ (scalar_value (A2C.log_prob sa) == - (1) + 4)%Q
    /\ A2C.sample_from Examples.lib0 Examples.all_out false [1; 3]%Q
         [1 # 2; 1 # 2] [[0%Q]] (Examples.agent Examples.env2)
       = (Ok [0; 0]%Q, s0).
Proof.
  run_as Hs (A2C.sample_from Examples.lib0 Examples.all_in false [1; 3]%Q
               [1 # 2; 1 # 2] [[0%Q]] (Examples.agent Examples.env2)).
  destruct (C3_recorded_log_prob Examples.lib0 Examples.all_in false
              [1; 3]%Q [1 # 2; 1 # 2] [[0%Q]] (Examples.agent Examples.env2)
              (le_n 2)) as (P & _).
  destruct (C3_recorded_log_prob Examples.lib0 Examples.all_out false
              [1; 3]%Q [1 # 2; 1 # 2] [[0%Q]] (Examples.agent Examples.env2)
              (le_n 2)) as (_ & P0 & _).
  destruct (P0 eq_refl) as (s0 & Hs0).
  destruct (P _ _ Hs) as (sa & term & Hsa & _ & Hlp & _ & Ht).
  do 2 eexists. exists sa, s0. split; [exact Hs|]. split; [exact Hsa|].
  split; [reflexivity|].
  split; [rewrite Hlp, (Ht ltac:(discriminate)); reflexivity|exact Hs0].
Defined.

(** C8 (as amended): in evaluation mode two calls of the body of
    [select_action] that see the same concentrations and participation
    probabilities and draw the same participations have the same outcome,
    the same action or the same exception, whatever their sampled points,
    the values and the agents' other fields; in the action each
    participating node gets its concentration divided by (the sum of the
    participating concentrations + 1e-16), each abstaining node 0. *)
Theorem C8_evaluation_mode_is_deterministic (lib : A2C.Torch)
  (d1 d2 : A2C.Draws) (c nz : Tensor1) (v1 v2 : Tensor2) (s1 s2 : A2C.t) :
  (forall i, (i < length nz)%nat -> A2C.bernoulli d1 i = A2C.bernoulli d2 i)
  ->
  fst (A2C.sample_from lib d1 true c nz v1 s1)
  = fst (A2C.sample_from lib d2 true c nz v2 s2)
  /\ (forall a s1',
         A2C.sample_from lib d1 true c nz v1 s1 = (Ok a, s1') ->
         a = map (fun i =>
                    if A2C.bernoulli d1 i
                    then (nth i c 0
                          / (Qsum (A2C.participating d1 c (length nz))
                             + (1 # 10000000000000000)))%Q
                    else 0%Q) (seq 0 (length nz))).
Proof.
  intros Hd. split.
  - rewrite !sample_from_eq.
    rewrite (gate_loop_ext lib d1 d2 c nz 0 A2C.no_gate)
      by (intros i Hi; apply Hd; simpl in Hi; lia).
    destruct (A2C.gate_loop lib d2 c 0 nz A2C.no_gate) as [g|]; [|reflexivity].
    destruct (A2C.concentration_without_zeros g) as [|c0 cs]; [reflexivity|].
    cbv zeta. destruct (A2C.Dirichlet (c0 :: cs)); [|reflexivity].
    destruct (A2C.Dirichlet_log_prob lib (c0 :: cs) _); reflexivity.
  - intros a s1' H.
    destruct (sample_from_Ok _ _ _ _ _ _ _ _ _ H)
      as (lpz & _ & [(Hp & -> & _)|(_ & lp & _ & Ha & _)]).
    + pose proof (eval_action d1 c (length nz)) as He.
      rewrite (assemble_all_abstain _ _ 0 (gates_all_abstain d1 _ Hp)) in He.
      rewrite length_map, length_seq in He. inversion He. reflexivity.
    + cbv zeta in Ha. rewrite eval_action in Ha. inversion Ha. reflexivity.
Qed.

(** Two evaluation-mode calls on two nodes whose draws differ in the
    sampled point only, from agents on different graphs. *)
Lemma C8_evaluation_mode_witness :
  exists a s1' s2',
    A2C.sample_from Examples.lib0 Examples.all_in true [1; 3]%Q
      [1 # 2; 1 # 2] [[0%Q]] (Examples.agent Examples.env2) = (Ok a, s1')
    /\ A2C.sample_from Examples.lib0 Examples.all_in' true [1; 3]%Q
         [1 # 2; 1 # 2] [[1%Q]] (Examples.agent Examples.env3) = (Ok a, s2').
Proof.
  run_as H1 (A2C.sample_from Examples.lib0 Examples.all_in true [1; 3]%Q
               [1 # 2; 1 # 2] [[0%Q]] (Examples.agent Examples.env2)).
  run_as H2 (A2C.sample_from Examples.lib0 Examples.all_in' true [1; 3]%Q
               [1 # 2; 1 # 2] [[1%Q]] (Examples.agent Examples.env3)).
  destruct (C8_evaluation_mode_is_deterministic Examples.lib0
              Examples.all_in Examples.all_in' [1; 3]%Q [1 # 2; 1 # 2]
              [[0%Q]] [[1%Q]] (Examples.agent Examples.env2)
              (Examples.agent Examples.env3) (fun _ _ => eq_refl))
    as (E & _).
  rewrite H1, H2 in E. cbn [fst] in E.
  do 3 eexists. split; [exact H1|].
  exact (eq_trans H2 (f_equal (fun r => (r, _)) (eq_sym E))).
Defined.

(** C8, against the claim as stated: the value a participating node gets
    is not the Dirichlet mean.  One node of concentration 2e-10
    participates, in evaluation mode: whatever the library's functions and
    the agent, the call returns (the point passes the validation: it is
    within 1e-6 of 1) and the node gets 2000000/2000001, while the mean of
    a one-node Dirichlet is 1. *)
Lemma C8_action_is_not_the_dirichlet_mean :
  (forall (lib : A2C.Torch) (s : A2C.t),
      exists s',
        A2C.sample_from lib Examples.all_in true [Examples.small] [1 # 2]
          [[0%Q]] s = (Ok (A2C.normalized [Examples.small]), s'))
  /\ Forall2 Qeq (A2C.normalized [Examples.small]) [2000000 # 2000001]
  /\ Forall2 Qeq (A2C.dirichlet_mean [Examples.small]) [1%Q]
  /\ ~ Forall2 Qeq (A2C.normalized [Examples.small])
         (A2C.dirichlet_mean [Examples.small]).
Proof.
  split; [|split; [|split]].
  - intros lib s.
    destruct (sample_from_returns lib Examples.all_in true [Examples.small]
                [1 # 2] [[0%Q]] s (le_n 1)) as (lpz & _ & _ & H).
    destruct (H ltac:(discriminate) eq_refl eq_refl
                ltac:(vm_compute; reflexivity)) as (a & Ha & Hs).
    change (A2C.assemble [false] (Some (A2C.normalized [Examples.small])) 0
            = Ok a) in Ha.
    cbn in Ha. inversion Ha; subst a. eexists. exact Hs.
  - repeat constructor.
  - repeat constructor.
  - intros H. inversion H as [|x y l l' Hxy _]. vm_compute in Hxy.
    discriminate.
Qed.

(** ** [training_step] *)

(** [training_step], stage by stage. *)
Lemma training_step_eq (lib : A2C.Torch) (s : A2C.t) :
  A2C.training_step lib s =
  match A2C.items (A2C.saved_actions s) with
  | Raise e => (Raise e, s)
  | Ok it =>
      match A2C.losses (A2C.saved_actions s)
              (A2C.normalize lib (A2C.eps s)
                 (discounted_returns (A2C.rewards s))) with
      | Raise e => (Raise e, s)
      | Ok ls =>
          match stack_sum (map fst ls) with
          | Raise e => (Raise e, s)
          | Ok al =>
              let known :=
                A2C.normalizable lib (A2C.eps s)
                  (discounted_returns (A2C.rewards s)) in
              let a_loss :=
                if known then Some (clamp al (- (1000)) 1000) else None in
              let s1 := A2C.apply_actor_step lib a_loss s in
              match stack_sum (map snd ls) with
              | Raise e => (Raise e, s1)
              | Ok vl =>
                  let v_loss := if known then Some vl else None in
                  (Ok {| A2C.a_loss := a_loss;
                         A2C.v_loss := v_loss;
                         A2C.mean_value := np_mean (map snd it);
                         A2C.mean_concentration :=
                           np_mean (A2C.means_concentration s);
                         A2C.mean_std := np_mean (A2C.std_concentration s);
                         A2C.mean_log_prob := np_mean (map fst it);
                         A2C.std_log_prob := A2C.np_std lib (map fst it) |},
                   A2C.reset_buffers (A2C.apply_critic_step lib v_loss s1))
              end
          end
      end
  end.
Proof.
  unfold A2C.training_step, A2C.bind, A2C.get, A2C.lift, A2C.modify, A2C.ret.
  destruct (A2C.items (A2C.saved_actions s)); [|reflexivity].
  destruct (A2C.losses _ _) as [ls|]; [|reflexivity].
  destruct (stack_sum (map fst ls)); [|reflexivity].
  cbv zeta. destruct (stack_sum (map snd ls)); reflexivity.
Qed.

Lemma stack_sum_Ok (l : list Q) (v : Q) : stack_sum l = Ok v -> l <> [].
Proof. destruct l; [discriminate|]. intros _ H. discriminate. Qed.

(** What a call of [training_step] does to the four buffers: it leaves the
    concentration statistics alone; it empties the other two when it
    returns and leaves them alone when it raises. *)
Lemma training_step_buffers (lib : A2C.Torch) (s s' : A2C.t)
  (r : Res A2C.Diagnostics) :
  A2C.training_step lib s = (r, s') ->
  A2C.means_concentration s' = A2C.means_concentration s
  /\ A2C.std_concentration s' = A2C.std_concentration s
  /\ ((exists diag, r = Ok diag
                    /\ A2C.saved_actions s' = [] /\ A2C.rewards s' = [])
      \/ (exists e, r = Raise e
                    /\ A2C.saved_actions s' = A2C.saved_actions s
                    /\ A2C.rewards s' = A2C.rewards s)).
Proof.
  rewrite training_step_eq.
  destruct (A2C.items (A2C.saved_actions s)).
  2:{ intros H; inversion H; subst. repeat split. right. eauto. }
  destruct (A2C.losses _ _) as [ls|].
  2:{ intros H; inversion H; subst. repeat split. right. eauto. }
  destruct (stack_sum (map fst ls)).
  2:{ intros H; inversion H; subst. repeat split. right. eauto. }
  cbv zeta. destruct (stack_sum (map snd ls)).
  - intros H; inversion H; subst. repeat split. left. eauto.
  - intros H; inversion H; subst. repeat split. right. eauto.
Qed.

Lemma items_Ok (l : list A2C.SavedAction) (it : list (Q * Q)) :
  A2C.items l = Ok it ->
  Forall (fun sa => numel (A2C.value sa) = 1%nat) l.
Proof.
  unfold A2C.items. revert it.
  induction l as [|sa l IH]; intros it Ei; [constructor|].
  simpl in Ei. destruct (scalar_item (A2C.log_prob sa)); simpl in Ei;
    [|discriminate].
  destruct (item (A2C.value sa)) as [v|] eqn:Ev; simpl in Ei;
    [|discriminate].
  destruct (mapM _ l) as [it'|] eqn:Em; [|discriminate].
  constructor; [exact (item_Ok_numel _ _ Ev)|]. exact (IH it' eq_refl).
Qed.

(** A returning [training_step] found a one-entry value in every saved
    action, and at least one saved action and one reward. *)
Lemma training_step_Ok (lib : A2C.Torch) (s s' : A2C.t)
  (diag : A2C.Diagnostics) :
  A2C.training_step lib s = (Ok diag, s') ->
  Forall (fun sa => numel (A2C.value sa) = 1%nat) (A2C.saved_actions s)
  /\ A2C.saved_actions s <> []
  /\ A2C.rewards s <> []
  /\ A2C.mean_concentration diag = np_mean (A2C.means_concentration s)
  /\ A2C.mean_std diag = np_mean (A2C.std_concentration s).
Proof.
  rewrite training_step_eq.
  destruct (A2C.items (A2C.saved_actions s)) as [it|] eqn:Ei; [|discriminate].
  destruct (A2C.losses _ _) as [ls|] eqn:El; [|discriminate].
  destruct (stack_sum (map fst ls)) as [al|] eqn:Ea; [|discriminate].
  cbv zeta. destruct (stack_sum (map snd ls)); [|discriminate].
  intros H. inversion H; subst. clear H. cbn [A2C.mean_concentration
    A2C.mean_std].
  assert (Hc : combine (A2C.saved_actions s)
                 (A2C.normalize lib (A2C.eps s)
                    (discounted_returns (A2C.rewards s))) <> []).
  { apply stack_sum_Ok in Ea. intros Hn. apply Ea.
    unfold A2C.losses in El. rewrite Hn in El. inversion El. reflexivity. }
  split; [|split; [|split; [|split; reflexivity]]].
  - exact (items_Ok _ _ Ei).
  - intros Hn. apply Hc. rewrite Hn. reflexivity.
  - intros Hn. apply Hc. rewrite Hn. unfold A2C.normalize. simpl.
    destruct (A2C.saved_actions s); reflexivity.
Qed.

(** A saved action whose value does not have exactly one entry makes
    [training_step] raise. *)
Lemma training_step_Raise (lib : A2C.Torch) (s : A2C.t)
  (sa : A2C.SavedAction) :
  In sa (A2C.saved_actions s) -> numel (A2C.value sa) <> 1%nat ->
  exists e, A2C.training_step lib s = (Raise e, s).
Proof.
  intros Hin Hn. rewrite training_step_eq.
  assert (Hr : exists e,
    (fun sa' => res_bind (scalar_item (A2C.log_prob sa'))
       (fun lp => res_bind (item (A2C.value sa')) (fun v => Ok (lp, v)))) sa
    = Raise e).
  { cbv beta. rewrite (item_Raise_numel _ Hn).
    destruct (scalar_item (A2C.log_prob sa)); simpl; eauto. }
  destruct Hr as (e & Hr).
  destruct (mapM_Raise _ _
              (fun sa' => res_bind (scalar_item (A2C.log_prob sa'))
                 (fun lp => res_bind (item (A2C.value sa'))
                    (fun v => Ok (lp, v))))
              _ sa e Hin Hr) as (e' & He').
  unfold A2C.items. rewrite He'. eauto.
Qed.

(** ** The buffers across the operations *)

(** What the body of [select_action] does to the four buffers: the
    rewards stay; the statistics grow by at most one entry each; one saved
    action is appended when it returns and none when it raises (the point
    that [log_prob] accepted has one entry per participating node, so the
    second loop cannot fail after the append). *)
Lemma sample_from_frame (lib : A2C.Torch) (d : A2C.Draws)
  (eval_mode : bool) (c nz : Tensor1) (v : Tensor2) (s s' : A2C.t)
  (r : Res (list Q)) :
  A2C.sample_from lib d eval_mode c nz v s = (r, s') ->
  A2C.rewards s' = A2C.rewards s
  /\ (exists m sd,
         A2C.means_concentration s' = A2C.means_concentration s ++ m
         /\ A2C.std_concentration s' = A2C.std_concentration s ++ sd)
  /\ ((exists a sa, r = Ok a
                    /\ A2C.saved_actions s' = A2C.saved_actions s ++ [sa]
                    /\ A2C.value sa = v)
      \/ (exists e, r = Raise e
                    /\ A2C.saved_actions s' = A2C.saved_actions s)).
Proof.
  assert (Hnil : exists m sd : list Q,
    A2C.means_concentration s = A2C.means_concentration s ++ m
    /\ A2C.std_concentration s = A2C.std_concentration s ++ sd).
  { exists [], []. rewrite !app_nil_r. auto. }
  rewrite sample_from_eq.
  destruct (A2C.gate_loop _ _ _ _ _ _) as [g|] eqn:Eg.
  2:{ intros H; inversion H; subst. split; [reflexivity|].
      split; [exact Hnil|]. right. eauto. }
  apply gate_loop_all in Eg. destruct Eg as (Ha & Hc & _). rewrite Ha, Hc.
  destruct (A2C.participating d c (length nz)) as [|c0 cs] eqn:Ep.
  { apply participating_nil in Ep.
    rewrite (assemble_all_abstain _ None 0 (gates_all_abstain d _ Ep)).
    intros H; inversion H; subst. split; [reflexivity|].
    split; [exact Hnil|]. left. do 2 eexists. repeat split. }
  cbv zeta. destruct (A2C.Dirichlet (c0 :: cs)) as [[]|].
  2:{ intros H; inversion H; subst. split; [reflexivity|].
      split; [simpl; eauto|]. right. eauto. }
  destruct (A2C.Dirichlet_log_prob lib (c0 :: cs) _) as [lp|] eqn:El.
  2:{ intros H; inversion H; subst. split; [reflexivity|].
      split; [simpl; eauto|]. right. eauto. }
  apply Dirichlet_log_prob_Ok in El. destruct El as (Hpl & _ & _).
  match goal with |- context [A2C.assemble ?arr (Some ?p) 0] =>
    destruct (assemble_total arr p 0) as (a & Easm) end.
  { rewrite filter_negb_gates, <- (participating_length d c), Ep. simpl.
    apply Nat.eq_le_incl. symmetry. exact Hpl. }
  intros H. injection H as H1 H2.
  assert (Hr : r = Ok a) by (rewrite <- H1; exact Easm).
  subst s'. split; [reflexivity|].
  split; [simpl; eauto|]. left. do 2 eexists. split; [exact Hr|].
  split; reflexivity.
Qed.

(** What a call of [select_action] does to the four buffers, whether it
    returns or raises. *)
Lemma select_action_frame (lib : A2C.Torch) (d : A2C.Draws)
  (eval_mode : bool) (s s' : A2C.t) (r : Res (list Q)) :
  A2C.select_action lib d eval_mode s = (r, s') ->
  A2C.rewards s' = A2C.rewards s
  /\ (exists m sd,
         A2C.means_concentration s' = A2C.means_concentration s ++ m
         /\ A2C.std_concentration s' = A2C.std_concentration s ++ sd)
  /\ (A2C.saved_actions s' = A2C.saved_actions s
      \/ exists sa, A2C.saved_actions s' = A2C.saved_actions s ++ [sa]).
Proof.
  rewrite select_action_eq.
  destruct (A2C.forward lib A2C.jitter s) as [out|].
  2:{ intros H; inversion H; subst. split; [reflexivity|]. split.
      - exists [], []. rewrite !app_nil_r. auto.
      - left. reflexivity. }
  intros H. destruct (sample_from_frame _ _ _ _ _ _ _ _ _ H)
    as (Hr & Hm & [(a & sa & _ & Hs & _)|(e & _ & Hs)]); eauto.
Qed.




(** ** The concentration statistics *)

Lemma decay_learning_rate_buffers (a c : Q) (s : A2C.t) :
  let s' := snd (A2C.decay_learning_rate a c s) in
  A2C.saved_actions s' = A2C.saved_actions s
  /\ A2C.rewards s' = A2C.rewards s
  /\ A2C.means_concentration s' = A2C.means_concentration s
  /\ A2C.std_concentration s' = A2C.std_concentration s.
Proof.
  cbv zeta. unfold A2C.decay_learning_rate, A2C.bind, A2C.modify, A2C.get,
    A2C.lift. cbn [fst snd A2C.adapted_lr_a A2C.adapted_lr_c
    A2C.with_learning_rates].
  destruct (A2C.configure_optimizers _ _); repeat split.
Qed.

Lemma run_keeps_statistics (lib : A2C.Torch) (o : A2C.Op) (s : A2C.t) :
  A2C.not_set_env o ->
  exists m sd,
    A2C.means_concentration (A2C.run lib o s)
    = A2C.means_concentration s ++ m
    /\ A2C.std_concentration (A2C.run lib o s)
       = A2C.std_concentration s ++ sd.
Proof.
  assert (Hnil : forall s' : A2C.t,
    A2C.means_concentration s' = A2C.means_concentration s ->
    A2C.std_concentration s' = A2C.std_concentration s ->
    exists m sd : list Q,
      A2C.means_concentration s' = A2C.means_concentration s ++ m
      /\ A2C.std_concentration s' = A2C.std_concentration s ++ sd).
  { intros s' -> ->. exists [], []. rewrite !app_nil_r. auto. }
  destruct o as [d ev| |r| |e|sa sc]; simpl; intros Ho.
  - destruct (A2C.select_action lib d ev s) as [r s'] eqn:E.
    exact (proj1 (proj2 (select_action_frame _ _ _ _ _ _ E))).
  - apply Hnil; reflexivity.
  - apply Hnil; reflexivity.
  - destruct (A2C.training_step lib s) as [r s'] eqn:E.
    destruct (training_step_buffers _ _ _ _ E) as (Hm & Hs & _).
    apply Hnil; assumption.
  - contradiction.
  - destruct (decay_learning_rate_buffers sa sc s) as (_ & _ & Hm & Hs).
    apply Hnil; assumption.
Qed.

(** C10: [training_step] leaves [means_concentration] and
    [std_concentration] as they were, whether it returns or raises, and the
    two concentration diagnostics it returns are the means of the whole
    buffers.  [set_env] empties both buffers, and no other operation ever
    removes an entry: after any operations other than [set_env] the old
    buffers are still there as a prefix.  So an update that follows a
    recorded step averages over all that the buffer held before that step
    as well. *)
Theorem C10_statistics_survive_training_step (lib : A2C.Torch) :
  (forall s,
      A2C.means_concentration (snd (A2C.training_step lib s))
      = A2C.means_concentration s
      /\ A2C.std_concentration (snd (A2C.training_step lib s))
         = A2C.std_concentration s)
  /\ (forall s diag s',
         A2C.training_step lib s = (Ok diag, s') ->
         A2C.mean_concentration diag = np_mean (A2C.means_concentration s)
         /\ A2C.mean_std diag = np_mean (A2C.std_concentration s))
  /\ (forall e s,
         A2C.means_concentration (snd (A2C.set_env e s)) = []
         /\ A2C.std_concentration (snd (A2C.set_env e s)) = [])
  /\ (forall ops s,
         Forall A2C.not_set_env ops ->
         exists m sd,
           A2C.means_concentration
             (fold_left (fun st o => A2C.run lib o st) ops s)
           = A2C.means_concentration s ++ m
           /\ A2C.std_concentration
                (fold_left (fun st o => A2C.run lib o st) ops s)
              = A2C.std_concentration s ++ sd)
  /\ (forall d eval_mode s c nz v a s1 r diag s2,
         A2C.forward lib A2C.jitter s = Ok (c, nz, v) ->
         A2C.select_action lib d eval_mode s = (Ok a, s1) ->
         A2C.participants d (length nz) <> [] ->
         A2C.training_step lib (snd (A2C.append_reward r s1))
         = (Ok diag, s2) ->
         A2C.mean_concentration diag
         = np_mean (A2C.means_concentration s
                    ++ [np_mean (A2C.participating d c (length nz))])
         /\ A2C.means_concentration s2
            = A2C.means_concentration s
              ++ [np_mean (A2C.participating d c (length nz))]).
Proof.
  split; [|split; [|split; [|split]]].
  - intros s. destruct (A2C.training_step lib s) as [r s'] eqn:E.
    destruct (training_step_buffers _ _ _ _ E) as (Hm & Hs & _). auto.
  - intros s diag s' H.
    destruct (training_step_Ok _ _ _ _ H) as (_ & _ & _ & Hm & Hs). auto.
  - intros e s. split; reflexivity.
  - induction ops as [|o ops IH]; intros s Ho.
    + exists [], []. rewrite !app_nil_r. auto.
    + inversion Ho as [|o' ops' Ho1 Ho2]; subst. simpl.
      destruct (run_keeps_statistics lib o s Ho1) as (m1 & sd1 & Hm1 & Hs1).
      destruct (IH (A2C.run lib o s) Ho2) as (m2 & sd2 & Hm2 & Hs2).
      exists (m1 ++ m2), (sd1 ++ sd2).
      rewrite Hm2, Hs2, Hm1, Hs1, !app_assoc. auto.
  - intros d eval_mode s c nz v a s1 r diag s2 Hf H Hp Ht.
    pose proof (select_action_Ok _ _ _ _ _ _ _ _ _ Hf H) as Hsf.
    destruct (sample_from_Ok _ _ _ _ _ _ _ _ _ Hsf)
      as (lpz & _ & [(Hp' & _)|(_ & lp & _ & _ & Hs1 & _)]); [contradiction|].
    destruct (training_step_Ok _ _ _ _ Ht) as (_ & _ & _ & Hm & _).
    destruct (training_step_buffers _ _ _ _ Ht) as (Hm2 & _).
    rewrite Hm, Hm2. cbv zeta in Hs1. rewrite Hs1. auto.
Qed.

(** Two episodes of two recorded steps each, without [set_env] in
    between: the second update returns the mean over all four steps, and
    leaves the four entries in place. *)
Lemma C10_statistics_witness :
  exists diag s3 ms,
    A2C.training_step Examples.lib0 Examples.second_episode = (Ok diag, s3)
    /\ A2C.means_concentration Examples.second_episode = ms
    /\ length ms = 4%nat
    /\ A2C.mean_concentration diag = np_mean ms
    /\ A2C.means_concentration s3 = ms.
Proof.
  run_as T2 (A2C.training_step Examples.lib0 Examples.second_episode).
  destruct (C10_statistics_survive_training_step Examples.lib0)
    as (P1 & P2 & _).
  do 3 eexists. split; [exact T2|]. split; [reflexivity|].
  split; [reflexivity|].
  split; [exact (proj1 (P2 _ _ _ T2))|].
  pose proof (proj1 (P1 Examples.second_episode)) as Hk.
  rewrite T2 in Hk. exact Hk.
Defined.

(** * The parser's outputs, the networks, and further properties *)

(** ** The edge builder *)

Lemma index_Ok (l : list Node) (n : Node) (k : nat) :
  GNNParser.index l n = Ok k -> nth_error l k = Some n /\ (k < length l)%nat.
Proof.
  revert k. induction l as [|m l IH]; intros k H; simpl in H; [discriminate|].
  destruct (node_eqb m n) eqn:E.
  - inversion H; subst. apply node_eqb_eq in E. subst. simpl. split; [auto|lia].
  - destruct (GNNParser.index l n) as [k'|]; [|discriminate].
    inversion H; subst. destruct (IH k' eq_refl) as (Hn & Hl).
    simpl. split; [exact Hn|lia].
Qed.

Lemma index_nth_NoDup (l : list Node) (i : nat) (n : Node) :
  NoDup l -> nth_error l i = Some n -> GNNParser.index l n = Ok i.
Proof.
  intros Hd Hn. destruct (nth_error_split l i Hn) as (pre & suf & -> & <-).
  apply index_app_fresh. intros Hin. apply NoDup_remove_2 in Hd.
  apply Hd. apply in_or_app. left. exact Hin.
Qed.

(** The columns of an edge index built from a scan, read as node pairs. *)
Lemma scan_edge_idx_In (rules : list (Node -> Node -> bool))
  (ns : list Node) (r : EdgeIndex) (i j : nat) :
  GNNParser.to_edge_idx ns (GNNParser.scan rules ns) = Ok r ->
  (In (i, j) r <->
   exists o d rule,
     In o ns /\ In d ns /\ In rule rules /\ rule o d = true
     /\ GNNParser.index ns o = Ok i /\ GNNParser.index ns d = Ok j).
Proof.
  intros H. unfold GNNParser.to_edge_idx in H.
  rewrite (mapM_Ok_In _ _ _ _ _ H (i, j)). split.
  - intros ([o d] & Hin & Hf). apply scan_In in Hin.
    destruct Hin as (Ho & Hd & rule & Hr & E). cbn [fst snd] in Hf.
    destruct (GNNParser.index ns o) as [i'|] eqn:Ei; simpl in Hf;
      [|discriminate].
    destruct (GNNParser.index ns d) as [j'|] eqn:Ej; simpl in Hf;
      [|discriminate].
    inversion Hf; subst. exists o, d, rule. auto 8.
  - intros (o & d & rule & Ho & Hd & Hr & E & Ei & Ej).
    exists (o, d). split.
    + apply scan_In. eauto.
    + cbn [fst snd]. rewrite Ei, Ej. reflexivity.
Qed.

Lemma grid_sym (o d : Node) : GNNParser.grid o d = GNNParser.grid d o.
Proof.
  unfold GNNParser.grid.
  destruct o as [o0 o1], d as [d0 d1]. cbn [fst snd].
  destruct (Z.eqb_spec o1 d1), (Z.eqb_spec d1 o1), (Z.eqb_spec o0 d0),
    (Z.eqb_spec d0 o0), (Z.eqb_spec o1 (d1 - 1)), (Z.eqb_spec d1 (o1 - 1)),
    (Z.eqb_spec o1 (d1 + 1)), (Z.eqb_spec d1 (o1 + 1));
    simpl; try reflexivity; lia.
Qed.

Lemma grid_irrefl (o : Node) : GNNParser.grid o o = false.
Proof.
  unfold GNNParser.grid. destruct o as [o0 o1]. cbn [fst snd].
  rewrite !Z.eqb_refl.
  destruct (Z.eqb_spec o1 (o1 - 1)), (Z.eqb_spec o1 (o1 + 1));
    simpl; try reflexivity; lia.
Qed.

(** Topology policy 3 yields an undirected graph without self-loops: with
    every column (i, j) the edge index holds (j, i), the two positions
    differ, and both are positions of the node list. *)
Theorem X_policy3_symmetric_without_self_loops (e : Env)
  (charge_delta max_charge : Z) (r : EdgeIndex) (i j : nat) :
  GNNParser.build_edge_index e 3 charge_delta max_charge = Ok r ->
  In (i, j) r ->
  In (j, i) r /\ i <> j
  /\ (i < length (nodes e))%nat /\ (j < length (nodes e))%nat.
Proof.
  unfold GNNParser.build_edge_index. simpl. intros H Hin.
  apply (scan_edge_idx_In _ _ _ _ _ H) in Hin.
  destruct Hin as (o & d & rule & Ho & Hd & [<-|[]] & E & Ei & Ej).
  destruct (index_Ok _ _ _ Ei) as (Hni & Hli).
  destruct (index_Ok _ _ _ Ej) as (Hnj & Hlj).
  split; [|split; [|split; assumption]].
  - apply (scan_edge_idx_In _ _ _ _ _ H).
    exists d, o, GNNParser.grid. rewrite grid_sym in E. simpl. auto 8.
  - intros <-. rewrite Hni in Hnj. inversion Hnj; subst.
    rewrite grid_irrefl in E. discriminate.
Qed.

(** The three-node example under policy 3. *)
Lemma X_policy3_witness :
  exists r,
    GNNParser.build_edge_index Examples.env3 3 1 1 = Ok r
    /\ In (0%nat, 1%nat) r /\ In (1%nat, 0%nat) r.
Proof.
  run_as H (GNNParser.build_edge_index Examples.env3 3 1 1).
  eexists. split; [exact H|].
  assert (Hin : In (0%nat, 1%nat)
    [(0, 1); (0, 2); (1, 0); (2, 0)]%nat) by (simpl; auto).
  split; [exact Hin|].
  exact (proj1 (X_policy3_symmetric_without_self_loops
                  Examples.env3 1 1 _ 0%nat 1%nat H Hin)).
Defined.

(** Over a duplicate-free node list, the edge index of policy 4 is the
    adjacency relation of its rule: (i, j) is a column exactly when i and j
    are positions of nodes that are equal, or differ in the region only, or
    differ by one charge level and not in the region. *)
Theorem X_policy4_is_the_rule (e : Env) (charge_delta max_charge : Z)
  (r : EdgeIndex) (i j : nat) :
  NoDup (nodes e) ->
  GNNParser.build_edge_index e 4 charge_delta max_charge = Ok r ->
  (In (i, j) r <->
   exists o d,
     nth_error (nodes e) i = Some o /\ nth_error (nodes e) j = Some d
     /\ ((fst o = fst d /\ snd o = snd d)
         \/ (fst o <> fst d /\ snd o = snd d)
         \/ (fst o = fst d /\ (snd o = snd d - 1 \/ snd o = snd d + 1)))%Z).
Proof.
  unfold GNNParser.build_edge_index. simpl. intros Hnd H.
  rewrite (scan_edge_idx_In _ _ _ i j H).
  assert (Hrule : forall o d : Node,
    GNNParser.grid_or_self o d = true <->
    ((fst o = fst d /\ snd o = snd d)
     \/ (fst o <> fst d /\ snd o = snd d)
     \/ (fst o = fst d /\ (snd o = snd d - 1 \/ snd o = snd d + 1)))%Z).
  { intros [o0 o1] [d0 d1]. unfold GNNParser.grid_or_self. cbn [fst snd].
    rewrite !orb_true_iff, !andb_true_iff, negb_true_iff, !Z.eqb_eq,
      Z.eqb_neq. lia. }
  split.
  - intros (o & d & rule & Ho & Hd & [<-|[]] & E & Ei & Ej).
    exists o, d. apply index_Ok in Ei, Ej. apply Hrule in E. tauto.
  - intros (o & d & Hi & Hj & E). exists o, d, GNNParser.grid_or_self.
    apply Hrule in E.
    repeat split; try assumption.
    + exact (nth_error_In _ _ Hi).
    + exact (nth_error_In _ _ Hj).
    + left; reflexivity.
    + exact (index_nth_NoDup _ _ _ Hnd Hi).
    + exact (index_nth_NoDup _ _ _ Hnd Hj).
Qed.

(** The three-node example under policy 4. *)
Lemma X_policy4_witness :
  exists r,
    NoDup (nodes Examples.env3)
    /\ GNNParser.build_edge_index Examples.env3 4 1 1 = Ok r
    /\ In (0%nat, 2%nat) r.
Proof.
  assert (Hnd : NoDup (nodes Examples.env3)).
  { simpl. unfold Examples.three_nodes.
    repeat constructor; simpl; intuition discriminate. }
  run_as H (GNNParser.build_edge_index Examples.env3 4 1 1).
  eexists. split; [exact Hnd|]. split; [exact H|].
  apply (proj2 (X_policy4_is_the_rule Examples.env3 1 1 _ 0%nat 2%nat Hnd H)).
  exists (0, 0)%Z, (1, 0)%Z. simpl. split; [reflexivity|].
  split; [reflexivity|]. right. left. split; [discriminate|reflexivity].
Defined.

(** The edge builder returns for every topology policy 0..6 and every
    node list ([list.index] never fails, since every end point comes from
    the list), and leaves [edge_index] unbound for every other selector. *)
Theorem X_build_edge_index_total (e : Env) (version charge_delta
  max_charge : Z) :
  ((0 <= version <= 6)%Z ->
   exists r,
     GNNParser.build_edge_index e version charge_delta max_charge = Ok r)
  /\ ((version < 0 \/ 6 < version)%Z ->
      GNNParser.build_edge_index e version charge_delta max_charge
      = Raise UnboundLocalError
      /\ forall p MPNN,
           GNNParser.env p = e ->
           forall data,
             GNNParser.parse_obs p version charge_delta max_charge MPNN
             <> Ok data).
Proof.
  split.
  - intros Hv.
    assert (Hc : (version = 0 \/ version = 1 \/ version = 2 \/ version = 3
                  \/ version = 4 \/ version = 5 \/ version = 6)%Z) by lia.
    unfold GNNParser.build_edge_index.
    destruct Hc as [->|[->|[->|[->|[->|[->| ->]]]]]]; simpl.
    + eauto.
    + apply scan_edge_idx_total.
    + destruct (scan_edge_idx_total [GNNParser.self_loop] (nodes e))
        as (r & ->). simpl. eauto.
    + apply scan_edge_idx_total.
    + apply scan_edge_idx_total.
    + destruct (scan_edge_idx_total
                  [GNNParser.artificial charge_delta max_charge;
                   GNNParser.infeasible charge_delta; GNNParser.unintuitive;
                   GNNParser.self_loop] (nodes e)) as (r & ->). simpl. eauto.
    + destruct (scan_edge_idx_total
                  [GNNParser.artificial charge_delta max_charge;
                   GNNParser.infeasible charge_delta; GNNParser.unintuitive]
                  (nodes e)) as (r & ->). simpl. eauto.
  - intros Hv.
    assert (E : GNNParser.build_edge_index e version charge_delta max_charge
                = Raise UnboundLocalError).
    { unfold GNNParser.build_edge_index.
      destruct (Z.eqb_spec version 0); [lia|].
      destruct (Z.eqb_spec version 1); [lia|].
      destruct (Z.eqb_spec version 2); [lia|].
      destruct (Z.eqb_spec version 3); [lia|].
      destruct (Z.eqb_spec version 4); [lia|].
      destruct (Z.eqb_spec version 5); [lia|].
      destruct (Z.eqb_spec version 6); [lia|]. reflexivity. }
    split; [exact E|]. intros p MPNN <- data H.
    apply parse_obs_edge_index in H. rewrite E in H. discriminate.
Qed.

(** Policy 5 contains the simulator's edges, the self-loops of policy 1
    and all of policy 6; policies 2 and 6 contain the simulator's edges. *)
Theorem X_policy5_contains (e : Env) (charge_delta max_charge : Z) :
  exists e1 e2 e5 e6,
    GNNParser.build_edge_index e 1 charge_delta max_charge = Ok e1
    /\ GNNParser.build_edge_index e 2 charge_delta max_charge = Ok e2
    /\ GNNParser.build_edge_index e 5 charge_delta max_charge = Ok e5
    /\ GNNParser.build_edge_index e 6 charge_delta max_charge = Ok e6
    /\ incl (gcn_edge_idx e) e2 /\ incl (gcn_edge_idx e) e5
    /\ incl (gcn_edge_idx e) e6 /\ incl e1 e5 /\ incl e6 e5.
Proof.
  unfold GNNParser.build_edge_index. simpl.
  destruct (scan_edge_idx_total [GNNParser.self_loop] (nodes e)) as (r1 & H1).
  destruct (scan_edge_idx_total
              [GNNParser.artificial charge_delta max_charge;
               GNNParser.infeasible charge_delta; GNNParser.unintuitive;
               GNNParser.self_loop] (nodes e)) as (r5 & H5).
  destruct (scan_edge_idx_total
              [GNNParser.artificial charge_delta max_charge;
               GNNParser.infeasible charge_delta; GNNParser.unintuitive]
              (nodes e)) as (r6 & H6).
  exists r1, (r1 ++ gcn_edge_idx e), (r5 ++ gcn_edge_idx e),
    (r6 ++ gcn_edge_idx e).
  rewrite H1, H5, H6. simpl.
  assert (Hsub : forall rules r,
    incl rules [GNNParser.artificial charge_delta max_charge;
                GNNParser.infeasible charge_delta; GNNParser.unintuitive;
                GNNParser.self_loop] ->
    GNNParser.to_edge_idx (nodes e) (GNNParser.scan rules (nodes e)) = Ok r ->
    incl r r5).
  { intros rules r Hi Hr. eapply to_edge_idx_incl; [|exact Hr|exact H5].
    intros [o d] Hin. apply scan_In in Hin. apply scan_In.
    destruct Hin as (Ho & Hd & rule & Hrule & E). eauto 8. }
  repeat split; try reflexivity.
  - apply incl_appr, incl_refl.
  - apply incl_appr, incl_refl.
  - apply incl_appr, incl_refl.
  - apply incl_appl. apply (Hsub [GNNParser.self_loop] r1); [|exact H1].
    intros x [<-|[]]. simpl. auto.
  - apply incl_app; [apply incl_appl|apply incl_appr, incl_refl].
    apply (Hsub [GNNParser.artificial charge_delta max_charge;
                 GNNParser.infeasible charge_delta; GNNParser.unintuitive]
             r6); [|exact H6].
    intros x Hx. simpl in *. tauto.
Qed.

(** ** Views and the feature matrices *)

Lemma view_cases (rows cols : nat) (flat : list Q) :
  (exists m, view rows cols flat = Ok m)
  \/ view rows cols flat = Raise RuntimeError.
Proof.
  unfold view. destruct (Nat.eqb (length flat) (rows * cols)); eauto.
Qed.

Lemma view_total (rows cols : nat) (flat : list Q) :
  length flat = (rows * cols)%nat -> exists m, view rows cols flat = Ok m.
Proof.
  intros H. unfold view. apply Nat.eqb_eq in H. rewrite H. eauto.
Qed.

Lemma view_mismatch (rows cols : nat) (flat : list Q) :
  length flat <> (rows * cols)%nat -> view rows cols flat = Raise RuntimeError.
Proof.
  intros H. unfold view. apply Nat.eqb_neq in H. rewrite H. reflexivity.
Qed.

Lemma view_width (rows cols : nat) (flat : list Q) (m : Tensor2) :
  view rows cols flat = Ok m -> Forall (fun row => length row = cols) m.
Proof.
  unfold view. destruct (Nat.eqb (length flat) (rows * cols)) eqn:E;
    [|discriminate].
  apply Nat.eqb_eq in E. intros H. inversion H. apply Forall_forall.
  intros row Hin. apply in_map_iff in Hin. destruct Hin as (i & <- & Hi).
  apply in_seq in Hi. rewrite length_firstn, length_skipn. nia.
Qed.

Lemma concat_length_const (c : nat) (m : Tensor2) :
  Forall (fun row => length row = c) m ->
  length (concat m) = (length m * c)%nat.
Proof.
  induction 1 as [|row m Hr Hm IH]; simpl; [reflexivity|].
  rewrite length_app, Hr, IH. reflexivity.
Qed.

Lemma view_concat_length (rows cols : nat) (flat : list Q) (m : Tensor2) :
  view rows cols flat = Ok m -> length (concat m) = (rows * cols)%nat.
Proof.
  intros H. rewrite (concat_length_const cols m (view_width _ _ _ _ H)).
  apply view_Ok in H. destruct H as (_ & ->). reflexivity.
Qed.

Lemma concat_map_length (A B : Type) (f : A -> B -> Q) (hs : list A)
  (ns : list B) :
  length (concat (map (fun h => map (f h) ns) hs))
  = (length hs * length ns)%nat.
Proof.
  induction hs as [|h hs IH]; simpl; [reflexivity|].
  rewrite length_app, length_map, IH. reflexivity.
Qed.

Lemma horizon_length (p : GNNParser.t) :
  length (GNNParser.horizon p) = GNNParser.T p.
Proof. apply length_seq. Qed.

(** [parse_obs]'s feature matrix exists exactly when [env.number_nodes] is
    the length of [env.nodes] and no division by a zero number of charge
    levels occurs; it then has one row per node and 2 + 2T columns.  A
    wrong [number_nodes] makes the first [view] raise. *)
Theorem X_node_features_shape (p : GNNParser.t) :
  (forall f,
      GNNParser.node_features p = Ok f ->
      number_nodes (GNNParser.env p) = length (nodes (GNNParser.env p))
      /\ (number_charge_levels (scenario (GNNParser.env p)) <> 0%Z
          \/ nodes (GNNParser.env p) = [])
      /\ length f = length (nodes (GNNParser.env p))
      /\ Forall (fun row => length row = (2 + 2 * GNNParser.T p)%nat) f)
  /\ (number_nodes (GNNParser.env p) = length (nodes (GNNParser.env p)) ->
      number_charge_levels (scenario (GNNParser.env p)) <> 0%Z
      \/ nodes (GNNParser.env p) = [] ->
      exists f, GNNParser.node_features p = Ok f)
  /\ (number_nodes (GNNParser.env p) <> length (nodes (GNNParser.env p)) ->
      number_charge_levels (scenario (GNNParser.env p)) <> 0%Z ->
      GNNParser.node_features p = Raise RuntimeError).
Proof.
  split; [|split].
  - intros f H. destruct (node_features_rows p f H) as (Hl & Hn).
    split; [exact Hn|].
    unfold GNNParser.node_features in H. cbv zeta in H.
    split.
    { revert H.
      destruct (Z.eqb_spec
                  (number_charge_levels (scenario (GNNParser.env p))) 0)
        as [Ez|Ez]; [|left; exact Ez].
      destruct (nodes (GNNParser.env p)); [right; reflexivity|].
      simpl. discriminate. }
    split; [exact Hl|].
    destruct (if Z.eqb _ 0 then _ else _) as [charge|]; simpl in H;
      [|discriminate].
    destruct (view 1 _ charge) as [f1|]; simpl in H; [|discriminate].
    destruct (view 1 _ (map _ _)) as [f2|]; simpl in H; [|discriminate].
    destruct (view (GNNParser.T p) _ _) as [f3|]; simpl in H; [|discriminate].
    destruct (view (GNNParser.T p) _ _) as [f4|]; simpl in H; [|discriminate].
    destruct (view (GNNParser.input_size p) _ _) as [rows|] eqn:Er;
      simpl in H; [|discriminate].
    inversion H. apply view_Ok in Er. destruct Er as (_ & Er).
    unfold transpose. apply Forall_forall. intros row Hin.
    apply in_map_iff in Hin. destruct Hin as (i & <- & _).
    rewrite length_map, Er. reflexivity.
  - intros Hn Hz. unfold GNNParser.node_features.
    set (e := GNNParser.env p) in *.
    assert (Hcharge : exists charge,
      (if Z.eqb (number_charge_levels (scenario e)) 0
       then match nodes e with
            | [] => Ok []
            | _ :: _ => Raise ZeroDivisionError
            end
       else Ok (map (fun nd => (inject_Z (snd nd)
                    / inject_Z (number_charge_levels (scenario e)))%Q)
                    (nodes e))) = Ok charge
      /\ length charge = length (nodes e)).
    { destruct (Z.eqb_spec (number_charge_levels (scenario e)) 0) as [Ez|Ez].
      - destruct Hz as [Hz|Hz]; [contradiction|]. rewrite Hz. eauto.
      - eexists. split; [reflexivity|]. apply length_map. }
    destruct Hcharge as (charge & -> & Hc). simpl res_bind.
    destruct (view_total 1 (number_nodes e) charge) as (f1 & E1); [lia|].
    rewrite E1. simpl res_bind.
    destruct (view_total 1 (number_nodes e)
      (map (fun nd => (acc e nd (time e + 1) * GNNParser.scale_factor p)%Q)
           (nodes e))) as (f2 & E2); [rewrite length_map; lia|].
    rewrite E2. simpl res_bind.
    match goal with |- context [view (GNNParser.T p) ?n ?l] =>
      destruct (view_total (GNNParser.T p) n l) as (f3 & E3) end.
    { rewrite concat_map_length, horizon_length. lia. }
    rewrite E3. simpl res_bind.
    match goal with |- context [view (GNNParser.T p) ?n ?l] =>
      destruct (view_total (GNNParser.T p) n l) as (f4 & E4) end.
    { rewrite concat_map_length, horizon_length. lia. }
    rewrite E4. simpl res_bind.
    destruct (view_total (GNNParser.input_size p) (number_nodes e)
                (concat (f1 ++ f2 ++ f3 ++ f4))) as (rows & Er).
    { rewrite !concat_app, !length_app.
      rewrite (view_concat_length _ _ _ _ E1), (view_concat_length _ _ _ _ E2),
        (view_concat_length _ _ _ _ E3), (view_concat_length _ _ _ _ E4).
      unfold GNNParser.input_size. lia. }
    rewrite Er. simpl. eauto.
  - intros Hn Hz. unfold GNNParser.node_features.
    apply Z.eqb_neq in Hz. rewrite Hz. simpl res_bind.
    rewrite view_mismatch; [reflexivity|]. rewrite length_map.
    intros Hc. apply Hn. rewrite Nat.mul_1_l in Hc. symmetry. exact Hc.
Qed.

(** The parser of the two-node example builds its feature matrix, of two
    rows of four entries. *)
Lemma X_node_features_witness :
  exists f,
    GNNParser.node_features (A2C.obs_parser (Examples.agent Examples.env2))
    = Ok f
    /\ length f = 2%nat
    /\ Forall (fun row => length row = 4%nat) f.
Proof.
  run_as Hf (GNNParser.node_features
               (A2C.obs_parser (Examples.agent Examples.env2))).
  eexists. split; [exact Hf|].
  destruct (X_node_features_shape
              (A2C.obs_parser (Examples.agent Examples.env2)))
    as (P1 & _).
  destruct (P1 _ Hf) as (_ & _ & Hl & Hw). split; [exact Hl|exact Hw].
Defined.

(** [parse_obs_spatial] returns only for a simulator without spatial
    nodes: its three blocks hold 1 + 2T feature rows, which it views as
    [input_size] = 2 + 2T rows, so with one spatial node or more the last
    [view] (or an earlier one) raises [RuntimeError]. *)
Theorem X_parse_obs_spatial_raises (p : GNNParser.t) (sp : GNNParser.Spatial) :
  (forall data,
      GNNParser.parse_obs_spatial p sp = Ok data ->
      GNNParser.nodes_spatial sp = []
      /\ GNNParser.number_nodes_spatial sp = 0%nat)
  /\ (GNNParser.nodes_spatial sp <> [] ->
      GNNParser.parse_obs_spatial p sp = Raise RuntimeError).
Proof.
  assert (P : forall data,
    GNNParser.parse_obs_spatial p sp = Ok data ->
    GNNParser.nodes_spatial sp = []
    /\ GNNParser.number_nodes_spatial sp = 0%nat).
  { intros data H. unfold GNNParser.parse_obs_spatial in H.
    match type of H with context [view 1 ?n ?l] =>
      destruct (view_cases 1 n l) as [(f1 & E1)|E1];
      rewrite E1 in H; simpl in H; [|discriminate] end.
    match type of H with context [view (GNNParser.T p) ?n ?l] =>
      destruct (view_cases (GNNParser.T p) n l) as [(f2 & E2)|E2];
      rewrite E2 in H; simpl in H; [|discriminate] end.
    match type of H with context [view (GNNParser.T p) ?n ?l] =>
      destruct (view_cases (GNNParser.T p) n l) as [(f3 & E3)|E3];
      rewrite E3 in H; simpl in H; [|discriminate] end.
    match type of H with context [view (GNNParser.input_size p) ?n ?l] =>
      destruct (view_cases (GNNParser.input_size p) n l)
        as [(rows & Er)|Er];
      rewrite Er in H; simpl in H; [|discriminate] end.
    apply view_Ok in Er. destruct Er as (Er & _).
    rewrite !concat_app, !length_app in Er.
    rewrite (view_concat_length _ _ _ _ E1), (view_concat_length _ _ _ _ E2),
      (view_concat_length _ _ _ _ E3) in Er.
    unfold GNNParser.input_size in Er.
    apply view_Ok in E1. destruct E1 as (E1 & _). rewrite length_map in E1.
    assert (Hz : GNNParser.number_nodes_spatial sp = 0%nat) by nia.
    split; [|exact Hz]. apply length_zero_iff_nil. lia. }
  split; [exact P|]. intros Hne.
  destruct (GNNParser.parse_obs_spatial p sp) as [data|e] eqn:E.
  { destruct (P data eq_refl) as (Hn & _). contradiction. }
  f_equal. unfold GNNParser.parse_obs_spatial in E.
  destruct (view_cases 1 (GNNParser.number_nodes_spatial sp)
    (map (fun nd => (GNNParser.acc_spatial sp nd (time (GNNParser.env p) + 1)
                     * GNNParser.scale_factor p)%Q)
         (GNNParser.nodes_spatial sp))) as [(f1 & E1)|E1];
    rewrite E1 in E; simpl in E; [|congruence].
  match type of E with context [view (GNNParser.T p) ?n ?l] =>
    destruct (view_cases (GNNParser.T p) n l) as [(f2 & E2)|E2];
    rewrite E2 in E; simpl in E; [|congruence] end.
  match type of E with context [view (GNNParser.T p) ?n ?l] =>
    destruct (view_cases (GNNParser.T p) n l) as [(f3 & E3)|E3];
    rewrite E3 in E; simpl in E; [|congruence] end.
  match type of E with context [view (GNNParser.input_size p) ?n ?l] =>
    destruct (view_cases (GNNParser.input_size p) n l) as [(rows & Er)|Er];
    rewrite Er in E; simpl in E; [discriminate|congruence] end.
Qed.

(** One spatial node, horizon 1: the call raises. *)
Lemma X_parse_obs_spatial_witness :
  GNNParser.nodes_spatial Examples.spatial1 <> []
  /\ GNNParser.parse_obs_spatial
       (A2C.obs_parser (Examples.agent Examples.env1)) Examples.spatial1
     = Raise RuntimeError.
Proof.
  assert (H : GNNParser.nodes_spatial Examples.spatial1 <> [])
    by discriminate.
  split; [exact H|].
  exact (proj2 (X_parse_obs_spatial_raises
                  (A2C.obs_parser (Examples.agent Examples.env1))
                  Examples.spatial1) H).
Defined.

(** ** EdgeConv *)

Lemma cat_dim1_Ok (a c r : Tensor2) :
  cat_dim1 a c = Ok r ->
  length a = length c
  /\ r = map (fun ab => fst ab ++ snd ab) (combine a c).
Proof.
  unfold cat_dim1. destruct (Nat.eqb (length a) (length c)) eqn:E;
    [|discriminate].
  apply Nat.eqb_eq in E. intros H. inversion H. auto.
Qed.

Lemma cat_dim1_cases (a c : Tensor2) :
  (exists r, cat_dim1 a c = Ok r) \/ cat_dim1 a c = Raise RuntimeError.
Proof.
  unfold cat_dim1. destruct (Nat.eqb (length a) (length c)); eauto.
Qed.

Lemma linear_cases (l : Linear) (m : Tensor2) :
  (exists r, linear l m = Ok r) \/ linear l m = Raise RuntimeError.
Proof.
  unfold linear. induction m as [|row m IH]; simpl; [eauto|].
  assert (Hrow : (exists v, linear_row l row = Ok v)
                 \/ linear_row l row = Raise RuntimeError).
  { unfold linear_row.
    destruct (Nat.eqb (length row) (in_features l)); eauto. }
  destruct Hrow as [(v & ->)| ->]; [|auto].
  destruct IH as [(r & ->)| ->]; eauto.
Qed.

Lemma linear_Ok_in_width (l : Linear) (m r : Tensor2) :
  linear l m = Ok r -> Forall (fun row => length row = in_features l) m.
Proof.
  unfold linear. revert r. induction m as [|row m IH]; intros r H;
    [constructor|].
  simpl in H. unfold linear_row at 1 in H.
  destruct (Nat.eqb (length row) (in_features l)) eqn:E; [|discriminate].
  destruct (mapM (linear_row l) m) as [r'|] eqn:Em; [|discriminate].
  apply Nat.eqb_eq in E. constructor; [exact E|]. exact (IH r' eq_refl).
Qed.

Lemma combine_nth_error (A B : Type) (a : list A) (c : list B) (k : nat)
  (u : A) (w : B) :
  nth_error a k = Some u -> nth_error c k = Some w ->
  nth_error (combine a c) k = Some (u, w).
Proof.
  revert c k. induction a as [|a0 a IH]; intros c k Ha Hc.
  - destruct k; discriminate.
  - destruct c as [|c0 c]; [destruct k; discriminate|].
    destruct k as [|k]; simpl in *.
    + inversion Ha; inversion Hc; reflexivity.
    + apply IH; assumption.
Qed.

Lemma mlp_cases (ec : EdgeConv.t) (m : Tensor2) :
  (exists r, EdgeConv.mlp ec m = Ok r)
  \/ EdgeConv.mlp ec m = Raise RuntimeError.
Proof.
  unfold EdgeConv.mlp.
  destruct (linear_cases (nn_Linear (EdgeConv.in_channels ec)
              (EdgeConv.out_channels ec) (EdgeConv.mlp0 ec)) m)
    as [(h & ->)| ->]; simpl; [|auto].
  apply linear_cases.
Qed.

(** [EdgeConv.message] returns only when, edge by edge, the widths of the
    two end points' features and of the edge's features add up to the
    perceptron's [in_channels]; every failure is a [RuntimeError].  When
    [in_channels] is the width of the edge features alone, as for the
    [EdgeConv(T * 3, ...)] of the actor and the critic, it raises as soon
    as there is one edge and the node features are not empty. *)
Theorem X_EdgeConv_message_widths (ec : EdgeConv.t)
  (x_i x_j edge_attr : Tensor2) :
  (forall r,
      EdgeConv.message ec x_i x_j edge_attr = Ok r ->
      length x_j = length x_i /\ length edge_attr = length x_i
      /\ length r = length x_i
      /\ forall k ri rj re,
           nth_error x_i k = Some ri -> nth_error x_j k = Some rj ->
           nth_error edge_attr k = Some re ->
           (length ri + length rj + length re)%nat
           = EdgeConv.in_channels ec)
  /\ (x_i <> [] ->
      Forall (fun row => row <> []) x_i ->
      Forall (fun row => length row = EdgeConv.in_channels ec) edge_attr ->
      EdgeConv.message ec x_i x_j edge_attr = Raise RuntimeError).
Proof.
  assert (P : forall r,
    EdgeConv.message ec x_i x_j edge_attr = Ok r ->
    length x_j = length x_i /\ length edge_attr = length x_i
    /\ length r = length x_i
    /\ forall k ri rj re,
         nth_error x_i k = Some ri -> nth_error x_j k = Some rj ->
         nth_error edge_attr k = Some re ->
         (length ri + length rj + length re)%nat = EdgeConv.in_channels ec).
  { intros r H. unfold EdgeConv.message in H.
    destruct (cat_dim1 x_i x_j) as [xs|] eqn:E1; simpl in H; [|discriminate].
    destruct (cat_dim1 xs edge_attr) as [tmp|] eqn:E2; simpl in H;
      [|discriminate].
    unfold EdgeConv.mlp in H.
    destruct (linear _ tmp) as [h|] eqn:E3; simpl in H; [|discriminate].
    pose proof (cat_dim1_length _ _ _ E1) as L1.
    pose proof (cat_dim1_length _ _ _ E2) as L2.
    apply cat_dim1_Ok in E1, E2. destruct E1 as (La & ->).
    destruct E2 as (Lb & ->).
    apply linear_length in H. rewrite length_map in H.
    pose proof (linear_length _ _ _ E3) as L3.
    apply linear_Ok_in_width in E3. cbn [nn_Linear in_features] in E3.
    repeat split; try lia.
    intros k ri rj re Hi Hj He. rewrite Forall_forall in E3.
    rewrite <- (E3 ((ri ++ rj) ++ re)); [rewrite !length_app; reflexivity|].
    apply (nth_error_In _ k). rewrite nth_error_map.
    rewrite (combine_nth_error _ _ _ _ k (ri ++ rj) re); [reflexivity| |exact He].
    rewrite nth_error_map, (combine_nth_error _ _ _ _ k ri rj Hi Hj).
    reflexivity. }
  split; [exact P|]. intros Hne Hrows Hattr.
  destruct (EdgeConv.message ec x_i x_j edge_attr) as [r|e] eqn:E.
  - exfalso. destruct (P r eq_refl) as (Lj & La & _ & Hk).
    destruct x_i as [|ri x_i']; [contradiction|].
    destruct x_j as [|rj x_j']; [discriminate|].
    destruct edge_attr as [|re ea']; [discriminate|].
    specialize (Hk 0%nat ri rj re eq_refl eq_refl eq_refl).
    inversion Hrows; subst. inversion Hattr; subst.
    destruct ri; [congruence|]. simpl in Hk. lia.
  - f_equal. unfold EdgeConv.message in E.
    destruct (cat_dim1_cases x_i x_j) as [(xs & E1)|E1]; rewrite E1 in E;
      simpl in E; [|congruence].
    destruct (cat_dim1_cases xs edge_attr) as [(tmp & E2)|E2];
      rewrite E2 in E; simpl in E; [|congruence].
    destruct (mlp_cases ec tmp) as [(r & E3)|E3]; rewrite E3 in E;
      congruence.
Qed.

(** With one-entry rows the widths add up to 3 and the call returns; with
    an edge row of 3 entries, the width [in_channels] itself, it raises. *)
Lemma X_EdgeConv_message_witness :
  exists r,
    EdgeConv.message Examples.edge_conv3 [[1%Q]] [[2%Q]] [[3%Q]] = Ok r
    /\ length r = 1%nat
    /\ EdgeConv.message Examples.edge_conv3 [[1%Q]] [[2%Q]] [[3; 4; 5]%Q]
       = Raise RuntimeError.
Proof.
  run_as H (EdgeConv.message Examples.edge_conv3 [[1%Q]] [[2%Q]] [[3%Q]]).
  eexists. split; [exact H|].
  split.
  - exact (proj1 (proj2 (proj2 (proj1 (X_EdgeConv_message_widths
      Examples.edge_conv3 [[1%Q]] [[2%Q]] [[3%Q]]) _ H)))).
  - apply (proj2 (X_EdgeConv_message_widths Examples.edge_conv3
                    [[1%Q]] [[2%Q]] [[3; 4; 5]%Q])).
    + discriminate.
    + repeat constructor. discriminate.
    + repeat constructor.
Defined.

(** ** The edge features *)

Lemma nth_map_seq (A : Type) (f : nat -> A) (n i : nat) (d : A) :
  (i < n)%nat -> nth i (map f (seq 0 n)) d = f i.
Proof.
  intros H. rewrite (nth_indep _ d (f 0%nat)) by
    (rewrite length_map, length_seq; exact H).
  rewrite (map_nth f), seq_nth by exact H. reflexivity.
Qed.

Lemma transpose_nth (cols : nat) (m : Tensor2) (i j : nat) :
  (i < cols)%nat -> (j < length m)%nat ->
  nth j (nth i (transpose cols m) []) 0%Q = nth i (nth j m []) 0%Q.
Proof.
  intros Hi Hj. unfold transpose. rewrite nth_map_seq by exact Hi.
  rewrite (nth_indep _ 0%Q ((fun row => nth i row 0%Q) []))
    by (rewrite length_map; exact Hj).
  rewrite (map_nth (fun row => nth i row 0%Q)). reflexivity.
Qed.

Lemma view_nth (rows cols : nat) (flat : list Q) (m : Tensor2) (j i : nat) :
  view rows cols flat = Ok m -> (j < rows)%nat -> (i < cols)%nat ->
  nth i (nth j m []) 0%Q = nth (j * cols + i) flat 0%Q.
Proof.
  unfold view. destruct (Nat.eqb (length flat) (rows * cols)); [|discriminate].
  intros H Hj Hi. inversion H. rewrite nth_map_seq by exact Hj.
  rewrite nth_firstn. apply Nat.ltb_lt in Hi. rewrite Hi.
  apply nth_skipn.
Qed.

Lemma edge_row_cases (p : GNNParser.t) (c : nat * nat) :
  (exists q, GNNParser.edge_row p c = Ok q
             /\ length q = (GNNParser.T p * 3)%nat
             /\ (fst c < length (nodes (GNNParser.env p)))%nat
             /\ (snd c < length (nodes (GNNParser.env p)))%nat)
  \/ (GNNParser.edge_row p c = Raise IndexError
      /\ (length (nodes (GNNParser.env p)) <= fst c
          \/ length (nodes (GNNParser.env p)) <= snd c)%nat).
Proof.
  unfold GNNParser.edge_row, GNNParser.node_at.
  destruct (nth_error (nodes (GNNParser.env p)) (fst c)) as [o|] eqn:Eo.
  2:{ right. apply nth_error_None in Eo. auto. }
  destruct (nth_error (nodes (GNNParser.env p)) (snd c)) as [d|] eqn:Ed.
  2:{ right. apply nth_error_None in Ed. auto. }
  left. simpl res_bind.
  assert (Ho : (fst c < length (nodes (GNNParser.env p)))%nat)
    by (apply nth_error_Some; congruence).
  assert (Hd : (snd c < length (nodes (GNNParser.env p)))%nat)
    by (apply nth_error_Some; congruence).
  destruct (existsb _ _); eexists; (split; [reflexivity|]);
    (split; [|auto]);
    rewrite !length_app, ?length_map, ?repeat_length, ?horizon_length; lia.
Qed.

(** The edge-feature matrix exists exactly when every column of the edge
    index names two positions of the node list (otherwise [IndexError]).
    It has one row of 3T entries per edge; but its entry (i, j) is entry
    number j * E + i of the E rows built edge by edge and laid end to end,
    not entry j of edge i's own row: the rows are viewed as 3T x E and
    transposed. *)
Theorem X_edge_features_layout (p : GNNParser.t) (ei : EdgeIndex) :
  (forall m,
      GNNParser.edge_features p ei = Ok m ->
      exists rows,
        mapM (GNNParser.edge_row p) ei = Ok rows
        /\ Forall (fun q => length q = (GNNParser.T p * 3)%nat) rows
        /\ length m = length ei
        /\ forall i j,
             (i < length ei)%nat -> (j < GNNParser.T p * 3)%nat ->
             nth j (nth i m []) 0%Q
             = nth (j * length ei + i) (concat rows) 0%Q)
  /\ (Forall (fun c => (fst c < length (nodes (GNNParser.env p)))%nat
                       /\ (snd c < length (nodes (GNNParser.env p)))%nat) ei
      -> exists m, GNNParser.edge_features p ei = Ok m)
  /\ (forall c,
         In c ei ->
         (length (nodes (GNNParser.env p)) <= fst c
          \/ length (nodes (GNNParser.env p)) <= snd c)%nat ->
         GNNParser.edge_features p ei = Raise IndexError).
Proof.
  assert (Hrows : forall rows,
    mapM (GNNParser.edge_row p) ei = Ok rows ->
    Forall (fun q => length q = (GNNParser.T p * 3)%nat) rows).
  { intros rows. apply mapM_Forall. intros c q Hq.
    destruct (edge_row_cases p c) as [(q' & E & Hl & _)|(E & _)];
      rewrite E in Hq; [|discriminate].
    inversion Hq; subst. exact Hl. }
  assert (Hview : forall rows,
    mapM (GNNParser.edge_row p) ei = Ok rows ->
    length (concat rows) = (GNNParser.T p * 3 * length ei)%nat).
  { intros rows H. rewrite (concat_length_const _ _ (Hrows rows H)).
    rewrite (mapM_length _ _ _ _ _ H). lia. }
  split; [|split].
  - intros m H. unfold GNNParser.edge_features in H.
    destruct (mapM (GNNParser.edge_row p) ei) as [rows|] eqn:Er;
      simpl in H; [|discriminate].
    destruct (view _ _ (concat rows)) as [mm|] eqn:Ev; simpl in H;
      [|discriminate].
    inversion H; subst m. exists rows. split; [reflexivity|].
    split; [exact (Hrows rows eq_refl)|]. split.
    + unfold transpose. rewrite length_map, length_seq. reflexivity.
    + intros i j Hi Hj.
      rewrite transpose_nth;
        [|exact Hi|apply view_Ok in Ev; destruct Ev as (_ & ->); exact Hj].
      exact (view_nth _ _ _ _ j i Ev Hj Hi).
  - intros Hall. unfold GNNParser.edge_features.
    destruct (mapM_total _ _ (GNNParser.edge_row p) ei) as (rows & Er).
    { intros c Hc. rewrite Forall_forall in Hall.
      destruct (edge_row_cases p c) as [(q & E & _)|(_ & Hbad)]; [eauto|].
      specialize (Hall c Hc). lia. }
    rewrite Er. simpl res_bind.
    destruct (view_total (GNNParser.T p * 3) (length ei) (concat rows))
      as (mm & ->); [exact (Hview rows Er)|].
    simpl. eauto.
  - intros c Hc Hbad. unfold GNNParser.edge_features.
    assert (Hr : GNNParser.edge_row p c = Raise IndexError).
    { destruct (edge_row_cases p c) as [(q & _ & _ & H1 & H2)|(E & _)];
        [lia|exact E]. }
    assert (Hm : mapM (GNNParser.edge_row p) ei = Raise IndexError).
    { clear Hrows Hview. induction ei as [|c0 ei IH]; [contradiction|].
      simpl.
      destruct (edge_row_cases p c0) as [(q & E & _)|(E & _)];
        rewrite E; [|reflexivity].
      destruct Hc as [->|Hc]; [rewrite Hr in E; discriminate|].
      rewrite (IH Hc). reflexivity. }
    rewrite Hm. reflexivity.
Qed.

(** Two edges, horizon 1; only the first is an edge of the simulator, so
    the rows built are [1; 1; 1] and [0; 0; 0]; the matrix returned holds
    [1; 1; 0] for the first edge and [1; 0; 0] for the second. *)
Lemma X_edge_features_witness :
  exists m,
    GNNParser.edge_features
      (A2C.obs_parser (Examples.agent Examples.env2_two_edges))
      [(0, 1); (1, 0)]%nat = Ok m
    /\ mapM (GNNParser.edge_row
               (A2C.obs_parser (Examples.agent Examples.env2_two_edges)))
         [(0, 1); (1, 0)]%nat = Ok [[1; 1; 1]; [0; 0; 0]]%Q
    /\ m = [[1; 1; 0]; [1; 0; 0]]%Q
    /\ nth 0 (nth 1 m []) 0%Q = nth (0 * 2 + 1) [1; 1; 1; 0; 0; 0]%Q 0%Q.
Proof.
  run_as H (GNNParser.edge_features
              (A2C.obs_parser (Examples.agent Examples.env2_two_edges))
              [(0, 1); (1, 0)]%nat).
  eexists. split; [exact H|]. split; [reflexivity|]. split; [reflexivity|].
  destruct (proj1 (X_edge_features_layout
                     (A2C.obs_parser (Examples.agent Examples.env2_two_edges))
                     [(0, 1); (1, 0)]%nat) _ H)
    as (rows & Hr & _ & _ & Hn).
  vm_compute in Hr. inversion Hr; subst rows.
  exact (Hn 1%nat 0%nat ltac:(simpl; lia) ltac:(simpl; lia)).
Defined.

(** ** The networks *)

Lemma index_select_total (x : Tensor2) (index : list nat) :
  Forall (fun i => (i < length x)%nat) index ->
  exists r, index_select x index = Ok r.
Proof.
  intros H. apply mapM_total. intros i Hi. rewrite Forall_forall in H.
  destruct (nth_error x i) as [row|] eqn:E; [eauto|].
  apply nth_error_None in E. specialize (H i Hi). lia.
Qed.

Lemma message_cases (ec : EdgeConv.t) (x_i x_j edge_attr : Tensor2) :
  (exists r, EdgeConv.message ec x_i x_j edge_attr = Ok r)
  \/ EdgeConv.message ec x_i x_j edge_attr = Raise RuntimeError.
Proof.
  unfold EdgeConv.message.
  destruct (cat_dim1_cases x_i x_j) as [(xs & ->)| ->]; simpl; [|auto].
  destruct (cat_dim1_cases xs edge_attr) as [(tmp & ->)| ->]; simpl; [|auto].
  apply mlp_cases.
Qed.

(** [EdgeConv.forward] returns only when twice the width of [x] and the
    width of [edge_attr] add up to the perceptron's [in_channels]. *)
Lemma EdgeConv_forward_Ok (aggregate : Tensor2 -> list nat -> nat -> Tensor2)
  (ec : EdgeConv.t) (x_width attr_width : nat) (x : Tensor2)
  (edge_index : EdgeIndex) (edge_attr : option Tensor2) (r : Tensor2) :
  EdgeConv.forward aggregate ec x_width attr_width x edge_index edge_attr
  = Ok r ->
  (x_width + x_width + attr_width)%nat = EdgeConv.in_channels ec.
Proof.
  unfold EdgeConv.forward. intros H.
  destruct (index_select x (map snd edge_index)); simpl in H; [|discriminate].
  destruct (index_select x (map fst edge_index)); simpl in H; [|discriminate].
  destruct edge_attr as [ea|]; [|discriminate].
  destruct (EdgeConv.message ec _ _ ea); simpl in H; [|discriminate].
  destruct (Nat.eqb _ _) eqn:E; [|discriminate].
  apply Nat.eqb_eq. exact E.
Qed.

(** With edges between rows of [x] and edge features, a mismatch of the
    widths makes [EdgeConv.forward] raise [RuntimeError]. *)
Lemma EdgeConv_forward_mismatch
  (aggregate : Tensor2 -> list nat -> nat -> Tensor2) (ec : EdgeConv.t)
  (x_width attr_width : nat) (x : Tensor2) (edge_index : EdgeIndex)
  (ea : Tensor2) :
  (x_width + x_width + attr_width)%nat <> EdgeConv.in_channels ec ->
  Forall (fun c => (fst c < length x)%nat /\ (snd c < length x)%nat)
         edge_index ->
  EdgeConv.forward aggregate ec x_width attr_width x edge_index (Some ea)
  = Raise RuntimeError.
Proof.
  intros Hw Hin. unfold EdgeConv.forward.
  destruct (index_select_total x (map snd edge_index)) as (x_i & ->).
  { apply Forall_forall. intros i Hi. apply in_map_iff in Hi.
    destruct Hi as (c & <- & Hc). rewrite Forall_forall in Hin.
    exact (proj2 (Hin c Hc)). }
  destruct (index_select_total x (map fst edge_index)) as (x_j & ->).
  { apply Forall_forall. intros i Hi. apply in_map_iff in Hi.
    destruct Hi as (c & <- & Hc). rewrite Forall_forall in Hin.
    exact (proj1 (Hin c Hc)). }
  simpl. destruct (message_cases ec x_i x_j ea) as [(out & ->)| ->];
    [|reflexivity].
  simpl. apply Nat.eqb_neq in Hw. rewrite Hw. reflexivity.
Qed.

(** The widths the parser gives never fit [EdgeConv(T * 3, ...)]:
    2 (2 + 2T) + 3T is not 3T. *)
Lemma econv1_mismatch (net : Network) :
  (2 + 2 * net_T net + (2 + 2 * net_T net) + net_T net * 3)%nat
  <> EdgeConv.in_channels (econv1 net).
Proof. unfold econv1. cbn [EdgeConv.in_channels]. lia. Qed.

(** So the message passing of a network never returns on features of the
    parser's widths. *)
Lemma message_passing_raises (lib : A2C.Torch) (net : Network)
  (data : Data.t) :
  exists e,
    A2C.message_passing lib net (2 + 2 * net_T net) (net_T net * 3) data
    = Raise e.
Proof.
  unfold A2C.message_passing. cbv zeta.
  destruct (A2C.GCNConv lib _ _ _ _ _); simpl; [|eauto].
  destruct (EdgeConv.forward _ _ _ _ _ _ _) as [oe|] eqn:E; [|simpl; eauto].
  apply EdgeConv_forward_Ok in E. exfalso. exact (econv1_mismatch net E).
Qed.

(** With MPNN the parser returns edge features, and an edge index whose
    entries are rows of the feature matrix. *)
Lemma parse_obs_MPNN (p : GNNParser.t) (version cd mc : Z) (data : Data.t) :
  GNNParser.parse_obs p version cd mc true = Ok data ->
  (exists ea, Data.edge_attr data = Some ea)
  /\ Forall (fun c => (fst c < length (Data.x data))%nat
                      /\ (snd c < length (Data.x data))%nat)
            (Data.edge_index data).
Proof.
  unfold GNNParser.parse_obs. intros H.
  destruct (GNNParser.node_features p) as [f|] eqn:Ef; simpl in H;
    [|discriminate].
  apply node_features_rows in Ef. destruct Ef as [Ef _].
  destruct (GNNParser.build_edge_index _ _ _ _) as [ei|]; simpl in H;
    [|discriminate].
  destruct (GNNParser.edge_features p ei) as [ea|] eqn:Ee; simpl in H;
    [|discriminate].
  inversion H; subst data. cbn [Data.x Data.edge_index Data.edge_attr].
  split; [eauto|]. unfold GNNParser.edge_features in Ee.
  destruct (mapM (GNNParser.edge_row p) ei) as [rows|] eqn:Er;
    [|discriminate].
  apply Forall_forall. intros c Hc. rewrite Ef.
  destruct (edge_row_cases p c) as [(q & _ & _ & H1 & H2)|(E & _)]; [auto|].
  destruct (mapM_Raise _ _ (GNNParser.edge_row p) ei c IndexError Hc E)
    as (e' & He'). congruence.
Qed.

Lemma message_passing_RuntimeError (lib : A2C.Torch) (net : Network)
  (p : GNNParser.t) (version cd mc : Z) (data : Data.t) (out_1 : Tensor2) :
  GNNParser.T p = net_T net ->
  GNNParser.parse_obs p version cd mc true = Ok data ->
  A2C.GCNConv lib (in_channels net) (hidden_channels net)
    (conv1 (params net)) (Data.x data) (Data.edge_index data) = Ok out_1 ->
  A2C.message_passing lib net (GNNParser.input_size p) (GNNParser.T p * 3)
    data = Raise RuntimeError.
Proof.
  intros HT Hd Hc. unfold A2C.message_passing. cbv zeta. rewrite Hc.
  simpl res_bind.
  destruct (parse_obs_MPNN _ _ _ _ _ Hd) as ((ea & Hea) & Hin).
  rewrite Hea, EdgeConv_forward_mismatch; [reflexivity| |exact Hin].
  unfold GNNParser.input_size. rewrite HT. apply econv1_mismatch.
Qed.

Lemma linear_total (l : Linear) (m : Tensor2) :
  Forall (fun row => length row = in_features l) m ->
  exists r, linear l m = Ok r.
Proof.
  intros H. apply mapM_total. intros row Hin. rewrite Forall_forall in H.
  unfold linear_row. rewrite (H row Hin), Nat.eqb_refl. eauto.
Qed.

Lemma map_map_width (f : Q -> Q) (n : nat) (m : Tensor2) :
  Forall (fun row => length row = n) m ->
  Forall (fun row => length row = n) (map (map f) m).
Proof.
  intros H. apply Forall_forall. intros row Hin. apply in_map_iff in Hin.
  destruct Hin as (r0 & <- & Hr). rewrite length_map.
  rewrite Forall_forall in H. exact (H r0 Hr).
Qed.

Lemma cat_dim1_width (a c r : Tensor2) (n m : nat) :
  cat_dim1 a c = Ok r ->
  Forall (fun row => length row = n) a ->
  Forall (fun row => length row = m) c ->
  Forall (fun row => length row = (n + m)%nat) r.
Proof.
  intros H Ha Hc. apply cat_dim1_Ok in H. destruct H as (_ & ->).
  apply Forall_forall. intros row Hin. apply in_map_iff in Hin.
  destruct Hin as ([ra rc] & <- & Hin). cbn [fst snd].
  rewrite length_app. rewrite Forall_forall in Ha, Hc.
  rewrite (Ha ra (in_combine_l _ _ _ _ Hin)).
  rewrite (Hc rc (in_combine_r _ _ _ _ Hin)). reflexivity.
Qed.

(** The last lines of the critic return when the message passing has
    given one row per node, of the width of the features. *)
Lemma GNNCritic_head_total (lib : A2C.Torch) (net : Network)
  (x out_3 : Tensor2) :
  length out_3 = length x ->
  Forall (fun row => length row = in_channels net) x ->
  Forall (fun row => length row = in_channels net) out_3 ->
  exists v, A2C.GNNCritic_head lib net x out_3 = Ok v.
Proof.
  intros Hl Hx Ho. unfold A2C.GNNCritic_head. cbv zeta.
  destruct (cat_dim1 x out_3) as [o3c|] eqn:Ec.
  2:{ unfold cat_dim1 in Ec. rewrite Hl, Nat.eqb_refl in Ec. discriminate. }
  pose proof (cat_dim1_width _ _ _ _ _ Ec Hx Ho) as Hw. simpl res_bind.
  destruct (linear_total
              (nn_Linear (in_channels net * 2) (in_channels net)
                 (lin1 (params net))) o3c) as (h1 & E1).
  { eapply Forall_impl; [|exact Hw]. cbn. intros row Hr. lia. }
  rewrite E1. simpl res_bind.
  destruct (linear_total (nn_Linear (in_channels net) 128 (lin2 (params net)))
              (map (map (A2C.softplus lib)) h1)) as (h2 & E2).
  { apply map_map_width. exact (linear_width _ _ _ E1). }
  rewrite E2. simpl res_bind.
  destruct (linear_total (nn_Linear 128 32 (lin3 (params net)))
              (map (map (A2C.softplus lib)) h2)) as (h3 & E3).
  { apply map_map_width. exact (linear_width _ _ _ E2). }
  rewrite E3. simpl res_bind.
  destruct (linear_total (nn_Linear 32 1 (lin4 (params net)))
              (map (map (A2C.softplus lib)) h3)) as (h4 & E4).
  { apply map_map_width. exact (linear_width _ _ _ E3). }
  rewrite E4. simpl. eauto.
Qed.

(** C1, as the code has it.  The critic built for horizon T never returns
    a value on the features the parser builds for that horizon, whose
    node features have 2 + 2T columns and whose edge features have 3T:
    [econv1 = EdgeConv(T * 3, ...)] sends rows of 2 (2 + 2T) + 3T columns
    through a layer made for 3T.  The forward pass raises, and the
    exception is [RuntimeError] once the parser and [conv1] have returned.
    Moreover the last lines of [forward] reduce nothing: on any output of
    the message passing they return the result of [lin4], one row of one
    entry per node, of which [.item()] exists for one node only; and they
    do return on inputs of the widths the layers were built for. *)
Theorem C1_critic_raises_and_never_pools (lib : A2C.Torch) (net : Network) :
  (forall data,
      exists e,
        A2C.GNNCritic_forward lib net (2 + 2 * net_T net) (net_T net * 3)
          data = Raise e)
  /\ (forall p version cd mc data out_1,
         GNNParser.T p = net_T net ->
         GNNParser.parse_obs p version cd mc true = Ok data ->
         A2C.GCNConv lib (in_channels net) (hidden_channels net)
           (conv1 (params net)) (Data.x data) (Data.edge_index data)
         = Ok out_1 ->
         A2C.GNNCritic_forward lib net (GNNParser.input_size p)
           (GNNParser.T p * 3) data = Raise RuntimeError)
  /\ (forall x out_3 v,
         A2C.GNNCritic_head lib net x out_3 = Ok v ->
         length v = length x
         /\ Forall (fun row => length row = 1%nat) v
         /\ numel v = length x
         /\ (length x <> 1%nat -> item v = Raise RuntimeError))
  /\ (forall x out_3,
         length out_3 = length x ->
         Forall (fun row => length row = in_channels net) x ->
         Forall (fun row => length row = in_channels net) out_3 ->
         exists v, A2C.GNNCritic_head lib net x out_3 = Ok v).
Proof.
  split; [|split; [|split]].
  - intros data. unfold A2C.GNNCritic_forward.
    destruct (message_passing_raises lib net data) as (e & ->).
    simpl. eauto.
  - intros p version cd mc data out_1 HT Hd Hc.
    unfold A2C.GNNCritic_forward.
    rewrite (message_passing_RuntimeError lib net p version cd mc data out_1
               HT Hd Hc).
    reflexivity.
  - intros x out_3 v H.
    destruct (GNNCritic_head_shape lib net x out_3 v H) as (Hl & Hw).
    pose proof (numel_rows_of_one _ Hw) as Hn.
    split; [exact Hl|]. split; [exact Hw|]. split; [congruence|].
    intros Hx. apply item_Raise_numel. congruence.
  - exact (GNNCritic_head_total lib net).
Qed.

(** The two-node graph with horizon 1: [message] raises on the rows
    gathered for the one edge (4 + 4 + 3 columns for a layer of 3), and so
    does the critic's forward pass; its last lines, given the features
    themselves in place of the message passing's output, return two
    values, of which [.item()] raises. *)
Lemma C1_two_node_witness :
  exists data v,
    GNNParser.parse_obs (A2C.obs_parser (Examples.agent Examples.env2))
      0 1 1 true = Ok data
    /\ EdgeConv.message (econv1 Examples.net4) [[0; 1; 1; 0]]%Q
         [[0; 1; 1; 0]]%Q [[1; 1; 1]]%Q = Raise RuntimeError
    /\ A2C.GNNCritic_forward Examples.lib0 Examples.net4 4 3 data
       = Raise RuntimeError
    /\ A2C.GNNCritic_head Examples.lib0 Examples.net4 (Data.x data)
         (Data.x data) = Ok v
    /\ numel v = 2%nat
    /\ item v = Raise RuntimeError.
Proof.
  run_as Hd (GNNParser.parse_obs
               (A2C.obs_parser (Examples.agent Examples.env2)) 0 1 1 true).
  match type of Hd with _ = Ok ?data =>
    run_as Hv (A2C.GNNCritic_head Examples.lib0 Examples.net4 (Data.x data)
                 (Data.x data)) end.
  destruct (C1_critic_raises_and_never_pools Examples.lib0 Examples.net4)
    as (_ & P2 & P3 & _).
  do 2 eexists. split; [exact Hd|]. split; [reflexivity|].
  split; [exact (P2 (A2C.obs_parser (Examples.agent Examples.env2))
                   _ _ _ _ [repeat 1%Q 8; repeat 1%Q 8]
                   eq_refl Hd eq_refl)|].
  split; [exact Hv|].
  destruct (P3 _ _ _ Hv) as (_ & _ & Hn & Hi).
  split; [exact Hn|]. apply Hi. discriminate.
Defined.

(** ** [forward] and [select_action] on the agent as it is built *)

Lemma forward_raises (lib : A2C.Torch) (s : A2C.t) :
  A2C.wired s -> exists e, A2C.forward lib A2C.jitter s = Raise e.
Proof.
  intros (Ha & _ & Hp). unfold A2C.forward.
  destruct (A2C.parse_obs _ _ _ _ _) as [data|]; simpl; [|eauto].
  unfold A2C.GNNActor_forward, GNNParser.input_size.
  rewrite Hp, <- Ha.
  destruct (message_passing_raises lib (A2C.actor s) data) as (e & ->).
  simpl. eauto.
Qed.

Lemma wired_buffers (sa : list A2C.SavedAction) (rw mc sc : list Q)
  (s : A2C.t) :
  A2C.wired s -> A2C.wired (A2C.with_buffers sa rw mc sc s).
Proof. intros H. exact H. Qed.

Lemma sample_from_wired (lib : A2C.Torch) (d : A2C.Draws) (eval_mode : bool)
  (c nz : Tensor1) (v : Tensor2) (s : A2C.t) :
  A2C.wired s -> A2C.wired (snd (A2C.sample_from lib d eval_mode c nz v s)).
Proof.
  intros H. rewrite sample_from_eq.
  destruct (A2C.gate_loop _ _ _ _ _ _) as [g|]; [|exact H].
  destruct (A2C.concentration_without_zeros g) as [|c0 cs]; [exact H|].
  cbv zeta. destruct (A2C.Dirichlet (c0 :: cs)); [|exact H].
  destruct (A2C.Dirichlet_log_prob lib (c0 :: cs) _); exact H.
Qed.

Lemma training_step_wired (lib : A2C.Torch) (s : A2C.t) :
  A2C.wired s -> A2C.wired (snd (A2C.training_step lib s)).
Proof.
  intros H. rewrite training_step_eq.
  destruct (A2C.items _); [|exact H].
  destruct (A2C.losses _ _) as [ls|]; [|exact H].
  destruct (stack_sum (map fst ls)); [|exact H].
  cbv zeta. destruct (stack_sum (map snd ls)); exact H.
Qed.

(** Every operation keeps the agent wired. *)
Lemma run_wired (lib : A2C.Torch) (o : A2C.Op) (s : A2C.t) :
  A2C.wired s -> A2C.wired (A2C.run lib o s).
Proof.
  intros H. destruct o as [d ev| |r| |e|sa sc]; simpl.
  - rewrite select_action_eq.
    destruct (A2C.forward lib A2C.jitter s) as [out|]; [|exact H].
    apply sample_from_wired. exact H.
  - exact H.
  - exact H.
  - apply training_step_wired. exact H.
  - destruct H as (Ha & Hc & _). repeat split; assumption.
  - unfold A2C.decay_learning_rate, A2C.bind, A2C.modify, A2C.get, A2C.lift.
    cbn [fst snd A2C.adapted_lr_a A2C.adapted_lr_c A2C.with_learning_rates].
    destruct (A2C.configure_optimizers _ _); exact H.
Qed.

(** On an agent wired as [__init__] wires it, [forward] never returns: it
    raises when the actor reaches [econv1] if not before, and it is a
    [RuntimeError] once the parser and the actor's [conv1] have returned.
    So [select_action] raises too, before it draws, saves or records
    anything: the agent is left as it was.  [__init__] wires the agent,
    and every operation keeps it wired. *)
Theorem X_select_action_always_raises (lib : A2C.Torch) (s : A2C.t) :
  A2C.wired s ->
  (exists e, A2C.forward lib A2C.jitter s = Raise e)
  /\ (forall d eval_mode,
         exists e, A2C.select_action lib d eval_mode s = (Raise e, s))
  /\ (forall data out_1,
         A2C.parse_obs s 0
           (charge_levels_per_charge_step (scenario (A2C.env s)))
           (number_charge_levels (scenario (A2C.env s))) true = Ok data ->
         A2C.GCNConv lib (in_channels (A2C.actor s))
           (hidden_channels (A2C.actor s)) (conv1 (params (A2C.actor s)))
           (Data.x data) (Data.edge_index data) = Ok out_1 ->
         A2C.forward lib A2C.jitter s = Raise RuntimeError
         /\ forall d eval_mode,
              A2C.select_action lib d eval_mode s = (Raise RuntimeError, s))
  /\ (forall ops,
         A2C.wired (fold_left (fun st o => A2C.run lib o st) ops s))
  /\ (forall e epsilon horizon rate_a rate_c clip_a clip_c factor
             price_factor pa pc s0,
         A2C.init e epsilon horizon rate_a rate_c clip_a clip_c factor
           price_factor pa pc = Ok s0 ->
         A2C.wired s0).
Proof.
  intros Hw. split; [|split; [|split; [|split]]].
  - exact (forward_raises lib s Hw).
  - intros d eval_mode. rewrite select_action_eq.
    destruct (forward_raises lib s Hw) as (e & ->). eauto.
  - intros data out_1 Hd Hc.
    assert (Hf : A2C.forward lib A2C.jitter s = Raise RuntimeError).
    { unfold A2C.forward. rewrite Hd. simpl res_bind. cbv zeta.
      unfold A2C.GNNActor_forward. destruct Hw as (Ha & _ & Hp).
      rewrite (message_passing_RuntimeError lib (A2C.actor s)
                 (A2C.obs_parser s) _ _ _ data out_1
                 (eq_trans Hp (eq_sym Ha)) Hd Hc).
      reflexivity. }
    split; [exact Hf|]. intros d eval_mode.
    rewrite select_action_eq, Hf. reflexivity.
  - intros ops. revert s Hw.
    induction ops as [|o ops IH]; intros s Hw; [exact Hw|].
    simpl. apply IH. apply run_wired. exact Hw.
  - intros e epsilon horizon rate_a rate_c clip_a clip_c factor
      price_factor pa pc s0 H. unfold A2C.init in H.
    destruct (A2C.configure_optimizers rate_a rate_c); simpl in H;
      [|discriminate].
    inversion H. repeat split.
Qed.

(** The agent [A2C(env, T=1)] on the two-node graph is what [__init__]
    builds; its parser and its [conv1] return, and [select_action] raises
    [RuntimeError] and leaves the agent untouched. *)
Lemma X_select_action_raises_witness :
  A2C.init Examples.env2 (1 # 8388608) 1 (1 # 1000) (1 # 1000) (1 # 2)
    (1 # 2) 1 1 Examples.flat_params Examples.flat_params
  = Ok (Examples.agent Examples.env2)
  /\ A2C.wired (Examples.agent Examples.env2)
  /\ A2C.select_action Examples.lib0 Examples.all_in true
       (Examples.agent Examples.env2)
     = (Raise RuntimeError, Examples.agent Examples.env2).
Proof.
  assert (Hw : A2C.wired (Examples.agent Examples.env2))
    by (repeat split).
  split; [reflexivity|]. split; [exact Hw|].
  run_as Hd (A2C.parse_obs (Examples.agent Examples.env2) 0 1 1 true).
  destruct (X_select_action_always_raises Examples.lib0
              (Examples.agent Examples.env2) Hw) as (_ & _ & P & _).
  exact (proj2 (P _ _ Hd eq_refl) Examples.all_in true).
Defined.

(** C9: [training_step] takes [.item()] of every saved value, so it
    returns only if every saved value has exactly one entry, and a saved
    value with another number of entries makes it raise and leave the
    agent as it was.  The last lines of the critic give a value with one
    entry per node, and the body of [select_action] saves the value it is
    given.  Hence, for a step recorded with a value of the critic's last
    lines over N nodes, and any state in which that record is still
    saved, [training_step] raises if N is not 1 and returns only if N
    is 1. *)
Theorem C9_training_step_needs_one_node (lib : A2C.Torch) :
  (forall net x out_3 v,
      A2C.GNNCritic_head lib net x out_3 = Ok v -> numel v = length x)
  /\ (forall d eval_mode c nz v s a s',
         A2C.sample_from lib d eval_mode c nz v s = (Ok a, s') ->
         exists sa,
           A2C.saved_actions s' = A2C.saved_actions s ++ [sa]
           /\ A2C.value sa = v)
  /\ (forall s diag s',
         A2C.training_step lib s = (Ok diag, s') ->
         Forall (fun sa => numel (A2C.value sa) = 1%nat)
                (A2C.saved_actions s))
  /\ (forall s sa,
         In sa (A2C.saved_actions s) -> numel (A2C.value sa) <> 1%nat ->
         exists e, A2C.training_step lib s = (Raise e, s))
  /\ (forall net x out_3 v d eval_mode c nz s0 a s1 s2,
         A2C.GNNCritic_head lib net x out_3 = Ok v ->
         A2C.sample_from lib d eval_mode c nz v s0 = (Ok a, s1) ->
         (forall sa, In sa (A2C.saved_actions s1) ->
                     In sa (A2C.saved_actions s2)) ->
         let N := length x in
         (N <> 1%nat -> exists e, A2C.training_step lib s2 = (Raise e, s2))
         /\ (forall diag s3,
                A2C.training_step lib s2 = (Ok diag, s3) -> N = 1%nat)).
Proof.
  assert (P1 : forall net x out_3 v,
    A2C.GNNCritic_head lib net x out_3 = Ok v -> numel v = length x).
  { intros net x out_3 v H.
    destruct (GNNCritic_head_shape lib net x out_3 v H) as (Hl & Hw).
    rewrite (numel_rows_of_one _ Hw). exact Hl. }
  assert (P2 : forall d eval_mode c nz v s a s',
    A2C.sample_from lib d eval_mode c nz v s = (Ok a, s') ->
    exists sa,
      A2C.saved_actions s' = A2C.saved_actions s ++ [sa]
      /\ A2C.value sa = v).
  { intros d eval_mode c nz v s a s' H.
    destruct (sample_from_frame _ _ _ _ _ _ _ _ _ H)
      as (_ & _ & [(a' & sa & _ & Hs & Hv)|(e & He & _)]);
      [eauto|discriminate]. }
  assert (P3 : forall s diag s',
    A2C.training_step lib s = (Ok diag, s') ->
    Forall (fun sa => numel (A2C.value sa) = 1%nat) (A2C.saved_actions s)).
  { intros s diag s' H. exact (proj1 (training_step_Ok _ _ _ _ H)). }
  split; [exact P1|]. split; [exact P2|]. split; [exact P3|].
  split; [exact (training_step_Raise lib)|].
  intros net x out_3 v d eval_mode c nz s0 a s1 s2 Hh Hs Hkeep. cbv zeta.
  destruct (P2 _ _ _ _ _ _ _ _ Hs) as (sa & Hsa & Hv).
  assert (Hin : In sa (A2C.saved_actions s2)).
  { apply Hkeep. rewrite Hsa. apply in_or_app. right. left. reflexivity. }
  pose proof (P1 _ _ _ _ Hh) as Hn. rewrite <- Hv in Hn.
  split.
  - intros HN. apply (training_step_Raise lib _ sa Hin). congruence.
  - intros diag s3 H3. apply P3 in H3.
    rewrite Forall_forall in H3. rewrite <- Hn. exact (H3 sa Hin).
Qed.

(** The critic's last lines on one row and on two rows of features, the
    step recorded with each value, and two rewards: with the value of one
    node [training_step] returns, with the value of two nodes it
    raises. *)
Lemma C9_training_step_witness :
  exists v1 diag s1' v2 e,
    A2C.GNNCritic_head Examples.lib0 Examples.net4 [[1; 1; 1; 1]]%Q
      [[1; 1; 1; 1]]%Q = Ok v1
    /\ A2C.training_step Examples.lib0 (Examples.recorded_with v1)
       = (Ok diag, s1')
    /\ A2C.GNNCritic_head Examples.lib0 Examples.net4
         [[1; 1; 1; 1]; [1; 1; 1; 1]]%Q [[1; 1; 1; 1]; [1; 1; 1; 1]]%Q
       = Ok v2
    /\ A2C.training_step Examples.lib0 (Examples.recorded_with v2)
       = (Raise e, Examples.recorded_with v2).
Proof.
  run_as H1 (A2C.GNNCritic_head Examples.lib0 Examples.net4
               [[1; 1; 1; 1]]%Q [[1; 1; 1; 1]]%Q).
  run_as H2 (A2C.GNNCritic_head Examples.lib0 Examples.net4
               [[1; 1; 1; 1]; [1; 1; 1; 1]]%Q
               [[1; 1; 1; 1]; [1; 1; 1; 1]]%Q).
  match type of H1 with _ = Ok ?v1 =>
    run_as T1 (A2C.training_step Examples.lib0 (Examples.recorded_with v1))
  end.
  match type of H2 with _ = Ok ?v2 =>
    run_as S2 (A2C.sample_from Examples.lib0 Examples.all_in true [1; 3]%Q
                 [1 # 2; 1 # 2] v2 (Examples.agent Examples.env2))
  end.
  destruct (C9_training_step_needs_one_node Examples.lib0)
    as (_ & _ & _ & _ & P).
  match type of H2 with _ = Ok ?v2 =>
    destruct (P _ _ _ _ _ _ _ _ _ _ _ (Examples.recorded_with v2) H2 S2
                (fun sa Hin => Hin)) as (Q2 & _)
  end.
  destruct (Q2 ltac:(simpl; discriminate)) as (e & He).
  do 5 eexists. split; [exact H1|]. split; [exact T1|].
  split; [exact H2|exact He].
Defined.

(** ** Further properties of the sampler *)

(** When at least one node participates and the library's Dirichlet
    rejects the concentration or the point, [sample_from] (the body of
    [select_action] after [forward]) raises the library's exception after
    it has appended the step's concentration statistics and before it
    saves an action: the statistics then hold one entry more than there
    are saved actions for. *)
Theorem X_dirichlet_failure_leaves_statistics (lib : A2C.Torch)
  (d : A2C.Draws) (eval_mode : bool) (c nz : Tensor1) (v : Tensor2)
  (s : A2C.t) (e : exn) :
  (length nz <= length c)%nat ->
  A2C.participants d (length nz) <> [] ->
  let cwz := A2C.participating d c (length nz) in
  let point := if eval_mode then A2C.normalized cwz else A2C.rsample d cwz in
  A2C.Dirichlet cwz = Raise e
  \/ (A2C.Dirichlet cwz = Ok tt
      /\ A2C.Dirichlet_log_prob lib cwz point = Raise e) ->
  exists s',
    A2C.sample_from lib d eval_mode c nz v s = (Raise e, s')
    /\ A2C.means_concentration s' = A2C.means_concentration s ++ [np_mean cwz]
    /\ A2C.std_concentration s'
       = A2C.std_concentration s ++ [A2C.np_std lib cwz]
    /\ A2C.saved_actions s' = A2C.saved_actions s
    /\ A2C.rewards s' = A2C.rewards s.
Proof.
  intros Hlen Hp. cbv zeta. intros Hraise. rewrite sample_from_eq.
  destruct (gate_loop_total lib d c nz 0 A2C.no_gate) as (g & Eg);
    [simpl; lia|].
  rewrite Eg. apply gate_loop_all in Eg. destruct Eg as (_ & Hc & _).
  rewrite Hc.
  destruct (A2C.participating d c (length nz)) as [|c0 cs] eqn:Ep.
  { apply participating_nil in Ep. contradiction. }
  cbv zeta. destruct Hraise as [-> | (-> & ->)];
    eexists; (split; [reflexivity|]); repeat split.
Qed.

(** One node of concentration 1e-18 in evaluation mode: the point
    1e-18 / (1e-18 + 1e-16) = 1/101 is not in the support, the call raises
    [ValueError], and the statistics have grown. *)
Lemma X_dirichlet_failure_witness :
  exists s',
    A2C.participants Examples.all_in 1 <> []
    /\ A2C.sample_from Examples.lib0 Examples.all_in true
         [Examples.tiny] [1 # 2] [[0%Q]] (Examples.agent Examples.env1)
       = (Raise ValueError, s')
    /\ length (A2C.means_concentration s') = 1%nat
    /\ A2C.saved_actions s' = [].
Proof.
  assert (Hp : A2C.participants Examples.all_in 1 <> []) by discriminate.
  destruct (X_dirichlet_failure_leaves_statistics Examples.lib0
              Examples.all_in true [Examples.tiny] [1 # 2] [[0%Q]]
              (Examples.agent Examples.env1) ValueError
              (le_n 1) Hp (or_intror (conj eq_refl eq_refl)))
    as (s' & Hs & Hm & _ & Hsa & _).
  exists s'. split; [exact Hp|]. split; [exact Hs|].
  split; [rewrite Hm; reflexivity|exact Hsa].
Defined.

Lemma skipn_nth_error (p : list Q) (idx : nat) (v : Q) :
  nth_error p idx = Some v -> skipn idx p = v :: skipn (S idx) p.
Proof.
  revert idx. induction p as [|w p IH]; intros idx H.
  - destruct idx; discriminate.
  - destruct idx as [|idx]; simpl in *.
    + inversion H; reflexivity.
    + apply IH. exact H.
Qed.

(** Reading the action back at the participating positions gives the
    entries of the point that the second loop consumed, in order. *)
Lemma assemble_gather (d : A2C.Draws) (p : list Q) (l : list nat) :
  forall (idx : nat) (a : list Q),
    A2C.assemble (map (fun i => negb (A2C.bernoulli d i)) l) (Some p) idx
    = Ok a ->
    map snd (filter (fun ia => A2C.bernoulli d (fst ia)) (combine l a))
    = firstn (length (filter (A2C.bernoulli d) l)) (skipn idx p).
Proof.
  induction l as [|i l IH]; intros idx a H.
  - reflexivity.
  - cbn [map A2C.assemble] in H. cbn [filter].
    destruct (A2C.bernoulli d i) eqn:Eb; cbn [negb] in H.
    + destruct (nth_error p idx) as [v|] eqn:En; [|discriminate].
      destruct (A2C.assemble _ (Some p) (S idx)) as [a0|] eqn:E;
        simpl in H; [|discriminate].
      inversion H; subst. cbn [combine filter fst]. rewrite Eb.
      cbn [map snd length]. rewrite (skipn_nth_error _ _ _ En).
      cbn [firstn]. f_equal. exact (IH _ _ E).
    + destruct (A2C.assemble _ (Some p) idx) as [a0|] eqn:E;
        simpl in H; [|discriminate].
      inversion H; subst. cbn [combine filter fst]. rewrite Eb.
      exact (IH _ _ E).
Qed.

(** A returned action carries the point in node order: when at least one
    node participates, the entries of the action at the participating
    nodes, read in node order, are the entries of the point used (the
    sample in sampling mode), which has one entry per participating node;
    the other entries of the action are 0. *)
Theorem X_action_carries_point_in_order (lib : A2C.Torch) (d : A2C.Draws)
  (eval_mode : bool) (s s' : A2C.t) (c nz : Tensor1) (v : Tensor2)
  (a : list Q) :
  A2C.sample_from lib d eval_mode c nz v s = (Ok a, s') ->
  A2C.participants d (length nz) <> [] ->
  let cwz := A2C.participating d c (length nz) in
  let point := if eval_mode then A2C.normalized cwz else A2C.rsample d cwz in
  map snd (filter (fun ia => A2C.bernoulli d (fst ia))
                  (combine (seq 0 (length nz)) a))
  = point
  /\ length point = length (A2C.participants d (length nz))
  /\ map snd (filter (fun ia => negb (A2C.bernoulli d (fst ia)))
                     (combine (seq 0 (length nz)) a))
     = repeat 0%Q (length nz - length (A2C.participants d (length nz))).
Proof.
  intros H Hp. cbv zeta.
  destruct (sample_from_Ok _ _ _ _ _ _ _ _ _ H)
    as (lpz & _ & [(Hp' & _)|(_ & lp & Hlp & Ha & _)]); [contradiction|].
  cbv zeta in Ha, Hlp. apply Dirichlet_log_prob_Ok in Hlp.
  destruct Hlp as (Hpl & _ & _).
  assert (Hpl' : length
    (if eval_mode
     then A2C.normalized (A2C.participating d c (length nz))
     else A2C.rsample d (A2C.participating d c (length nz)))
    = length (A2C.participants d (length nz))).
  { rewrite <- (participating_length d c). exact Hpl. }
  split; [|split; [exact Hpl'|]].
  - rewrite (assemble_gather d _ (seq 0 (length nz)) 0 a Ha).
    simpl skipn. apply firstn_all2. apply Nat.eq_le_incl. exact Hpl'.
  - unfold A2C.participants. clear - Ha. revert Ha.
    generalize (if eval_mode
                then A2C.normalized (A2C.participating d c (length nz))
                else A2C.rsample d (A2C.participating d c (length nz))).
    intros p. generalize 0%nat at 2. revert a.
    assert (G : forall (l : list nat) (a : list Q) (idx : nat),
      A2C.assemble (map (fun i => negb (A2C.bernoulli d i)) l) (Some p) idx
      = Ok a ->
      map snd (filter (fun ia => negb (A2C.bernoulli d (fst ia)))
                      (combine l a))
      = repeat 0%Q (length l - length (filter (A2C.bernoulli d) l))).
    { induction l as [|i l IH]; intros a idx H; [reflexivity|].
      cbn [map A2C.assemble] in H. cbn [filter length].
      pose proof (filter_length_le (A2C.bernoulli d) l) as Hle.
      destruct (A2C.bernoulli d i) eqn:Eb; cbn [negb] in H.
      - destruct (nth_error p idx) as [w|]; [|discriminate].
        destruct (A2C.assemble _ (Some p) (S idx)) as [a0|] eqn:E;
          simpl in H; [|discriminate].
        inversion H; subst. cbn [combine filter fst length]. rewrite Eb.
        cbn [negb]. rewrite (IH _ _ E). f_equal.
      - destruct (A2C.assemble _ (Some p) idx) as [a0|] eqn:E;
          simpl in H; [|discriminate].
        inversion H; subst. cbn [combine filter fst]. rewrite Eb.
        cbn [negb map snd]. rewrite (IH _ _ E).
        replace (S (length l) - length (filter (A2C.bernoulli d) l))%nat
          with (S (length l - length (filter (A2C.bernoulli d) l)))
          by lia.
        reflexivity. }
    intros a idx H. rewrite (G _ _ _ H), length_seq. reflexivity.
Qed.

(** Three nodes of which the second abstains, in sampling mode with the
    first vertex of the simplex as the sampled point: the action is
    [1; 0; 0], and read back at the participating nodes it is the
    point [1; 0]. *)
Lemma X_action_carries_point_witness :
  exists a s',
    A2C.sample_from Examples.lib0 Examples.second_out false [1; 2; 3]%Q
      [1 # 2; 1 # 2; 1 # 2] [[0%Q]] (Examples.agent Examples.env3)
    = (Ok a, s')
    /\ a = [1; 0; 0]%Q
    /\ map snd (filter (fun ia => A2C.bernoulli Examples.second_out (fst ia))
                       (combine (seq 0 3) a))
       = [1; 0]%Q.
Proof.
  run_as Hs (A2C.sample_from Examples.lib0 Examples.second_out false
               [1; 2; 3]%Q [1 # 2; 1 # 2; 1 # 2] [[0%Q]]
               (Examples.agent Examples.env3)).
  do 2 eexists. split; [exact Hs|]. split; [reflexivity|].
  exact (proj1 (X_action_carries_point_in_order Examples.lib0
                  Examples.second_out false _ _ _ _ _ _ Hs
                  ltac:(discriminate))).
Defined.

(** ** Further properties of the update *)

Lemma normalize_length (lib : A2C.Torch) (epsilon : Q) (l : list Q) :
  length (A2C.normalize lib epsilon l) = length l.
Proof. unfold A2C.normalize. apply length_map. Qed.

Lemma item_one (t : Tensor2) :
  numel t = 1%nat -> exists q, item t = Ok q.
Proof.
  unfold numel, item. destruct (concat t) as [|q [|q' l]]; simpl;
    try discriminate. eauto.
Qed.

(** [training_step] returns exactly when there is at least one saved
    action and one reward, every saved log-probability is a tensor and
    every saved value has exactly one entry; the numbers of saved actions
    and of rewards need not agree. *)
Theorem X_training_step_returns_iff (lib : A2C.Torch) (s : A2C.t) :
  (exists diag s', A2C.training_step lib s = (Ok diag, s'))
  <->
  (A2C.saved_actions s <> [] /\ A2C.rewards s <> []
   /\ Forall (fun sa => numel (A2C.value sa) = 1%nat
                        /\ exists q, A2C.log_prob sa = Tensor0 q)
             (A2C.saved_actions s)).
Proof.
  split.
  - intros (diag & s' & H).
    destruct (training_step_Ok _ _ _ _ H) as (_ & Hs & Hr & _).
    split; [exact Hs|]. split; [exact Hr|].
    rewrite training_step_eq in H.
    destruct (A2C.items (A2C.saved_actions s)) as [it|] eqn:Ei;
      [|discriminate].
    clear H. unfold A2C.items in Ei. revert it Ei.
    generalize (A2C.saved_actions s).
    induction l as [|sa l IH]; intros it Ei; [constructor|].
    simpl in Ei.
    destruct (A2C.log_prob sa) as [z|q] eqn:El; simpl in Ei; [discriminate|].
    destruct (item (A2C.value sa)) as [w|] eqn:Ev; simpl in Ei;
      [|discriminate].
    destruct (mapM _ l) as [it'|] eqn:Em; [|discriminate].
    constructor; [|exact (IH it' eq_refl)].
    split; [exact (item_Ok_numel _ _ Ev)|eauto].
  - intros (Hs & Hr & Hall). rewrite training_step_eq.
    assert (Hit : exists it, A2C.items (A2C.saved_actions s) = Ok it).
    { apply mapM_total. intros sa Hin. rewrite Forall_forall in Hall.
      destruct (Hall sa Hin) as (Hn & q & Hq).
      destruct (item_one _ Hn) as (w & Hw). rewrite Hq, Hw. simpl. eauto. }
    destruct Hit as (it & ->).
    set (returns := A2C.normalize lib (A2C.eps s)
                      (discounted_returns (A2C.rewards s))).
    assert (Hls : exists ls,
      A2C.losses (A2C.saved_actions s) returns = Ok ls
      /\ ls <> []).
    { destruct (mapM_total _ _
        (fun p : A2C.SavedAction * Q =>
           res_bind (item (A2C.value (fst p)))
             (fun w => Ok ((- scalar_value (A2C.log_prob (fst p))
                            * (snd p - w))%Q,
                           smooth_l1_loss (A2C.value (fst p)) (snd p))))
        (combine (A2C.saved_actions s) returns)) as (ls & Hl).
      { intros [sa R] Hin. apply in_combine_l in Hin.
        rewrite Forall_forall in Hall.
        destruct (Hall sa Hin) as (Hn & _).
        destruct (item_one _ Hn) as (w & Hw). cbn [fst snd].
        rewrite Hw. simpl. eauto. }
      exists ls. split; [exact Hl|].
      apply mapM_length in Hl. intros ->. simpl in Hl.
      rewrite length_combine in Hl. subst returns.
      rewrite normalize_length, discounted_returns_length in Hl.
      destruct (A2C.saved_actions s); [congruence|].
      destruct (A2C.rewards s); [congruence|]. simpl in Hl. discriminate. }
    destruct Hls as (ls & -> & Hne).
    destruct ls as [|l0 ls]; [congruence|]. simpl. eauto.
Qed.

Lemma clamp_bounds (v lo hi : Q) :
  (lo <= hi)%Q -> (lo <= clamp v lo hi)%Q /\ (clamp v lo hi <= hi)%Q.
Proof.
  intros H. unfold clamp. destruct (Qle_bool v lo) eqn:E1.
  - split; [apply Qle_refl|exact H].
  - destruct (Qle_bool hi v) eqn:E2.
    + split; [exact H|apply Qle_refl].
    + split.
      * destruct (Qlt_le_dec v lo) as [Hl|Hl]; [|exact Hl].
        apply Qlt_le_weak, Qle_bool_iff in Hl. congruence.
      * destruct (Qlt_le_dec hi v) as [Hl|Hl]; [|exact Hl].
        apply Qlt_le_weak, Qle_bool_iff in Hl. congruence.
Qed.

Lemma Qsum_nonneg (l : list Q) :
  Forall (fun q => (0 <= q)%Q) l -> (0 <= Qsum l)%Q.
Proof.
  induction 1 as [|q l Hq Hl IH].
  - unfold Qsum. simpl. apply Qle_refl.
  - rewrite Qsum_cons. lra.
Qed.

Lemma huber_nonneg (d : Q) : (0 <= huber d)%Q.
Proof.
  unfold huber. destruct (Qle_bool 1 (Qabs d)) eqn:E.
  - apply Qle_bool_iff in E. lra.
  - assert (H : (0 <= d * d)%Q).
    { destruct (Qlt_le_dec d 0) as [Hd|Hd]; nra. }
    lra.
Qed.

Lemma np_mean_nonneg (l : list Q) :
  Forall (fun q => (0 <= q)%Q) l -> (0 <= np_mean l)%Q.
Proof.
  intros H. unfold np_mean, Qdiv. apply Qmult_le_0_compat.
  - apply Qsum_nonneg. exact H.
  - apply Qinv_le_0_compat. unfold Qle. simpl. lia.
Qed.

Lemma smooth_l1_loss_nonneg (v : Tensor2) (R : Q) :
  (0 <= smooth_l1_loss v R)%Q.
Proof.
  unfold smooth_l1_loss. apply np_mean_nonneg. apply Forall_forall.
  intros q Hin. apply in_map_iff in Hin. destruct Hin as (w & <- & _).
  apply huber_nonneg.
Qed.

(** The losses a returning [training_step] reports.  With two rewards
    or more and a divisor [std + eps] other than zero, the actor loss is a
    number of [-1000, 1000] (it is clamped) and the critic loss a number
    that is not negative (a sum of smooth-L1 terms).  With a single reward
    [returns.std()] is [nan], and neither loss is a number. *)
Theorem X_training_step_loss_bounds (lib : A2C.Torch) (s s' : A2C.t)
  (diag : A2C.Diagnostics) :
  A2C.training_step lib s = (Ok diag, s') ->
  ((2 <= length (A2C.rewards s))%nat ->
   ~ (A2C.tensor_std lib (discounted_returns (A2C.rewards s)) + A2C.eps s
      == 0)%Q ->
   exists al vl,
     A2C.a_loss diag = Some al /\ (- (1000) <= al)%Q /\ (al <= 1000)%Q
     /\ A2C.v_loss diag = Some vl /\ (0 <= vl)%Q)
  /\ ((length (A2C.rewards s) < 2)%nat ->
      length (A2C.rewards s) = 1%nat
      /\ A2C.a_loss diag = None /\ A2C.v_loss diag = None).
Proof.
  rewrite training_step_eq.
  destruct (A2C.items (A2C.saved_actions s)) as [it|]; [|discriminate].
  destruct (A2C.losses _ _) as [ls|] eqn:El; [|discriminate].
  destruct (stack_sum (map fst ls)) as [al|]; [|discriminate].
  cbv zeta. destruct (stack_sum (map snd ls)) as [vl|] eqn:Ev;
    [|discriminate].
  intros H. inversion H; subst. clear H.
  cbn [A2C.a_loss A2C.v_loss]. unfold A2C.normalizable.
  assert (Hne : A2C.rewards s <> []).
  { intros Hn. unfold A2C.losses in El. rewrite Hn in El.
    unfold A2C.normalize in El. simpl in El.
    destruct (A2C.saved_actions s); simpl in El; inversion El; subst;
      discriminate. }
  rewrite discounted_returns_length. split.
  - intros Hlen Hdiv. apply Nat.leb_le in Hlen. rewrite Hlen.
    destruct (Qeq_bool _ 0) eqn:Eq.
    { apply Qeq_bool_iff in Eq. contradiction. }
    cbn [andb negb]. exists (clamp al (- (1000)) 1000), vl.
    destruct (clamp_bounds al (- (1000)) 1000 ltac:(lra)) as (H1 & H2).
    split; [reflexivity|]. split; [exact H1|]. split; [exact H2|].
    split; [reflexivity|].
    assert (Hv : vl = Qsum (map snd ls)).
    { unfold stack_sum in Ev. destruct (map snd ls); [discriminate|].
      inversion Ev; reflexivity. }
    rewrite Hv. apply Qsum_nonneg. apply Forall_forall. intros q Hin.
    apply in_map_iff in Hin. destruct Hin as ([pl vl'] & <- & Hin).
    unfold A2C.losses in El.
    apply (mapM_Ok_In _ _ _ _ _ El) in Hin. destruct Hin as (p & _ & Hp).
    destruct (item (A2C.value (fst p))); simpl in Hp; [|discriminate].
    inversion Hp; subst. cbn [snd]. apply smooth_l1_loss_nonneg.
  - intros Hlen. assert (E : Nat.leb 2 (length (A2C.rewards s)) = false)
      by (apply Nat.leb_gt; exact Hlen).
    rewrite E. split; [|split; reflexivity].
    destruct (A2C.rewards s) as [|r0 [|r1 rs]]; simpl in Hlen;
      [congruence|reflexivity|lia].
Qed.

(** Two recorded steps with their rewards: both losses are numbers within
    the bounds. *)
Lemma X_training_step_loss_witness :
  exists diag s2 al vl,
    A2C.training_step Examples.lib0
      (Examples.recorded_step
         (Examples.recorded_step (Examples.agent Examples.env1)))
    = (Ok diag, s2)
    /\ A2C.a_loss diag = Some al /\ (al <= 1000)%Q
    /\ A2C.v_loss diag = Some vl /\ (0 <= vl)%Q.
Proof.
  run_as T1 (A2C.training_step Examples.lib0
               (Examples.recorded_step
                  (Examples.recorded_step (Examples.agent Examples.env1)))).
  destruct (X_training_step_loss_bounds Examples.lib0 _ _ _ T1)
    as (P & _).
  destruct P as (al & vl & Ha & _ & Ha2 & Hv & Hv2).
  - simpl. lia.
  - vm_compute. discriminate.
  - do 2 eexists. exists al, vl. split; [exact T1|].
    repeat split; assumption.
Defined.

(** ** Further properties of the returns *)

Lemma discounted_sum_shift (rs : list Q) :
  forall a : nat,
    (Qsum (map (fun kr => gamma ^ Z.of_nat (fst kr) * snd kr)
               (combine (seq (S a) (length rs)) rs))
     == gamma * Qsum (map (fun kr => gamma ^ Z.of_nat (fst kr) * snd kr)
                          (combine (seq a (length rs)) rs)))%Q.
Proof.
  induction rs as [|r rs IH]; intros a.
  - unfold Qsum. simpl. ring.
  - cbn [length seq combine map fst snd]. rewrite !Qsum_cons, (IH (S a)).
    rewrite Nat2Z.inj_succ, <- Z.add_1_r.
    rewrite (Qpower_plus gamma (Z.of_nat a) 1) by discriminate.
    simpl (gamma ^ 1)%Q. ring.
Qed.

Lemma discounted_sum_cons (r : Q) (rs : list Q) :
  (discounted_sum (r :: rs) == r + gamma * discounted_sum rs)%Q.
Proof.
  unfold discounted_sum. cbn [length seq combine map fst snd].
  rewrite Qsum_cons, discounted_sum_shift. simpl (gamma ^ Z.of_nat 0)%Q.
  ring.
Qed.

Lemma discounted_returns_hd (rs : list Q) :
  (hd 0 (discounted_returns rs) == discounted_sum rs)%Q.
Proof.
  induction rs as [|r rs IH].
  - reflexivity.
  - rewrite discounted_returns_cons, discounted_sum_cons. simpl hd.
    rewrite IH. reflexivity.
Qed.

(** Each return is the discounted sum of the rewards from its step on:
    return number t is the sum over k of gamma^k times reward number
    t + k. *)
Theorem X_returns_are_discounted_sums (rs : list Q) (t : nat) :
  (nth t (discounted_returns rs) 0 == discounted_sum (skipn t rs))%Q.
Proof.
  revert t. induction rs as [|r rs IH]; intros t.
  - destruct t; reflexivity.
  - destruct t as [|t].
    + rewrite discounted_returns_cons. simpl nth. simpl skipn.
      rewrite discounted_sum_cons, discounted_returns_hd. reflexivity.
    + rewrite discounted_returns_cons. simpl nth. simpl skipn. apply IH.
Qed.

(** Rewards bounded by M in absolute value give returns bounded by
    M / (1 - gamma) = 100 M / 3. *)
Theorem X_returns_bounded (rs : list Q) (M : Q) (t : nat) :
  (0 <= M)%Q ->
  Forall (fun r => (Qabs r <= M)%Q) rs ->
  (Qabs (nth t (discounted_returns rs) 0) <= M * (100 # 3))%Q.
Proof.
  intros HM Hall. revert t.
  induction Hall as [|r rs Hr Hrs IH]; intros t.
  - destruct t; simpl; lra.
  - rewrite discounted_returns_cons. destruct t as [|t]; [|apply IH].
    simpl nth. specialize (IH 0%nat).
    assert (E : hd 0%Q (discounted_returns rs)
                = nth 0 (discounted_returns rs) 0%Q)
      by (destruct (discounted_returns rs); reflexivity).
    rewrite E.
    eapply Qle_trans; [apply Qabs_triangle|].
    rewrite Qabs_Qmult. unfold gamma at 1.
    change (Qabs (97 # 100)) with (97 # 100)%Q. lra.
Qed.

(** Three rewards of 1: every return is at most 100/3. *)
Lemma X_returns_bounded_witness :
  (0 <= 1)%Q
  /\ Forall (fun r => (Qabs r <= 1)%Q) [1; 1; 1]%Q
  /\ (Qabs (nth 0 (discounted_returns [1; 1; 1]) 0) <= 1 * (100 # 3))%Q.
Proof.
  assert (H0 : (0 <= 1)%Q) by discriminate.
  assert (H1 : Forall (fun r => (Qabs r <= 1)%Q) [1; 1; 1]%Q)
    by (repeat constructor; discriminate).
  split; [exact H0|]. split; [exact H1|].
  exact (X_returns_bounded [1; 1; 1]%Q 1 0 H0 H1).
Defined.

Lemma Qsum_map_sub_div (m k : Q) (l : list Q) :
  (Qsum (map (fun R => (R - m) / k) l)
   == (Qsum l - inject_Z (Z.of_nat (length l)) * m) / k)%Q.
Proof.
  induction l as [|r l IH].
  - unfold Qsum. simpl. unfold Qdiv. ring.
  - cbn [map length]. rewrite !Qsum_cons, IH, Nat2Z.inj_succ.
    unfold Z.succ. rewrite inject_Z_plus. unfold Qdiv. ring.
Qed.

(** The normalised returns add up to zero (they have mean zero), for two
    returns or more and a non-zero divisor [std + eps]. *)
Theorem X_normalized_returns_sum_to_zero (lib : A2C.Torch) (epsilon : Q)
  (l : list Q) :
  (2 <= length l)%nat ->
  ~ (A2C.tensor_std lib l + epsilon == 0)%Q ->
  length (A2C.normalize lib epsilon l) = length l
  /\ (Qsum (A2C.normalize lib epsilon l) == 0)%Q
  /\ (np_mean (A2C.normalize lib epsilon l) == 0)%Q.
Proof.
  intros Hl Hk. split; [apply normalize_length|].
  assert (Hs : (Qsum (A2C.normalize lib epsilon l) == 0)%Q).
  { unfold A2C.normalize. rewrite Qsum_map_sub_div. unfold np_mean.
    assert (Hn : ~ (inject_Z (Z.of_nat (length l)) == 0)%Q).
    { unfold Qeq. simpl. lia. }
    field. split; assumption. }
  split; [exact Hs|]. unfold np_mean. rewrite Hs. unfold Qdiv. ring.
Qed.

(** The returns of three rewards of 1, with the stand-in library. *)
Lemma X_normalized_returns_witness :
  (2 <= length (discounted_returns [1; 1; 1]%Q))%nat
  /\ (Qsum (A2C.normalize Examples.lib0 (1 # 8388608)
              (discounted_returns [1; 1; 1]%Q)) == 0)%Q.
Proof.
  assert (Hl : (2 <= length (discounted_returns [1; 1; 1]%Q))%nat)
    by (simpl; lia).
  split; [exact Hl|].
  refine (proj1 (proj2 (X_normalized_returns_sum_to_zero Examples.lib0
                          (1 # 8388608) _ Hl _))).
  vm_compute. discriminate.
Defined.

(** ** The baseline script *)

Lemma py_int_nonneg (q : Q) :
  (0 <= q)%Q ->
  (0 <= inject_Z (Baseline.py_int q))%Q /\ (inject_Z (Baseline.py_int q) <= q)%Q.
Proof.
  destruct q as [n d]. unfold Baseline.py_int, Qle, inject_Z. simpl.
  intros H.
  assert (Hn : (0 <= n)%Z) by lia.
  assert (Hq : Z.quot n (Zpos d) = (n / Zpos d)%Z)
    by (apply Z.quot_div_nonneg; lia).
  assert (H0 : (0 <= n / Zpos d)%Z) by (apply Z.div_pos; lia).
  assert (H1 : (Zpos d * (n / Zpos d) <= n)%Z)
    by (apply Z.mul_div_le; lia).
  rewrite Hq. split; lia.
Qed.

Lemma comprehension_frame (ns : list Node) (action : list Q) (D : Q) :
  forall (i : nat) (m m' : Baseline.Dict),
    Baseline.comprehension ns i action D m = Ok m' ->
    forall n, ~ In n ns -> m' n = m n.
Proof.
  induction ns as [|n0 ns IH]; intros i m m' H n Hn; simpl in H.
  - inversion H; reflexivity.
  - destruct (nth_error action i) as [a|]; [|discriminate].
    rewrite (IH _ _ _ H n) by (intros Hin; apply Hn; right; exact Hin).
    unfold Baseline.dict_set. destruct (node_eqb n0 n) eqn:E; [|reflexivity].
    apply node_eqb_eq in E. subst. contradiction Hn. left. reflexivity.
Qed.

Lemma comprehension_total (ns : list Node) (action : list Q) (D : Q) :
  forall (i : nat) (m : Baseline.Dict),
    (i + length ns <= length action)%nat ->
    exists m', Baseline.comprehension ns i action D m = Ok m'.
Proof.
  induction ns as [|n0 ns IH]; intros i m H; simpl; [eauto|].
  simpl in H. destruct (nth_error action i) as [a|] eqn:E.
  - apply IH. lia.
  - apply nth_error_None in E. lia.
Qed.

(** Over distinct nodes, every count written by the comprehension is
    non-negative and the counts add up to at most [dictsum] times the
    weights read. *)
Lemma comprehension_bound (ns : list Node) (action : list Q) (D : Q) :
  NoDup ns -> Forall (fun a => (0 <= a)%Q) action -> (0 <= D)%Q ->
  forall (i : nat) (m m' : Baseline.Dict),
    Baseline.comprehension ns i action D m = Ok m' ->
    Forall (fun n => (0 <= m' n)%Q) ns
    /\ (Qsum (map m' ns)
        <= D * Qsum (firstn (length ns) (skipn i action)))%Q.
Proof.
  intros Hnd Ha HD. induction Hnd as [|n0 ns Hn0 Hnd IH];
    intros i m m' H.
  - split; [constructor|]. unfold Qsum. simpl. lra.
  - simpl in H. destruct (nth_error action i) as [a|] eqn:E; [|discriminate].
    destruct (IH _ _ _ H) as (Hpos & Hsum).
    pose proof (comprehension_frame _ _ _ _ _ _ H n0 Hn0) as Hm.
    unfold Baseline.dict_set in Hm. rewrite node_eqb_refl in Hm.
    assert (Ha0 : (0 <= a * D)%Q).
    { apply Qmult_le_0_compat; [|exact HD].
      rewrite Forall_forall in Ha. apply Ha. exact (nth_error_In _ _ E). }
    destruct (py_int_nonneg _ Ha0) as (P1 & P2).
    split.
    + constructor; [rewrite Hm; exact P1|exact Hpos].
    + cbn [map length]. rewrite (skipn_nth_error _ _ _ E). cbn [firstn].
      rewrite !Qsum_cons, Hm. lra.
Qed.

Lemma dict_set_other (m : Baseline.Dict) (k : Node) (v : Q)
  (ns : list Node) :
  ~ In k ns -> map (Baseline.dict_set m k v) ns = map m ns.
Proof.
  intros H. apply map_ext_in. intros n Hin. unfold Baseline.dict_set.
  destruct (node_eqb k n) eqn:E; [|reflexivity].
  apply node_eqb_eq in E. subst. contradiction.
Qed.

Lemma dict_set_sum (m : Baseline.Dict) (k : Node) (v : Q) (ns : list Node) :
  NoDup ns -> In k ns ->
  (Qsum (map (Baseline.dict_set m k v) ns) == Qsum (map m ns) - m k + v)%Q.
Proof.
  induction 1 as [|n0 ns Hn0 Hnd IH]; intros Hin; [contradiction|].
  cbn [map]. rewrite !Qsum_cons. unfold Baseline.dict_set at 1.
  destruct (node_eqb k n0) eqn:E.
  - apply node_eqb_eq in E. subst n0.
    rewrite (dict_set_other m k v ns Hn0). ring.
  - destruct Hin as [->|Hin]; [rewrite node_eqb_refl in E; discriminate|].
    rewrite (IH Hin). ring.
Qed.

Lemma argmax_from_range (l : list Q) :
  forall (i best_i : nat) (best : Q),
    (best_i < i)%nat ->
    (Baseline.argmax_from l i best_i best < i + length l)%nat.
Proof.
  induction l as [|v l IH]; intros i best_i best H; simpl; [lia|].
  destruct (Qle_bool v best).
  - specialize (IH (S i) best_i best). lia.
  - specialize (IH (S i) i v). lia.
Qed.

Lemma argmax_range (l : list Q) (i : nat) :
  Baseline.argmax l = Ok i -> (i < length l)%nat.
Proof.
  destruct l as [|v l]; [discriminate|]. simpl. intros H. inversion H.
  pose proof (argmax_from_range l 1 0 v). lia.
Qed.

(** The two assertions of the loop, for distinct nodes and a non-negative
    action of total weight at most 1. *)
Lemma desired_acc_assertions (e : Env) (action : list Q) (D : Q)
  (r : Baseline.Dict * Q) :
  NoDup (nodes e) ->
  Forall (fun a => (0 <= a)%Q) action -> (Qsum action <= 1)%Q ->
  (0 <= D)%Q -> (D <= Baseline.total_acc e)%Q ->
  length action = length (nodes e) ->
  Baseline.desired_acc e action D = Ok r ->
  Baseline.assertions_hold e r.
Proof.
  intros Hnd Ha Hs HD HDt Hl H. unfold Baseline.desired_acc in H.
  destruct (Baseline.comprehension _ _ _ _ _) as [m|] eqn:Ec; simpl in H;
    [|discriminate].
  destruct (comprehension_bound _ _ _ Hnd Ha HD _ _ _ Ec) as (Hpos & Hsum).
  rewrite <- Hl in Hsum. simpl skipn in Hsum. rewrite firstn_all in Hsum.
  assert (Hmiss : (0 <= Baseline.total_acc e - Baseline.total_desired e m)%Q).
  { unfold Baseline.total_desired. nra. }
  destruct (Baseline.argmax action) as [i|] eqn:Ei; simpl in H;
    [|discriminate].
  destruct (Qeq_bool (Baseline.total_acc e - Baseline.total_desired e m) 0)
    eqn:Eq; simpl in H.
  - inversion H; subst. split; [|exact Hpos]. cbn [snd].
    apply Qeq_bool_iff in Eq. lra.
  - destruct (GNNParser.node_at e i) as [k|] eqn:Ek; simpl in H;
      [|discriminate].
    inversion H; subst. clear H. unfold GNNParser.node_at in Ek.
    destruct (nth_error (nodes e) i) as [k'|] eqn:En; [|discriminate].
    inversion Ek; subst k'.
    pose proof (nth_error_In _ _ En) as Hin.
    split; cbn [fst snd].
    + unfold Baseline.total_desired at 1.
      rewrite (dict_set_sum m k _ (nodes e) Hnd Hin).
      unfold Baseline.total_desired. ring.
    + rewrite Forall_forall in *. intros n Hn. unfold Baseline.dict_set.
      destruct (node_eqb k n).
      * specialize (Hpos k Hin). cbv beta in Hpos. lra.
      * exact (Hpos n Hn).
Qed.

(** The baseline loop's counts: for distinct nodes and an action of
    non-negative weights adding up to at most 1, with
    0 <= [dictsum] <= [total_acc], both assertions of the loop hold: the
    desired counts are non-negative and add up to [total_acc], the missing
    cars having gone to the node of largest weight. *)
Theorem X_baseline_assertions_hold (e : Env) (action : list Q) (D : Q)
  (r : Baseline.Dict * Q) :
  NoDup (nodes e) ->
  Forall (fun a => (0 <= a)%Q) action -> (Qsum action <= 1)%Q ->
  (0 <= D)%Q -> (D <= Baseline.total_acc e)%Q ->
  length action = length (nodes e) ->
  Baseline.desired_acc e action D = Ok r ->
  (snd r == Baseline.total_acc e)%Q
  /\ Forall (fun n => (0 <= fst r n)%Q) (nodes e).
Proof. exact (desired_acc_assertions e action D r). Qed.

(** Three nodes with one car each and the weights 1/2, 1/4, 1/4: the
    counts are 1, 0, 0 before the two missing cars go to the first node. *)
Lemma X_baseline_assertions_witness :
  exists r,
    Baseline.desired_acc Examples.env3 [1 # 2; 1 # 4; 1 # 4]%Q 3 = Ok r
    /\ (snd r == 3)%Q
    /\ map (fst r) (nodes Examples.env3) = [3; 0; 0]%Q.
Proof.
  assert (Hnd : NoDup (nodes Examples.env3)).
  { simpl. unfold Examples.three_nodes.
    repeat constructor; simpl; intuition discriminate. }
  destruct (Baseline.desired_acc Examples.env3 [1 # 2; 1 # 4; 1 # 4]%Q 3)
    as [r|] eqn:E; [|vm_compute in E; discriminate].
  exists r. split; [reflexivity|].
  split.
  - refine (proj1 (X_baseline_assertions_hold Examples.env3
                     [1 # 2; 1 # 4; 1 # 4]%Q 3 r Hnd _ _ _ _ eq_refl E)).
    + repeat constructor; discriminate.
    + vm_compute. discriminate.
    + discriminate.
    + vm_compute. discriminate.
  - vm_compute in E. inversion E. reflexivity.
Defined.

Lemma Qsum_repeat (q : Q) (n : nat) :
  (Qsum (repeat q n) == inject_Z (Z.of_nat n) * q)%Q.
Proof.
  induction n as [|n IH].
  - unfold Qsum. simpl. ring.
  - cbn [repeat]. rewrite Qsum_cons, IH, Nat2Z.inj_succ.
    unfold Z.succ. rewrite inject_Z_plus. ring.
Qed.

(** [select_equal_action] returns the uniform allocation and leaves the
    agent as it is (no saved action, no statistics): one weight 1/N per
    node, adding up to 1 on a non-empty graph; and with it the baseline
    loop's counts exist and pass both assertions, for distinct nodes. *)
Theorem X_equal_action_is_uniform (s : A2C.t) (D : Q) :
  let N := length (nodes (A2C.env s)) in
  exists a,
    A2C.select_equal_action s = (Ok a, s)
    /\ length a = N
    /\ Forall (fun q => q = (1 / inject_Z (Z.of_nat N))%Q) a
    /\ (N <> 0%nat -> (Qsum a == 1)%Q)
    /\ (N <> 0%nat -> NoDup (nodes (A2C.env s)) ->
        (0 <= D)%Q -> (D <= Baseline.total_acc (A2C.env s))%Q ->
        exists r, Baseline.desired_acc (A2C.env s) a D = Ok r
                  /\ Baseline.assertions_hold (A2C.env s) r).
Proof.
  cbv zeta. set (N := length (nodes (A2C.env s))).
  exists (repeat (1 / inject_Z (Z.of_nat N))%Q N).
  assert (Hsum : N <> 0%nat ->
    (Qsum (repeat (1 / inject_Z (Z.of_nat N))%Q N) == 1)%Q).
  { intros HN. rewrite Qsum_repeat. field. unfold Qeq. simpl. lia. }
  split; [reflexivity|]. split; [apply repeat_length|].
  split; [apply Forall_forall; intros q Hq; exact (repeat_spec _ _ _ Hq)|].
  split; [exact Hsum|].
  intros HN Hnd HD HDt.
  assert (Hpos : Forall (fun a => (0 <= a)%Q)
                   (repeat (1 / inject_Z (Z.of_nat N))%Q N)).
  { apply Forall_forall. intros q Hq. rewrite (repeat_spec _ _ _ Hq).
    apply Qle_shift_div_l; [unfold Qlt; simpl; lia|]. lra. }
  destruct (Baseline.desired_acc (A2C.env s)
              (repeat (1 / inject_Z (Z.of_nat N))%Q N) D) as [r|e] eqn:E.
  - exists r. split; [reflexivity|].
    apply (desired_acc_assertions _ _ D r Hnd Hpos); try assumption.
    + rewrite (Hsum HN). apply Qle_refl.
    + apply repeat_length.
  - exfalso. unfold Baseline.desired_acc in E.
    destruct (comprehension_total (nodes (A2C.env s))
                (repeat (1 / inject_Z (Z.of_nat N))%Q N) D 0
                (fun _ => 0%Q)) as (m & Em).
    { rewrite repeat_length. simpl. apply Nat.le_refl. }
    rewrite Em in E. simpl in E.
    destruct (Baseline.argmax _) as [i|] eqn:Ei; simpl in E.
    + apply argmax_range in Ei. rewrite repeat_length in Ei.
      destruct (negb _); [|discriminate].
      unfold GNNParser.node_at in E.
      destruct (nth_error (nodes (A2C.env s)) i) eqn:En; [discriminate|].
      apply nth_error_None in En. fold N in En. lia.
    + destruct N; [congruence|]. discriminate.
Qed.

(** ** Learning rates *)

Lemma new_Adam_cases (rate : Q) :
  ((0 <= rate)%Q
   /\ A2C.new_Adam rate = Ok {| A2C.lr := rate; A2C.moments := [] |})
  \/ (~ (0 <= rate)%Q /\ A2C.new_Adam rate = Raise ValueError).
Proof.
  unfold A2C.new_Adam. destruct (Qle_bool 0 rate) eqn:E.
  - left. split; [apply Qle_bool_iff; exact E|reflexivity].
  - right. split; [|reflexivity]. intros H. apply Qle_bool_iff in H.
    congruence.
Qed.

Lemma decay_learning_rate_eq (s : A2C.t) (a c : Q) :
  A2C.decay_learning_rate a c s =
  match A2C.configure_optimizers (A2C.adapted_lr_a s * a)
          (A2C.adapted_lr_c s * c) with
  | Ok o =>
      (Ok tt,
       A2C.with_learning_rates (A2C.adapted_lr_a s * a)
         (A2C.adapted_lr_c s * c) o
         (A2C.with_learning_rates (A2C.adapted_lr_a s * a)
            (A2C.adapted_lr_c s * c) (A2C.optimizers s) s))
  | Raise e =>
      (Raise e,
       A2C.with_learning_rates (A2C.adapted_lr_a s * a)
         (A2C.adapted_lr_c s * c) (A2C.optimizers s) s)
  end.
Proof.
  unfold A2C.decay_learning_rate, A2C.bind, A2C.modify, A2C.get, A2C.lift.
  cbn [fst snd A2C.adapted_lr_a A2C.adapted_lr_c A2C.with_learning_rates].
  destruct (A2C.configure_optimizers _ _); reflexivity.
Qed.

(** [decay_learning_rate] is not atomic.  It returns exactly when both
    scaled rates are not negative, and then both optimisers are new, at
    the scaled rates and without moments.  Otherwise it raises
    [ValueError], as the optimiser's constructor does, after the agent's
    rates have been multiplied: the agent is left with the scaled rates
    and with its old optimisers.  In both cases the base rates, the
    networks and the four buffers stay. *)
Theorem X_decay_learning_rate_failure (s : A2C.t) (a c : Q) :
  let r := fst (A2C.decay_learning_rate a c s) in
  let s' := snd (A2C.decay_learning_rate a c s) in
  (r = Ok tt <->
   (0 <= A2C.adapted_lr_a s * a)%Q /\ (0 <= A2C.adapted_lr_c s * c)%Q)
  /\ (r = Ok tt \/ r = Raise ValueError)
  /\ A2C.adapted_lr_a s' = (A2C.adapted_lr_a s * a)%Q
  /\ A2C.adapted_lr_c s' = (A2C.adapted_lr_c s * c)%Q
  /\ (r = Ok tt ->
      A2C.optimizers s'
      = {| A2C.a_optimizer :=
             {| A2C.lr := (A2C.adapted_lr_a s * a)%Q; A2C.moments := [] |};
           A2C.c_optimizer :=
             {| A2C.lr := (A2C.adapted_lr_c s * c)%Q; A2C.moments := [] |}
        |})
  /\ (r = Raise ValueError -> A2C.optimizers s' = A2C.optimizers s)
  /\ A2C.lr_a s' = A2C.lr_a s /\ A2C.lr_c s' = A2C.lr_c s
  /\ A2C.actor s' = A2C.actor s /\ A2C.critic s' = A2C.critic s
  /\ A2C.saved_actions s' = A2C.saved_actions s
  /\ A2C.rewards s' = A2C.rewards s.
Proof.
  cbv zeta. rewrite decay_learning_rate_eq. unfold A2C.configure_optimizers.
  destruct (new_Adam_cases (A2C.adapted_lr_a s * a)) as [(Ha & Ea)|(Ha & Ea)];
    rewrite Ea; cbn [res_bind].
  - destruct (new_Adam_cases (A2C.adapted_lr_c s * c))
      as [(Hc & Ec)|(Hc & Ec)]; rewrite Ec; cbn [res_bind fst snd].
    + split; [split; [intros _; split; assumption|intros _; reflexivity]|].
      split; [left; reflexivity|].
      split; [reflexivity|]. split; [reflexivity|].
      split; [intros _; reflexivity|]. split; [intros H; discriminate|].
      repeat split.
    + split; [split; [intros H; discriminate|]|].
      { intros (_ & H). contradiction. }
      split; [right; reflexivity|].
      split; [reflexivity|]. split; [reflexivity|].
      split; [intros H; discriminate|]. split; [intros _; reflexivity|].
      repeat split.
  - cbn [fst snd].
    split; [split; [intros H; discriminate|]|].
    { intros (H & _). contradiction. }
    split; [right; reflexivity|].
    split; [reflexivity|]. split; [reflexivity|].
    split; [intros H; discriminate|]. split; [intros _; reflexivity|].
    repeat split.
Qed.

(** Decaying the actor's rate by -1 on the agent as built: the call
    raises, the adapted rate is -1/1000, and the actor's optimiser still
    runs at 1/1000. *)
Lemma X_decay_learning_rate_witness :
  fst (A2C.decay_learning_rate (- (1)) 1 (Examples.agent Examples.env1))
  = Raise ValueError
  /\ (A2C.adapted_lr_a
        (snd (A2C.decay_learning_rate (- (1)) 1
                (Examples.agent Examples.env1))) == - (1 # 1000))%Q
  /\ A2C.lr (A2C.a_optimizer
               (A2C.optimizers
                  (snd (A2C.decay_learning_rate (- (1)) 1
                          (Examples.agent Examples.env1)))))
     = 1 # 1000.
Proof.
  destruct (X_decay_learning_rate_failure (Examples.agent Examples.env1)
              (- (1)) 1) as (_ & _ & Ha & _ & _ & Ho & _).
  assert (Hr : fst (A2C.decay_learning_rate (- (1)) 1
                      (Examples.agent Examples.env1)) = Raise ValueError)
    by reflexivity.
  split; [exact Hr|]. split; [rewrite Ha; reflexivity|].
  rewrite (Ho Hr). reflexivity.
Defined.
